(** * Kinematics of the Sun-Earth-Moon scene

    A shallow embedding of the frame loop [SolarSystemApp.animate] of
    [src/js/main.js], of the helpers of [createEarth] and [createMoon] that fix
    the orbit geometry, and of the GUI handlers of [createGUI] that write the
    state the frame loop reads.

    JavaScript numbers are modelled as real numbers: [+ - * /], [Math.sqrt],
    [Math.sin] and [Math.cos] are the exact operations of [R], so every
    statement below is about the arithmetic the source writes down, not about
    its IEEE-754 rounding.

    The source drives the scene through three.js objects and lil-gui
    controllers.  The methods it calls are modelled in the modules [Vector3],
    [Quaternion], [Euler], [Clock] and [NumberController] below, one definition
    per method, under the method's own name. *)

From Stdlib Require List.
From Stdlib Require Import String.
From Stdlib Require Import Reals Lra Psatz RNsatz ZArith Bool.

Open Scope R_scope.

(** ** three.js: Vector3 *)

Module Vector3.

Record t : Type := mk { x : R; y : R; z : R }.

(** [new THREE.Vector3()] *)
Definition zero : t := mk 0 0 0.

(** [a.add(b)] *)
Definition add (a b : t) : t := mk (x a + x b) (y a + y b) (z a + z b).

(** [a.sub(b)] *)
Definition sub (a b : t) : t := mk (x a - x b) (y a - y b) (z a - z b).

(** [new THREE.Vector3().subVectors(a, b)] *)
Definition subVectors (a b : t) : t := sub a b.

(** [a.multiplyScalar(s)] *)
Definition multiplyScalar (a : t) (s : R) : t := mk (x a * s) (y a * s) (z a * s).

(** [a.divideScalar(s)] is [a.multiplyScalar(1 / s)] *)
Definition divideScalar (a : t) (s : R) : t := multiplyScalar a (1 / s).

(** [a.dot(b)] *)
Definition dot (a b : t) : R := x a * x b + y a * y b + z a * z b.

(** [a.length()] *)
Definition length (a : t) : R := sqrt (x a * x a + y a * y a + z a * z a).

(** [a.normalize()] is [a.divideScalar(a.length() || 1)] *)
Definition normalize (a : t) : t :=
  divideScalar a (if Req_dec_T (length a) 0 then 1 else length a).

End Vector3.

(** ** three.js: Euler (order XYZ) *)

Module Euler.

Record t : Type := mk { x : R; y : R; z : R }.

(** [rotation.y = v] *)
Definition set_y (e : t) (v : R) : t := mk (x e) v (z e).

End Euler.

(** ** three.js: Quaternion *)

Module Quaternion.

Record t : Type := mk { x : R; y : R; z : R; w : R }.

(** [new THREE.Quaternion()] *)
Definition identity : t := mk 0 0 0 1.

(** [Number.EPSILON] *)
Definition EPSILON : R := / 2 ^ 52.

(** [a.multiply(b)], that is [multiplyQuaternions(a, b)] *)
Definition multiply (a b : t) : t :=
  mk (x a * w b + w a * x b + y a * z b - z a * y b)
     (y a * w b + w a * y b + z a * x b - x a * z b)
     (z a * w b + w a * z b + x a * y b - y a * x b)
     (w a * w b - x a * x b - y a * y b - z a * z b).

(** [q.setFromAxisAngle(axis, angle)]; the axis is assumed normalized *)
Definition setFromAxisAngle (axis : Vector3.t) (angle : R) : t :=
  let halfAngle := angle / 2 in
  let s := sin halfAngle in
  mk (Vector3.x axis * s) (Vector3.y axis * s) (Vector3.z axis * s)
     (cos halfAngle).

(** [q.setFromEuler(euler)] for the default order XYZ *)
Definition setFromEuler (e : Euler.t) : t :=
  let c1 := cos (Euler.x e / 2) in
  let c2 := cos (Euler.y e / 2) in
  let c3 := cos (Euler.z e / 2) in
  let s1 := sin (Euler.x e / 2) in
  let s2 := sin (Euler.y e / 2) in
  let s3 := sin (Euler.z e / 2) in
  mk (s1 * c2 * c3 + c1 * s2 * s3)
     (c1 * s2 * c3 - s1 * c2 * s3)
     (c1 * c2 * s3 + s1 * s2 * c3)
     (c1 * c2 * c3 - s1 * s2 * s3).

(** [q.length()] *)
Definition length (q : t) : R :=
  sqrt (x q * x q + y q * y q + z q * z q + w q * w q).

(** [q.normalize()] *)
Definition normalize (q : t) : t :=
  let l := length q in
  if Req_dec_T l 0 then mk 0 0 0 1
  else let l := 1 / l in mk (x q * l) (y q * l) (z q * l) (w q * l).

(** [q.setFromUnitVectors(vFrom, vTo)]; both vectors are assumed normalized *)
Definition setFromUnitVectors (vFrom vTo : Vector3.t) : t :=
  let r := Vector3.dot vFrom vTo + 1 in
  normalize
    (if Rlt_dec r EPSILON then
       (* vFrom and vTo point in opposite directions *)
       let r := 0 in
       if Rlt_dec (Rabs (Vector3.z vFrom)) (Rabs (Vector3.x vFrom)) then
         mk (- Vector3.y vFrom) (Vector3.x vFrom) 0 r
       else
         mk 0 (- Vector3.z vFrom) (Vector3.y vFrom) r
     else
       mk (Vector3.y vFrom * Vector3.z vTo - Vector3.z vFrom * Vector3.y vTo)
          (Vector3.z vFrom * Vector3.x vTo - Vector3.x vFrom * Vector3.z vTo)
          (Vector3.x vFrom * Vector3.y vTo - Vector3.y vFrom * Vector3.x vTo)
          r).

(** [v.applyQuaternion(q)]; the quaternion is assumed to have unit length *)
Definition applyQuaternion (v : Vector3.t) (q : t) : Vector3.t :=
  let vx := Vector3.x v in
  let vy := Vector3.y v in
  let vz := Vector3.z v in
  let tx := 2 * (y q * vz - z q * vy) in
  let ty := 2 * (z q * vx - x q * vz) in
  let tz := 2 * (x q * vy - y q * vx) in
  Vector3.mk (vx + w q * tx + y q * tz - z q * ty)
             (vy + w q * ty + z q * tx - x q * tz)
             (vz + w q * tz + x q * ty - y q * tx).

End Quaternion.

(** ** three.js: Clock

    [performance.now()] is an input of every method that reads it: the wall
    clock, in milliseconds. *)

Module Clock.

Record t : Type := mk {
  autoStart : bool;
  startTime : R;
  oldTime : R;
  elapsedTime : R;
  running : bool
}.

(** [new THREE.Clock()] *)
Definition new : t := mk true 0 0 0 false.

(** [clock.start()] *)
Definition start (now : R) (c : t) : t :=
  mk (autoStart c) now now 0 true.

(** [clock.getDelta()]: the clock after the call (the returned difference is
    not used by the source) *)
Definition getDelta (now : R) (c : t) : t :=
  if autoStart c && negb (running c) then start now c
  else if running c then
    let newTime := now in
    let diff := (newTime - oldTime c) / 1000 in
    mk (autoStart c) (startTime c) newTime (elapsedTime c + diff) (running c)
  else c.

(** [clock.getElapsedTime()]: the returned value and the clock after the call *)
Definition getElapsedTime (now : R) (c : t) : R * t :=
  let c' := getDelta now c in (elapsedTime c', c').

(** [clock.stop()] *)
Definition stop (now : R) (c : t) : t :=
  let c' := snd (getElapsedTime now c) in
  mk false (startTime c') (oldTime c') (elapsedTime c') false.

End Clock.

(** ** three.js: Object3D

    three.js keeps the orientation of an object twice, as the Euler angles
    [rotation] and as [quaternion], and updates one whenever the other is
    written.  The source writes the orientation of [earthGroup], [moonGroup]
    and [moon] through [rotation.set(0, 0, 0)], [rotateX/Y/Z] and
    [quaternion.copy], and never reads their Euler angles: these objects are
    modelled by [Object3D.t], which carries the quaternion.  It writes the
    orientation of [sun], [earth], [clouds], [earthAxis] and [moonFaceMark]
    through their Euler angles only: these are modelled by [Mesh.t]. *)

Module Object3D.

Record t : Type := mk { position : Vector3.t; quaternion : Quaternion.t }.

(** [new THREE.Group()] *)
Definition new : t := mk Vector3.zero Quaternion.identity.

(** [o.position.set(x, y, z)] *)
Definition position_set (o : t) (x y z : R) : t :=
  mk (Vector3.mk x y z) (quaternion o).

(** [o.rotation.set(x, y, z)]: the quaternion follows the Euler angles *)
Definition rotation_set (o : t) (x y z : R) : t :=
  mk (position o) (Quaternion.setFromEuler (Euler.mk x y z)).

(** [o.quaternion.copy(q)] *)
Definition quaternion_copy (o : t) (q : Quaternion.t) : t :=
  mk (position o) q.

(** [o.rotateOnAxis(axis, angle)]: rotation in the object's own frame *)
Definition rotateOnAxis (o : t) (axis : Vector3.t) (angle : R) : t :=
  let q1 := Quaternion.setFromAxisAngle axis angle in
  mk (position o) (Quaternion.multiply (quaternion o) q1).

(** [o.rotateX(angle)], [o.rotateY(angle)], [o.rotateZ(angle)] *)
Definition rotateX (o : t) (angle : R) : t := rotateOnAxis o (Vector3.mk 1 0 0) angle.
Definition rotateY (o : t) (angle : R) : t := rotateOnAxis o (Vector3.mk 0 1 0) angle.
Definition rotateZ (o : t) (angle : R) : t := rotateOnAxis o (Vector3.mk 0 0 1) angle.

End Object3D.

Module Mesh.

Record t : Type := mk { position : Vector3.t; rotation : Euler.t }.

(** [new THREE.Mesh(geometry, material)] *)
Definition new : t := mk Vector3.zero (Euler.mk 0 0 0).

(** [m.position.set(x, y, z)] *)
Definition position_set (m : t) (x y z : R) : t :=
  mk (Vector3.mk x y z) (rotation m).

(** [m.rotation.set(x, y, z)] *)
Definition rotation_set (m : t) (x y z : R) : t :=
  mk (position m) (Euler.mk x y z).

(** [m.rotation.y = v] *)
Definition set_rotation_y (m : t) (v : R) : t :=
  mk (position m) (Euler.set_y (rotation m) v).

(** The quaternion three.js derives from the Euler angles *)
Definition quaternion (m : t) : Quaternion.t :=
  Quaternion.setFromEuler (rotation m).

End Mesh.

(** ** three.js: DirectionalLight

    A directional light shines from its [position] towards the world position
    of its [target].  The source only ever retargets a light to [earthGroup]. *)

Module DirectionalLight.

Inductive Target : Type :=
| DefaultTarget      (* the light's own target object, at the origin *)
| EarthGroupTarget.  (* [light.target = this.earthGroup] *)

Record t : Type := mk { position : Vector3.t; target : Target }.

(** [new THREE.DirectionalLight(color, intensity)] followed by
    [light.position.set(0, 0, 0)] *)
Definition new : t := mk Vector3.zero DefaultTarget.

End DirectionalLight.

(** ** lil-gui: NumberController

    [gui.add(object, property, min, max, step)].  A value entered by the user
    goes through [_snapClampSetValue]; [setValue] itself stores what it is
    given.  [_snap] ends with [parseFloat(r.toPrecision(15))], which only
    removes floating-point noise and is the identity on exact numbers. *)

Module NumberController.

Record t : Type := mk { _min : R; _max : R; _step : R }.

(** [Math.round(v)]: the nearest integer, ties upwards *)
Definition Math_round (v : R) : R := IZR (Int_part (v + / 2)).

(** [c._snap(value)] *)
Definition _snap (c : t) (value : R) : R :=
  Math_round (value / _step c) * _step c.

(** [c._clamp(value)] *)
Definition _clamp (c : t) (value : R) : R :=
  let value := if Rlt_dec value (_min c) then _min c else value in
  let value := if Rlt_dec (_max c) value then _max c else value in
  value.

(** The value [c._snapClampSetValue(value)] hands to [setValue], which
    assigns it to the controlled property and then calls [onChange]. *)
Definition _snapClampSetValue (c : t) (value : R) : R :=
  _clamp c (_snap c value).

End NumberController.

(** ** The application state

    The fields of [SolarSystemApp] that [animate] and the GUI handlers read or
    write.  A field that [animate] guards with [if (this.f)] is an [option].
    Rendering-only members (camera, composer, textures, orbit and marker
    meshes, the vertex buffer of [moonFaceLine], the speed-ratio label) carry
    no kinematic state and are left out. *)

(** [this.speedControls] *)
Record SpeedControls : Type := mkSpeedControls {
  earthRotationSpeed : R;
  pauseAnimation : bool
}.

(** [moonOrbitControls], the object behind the inclination slider *)
Record MoonOrbitControls : Type := mkMoonOrbitControls {
  moonOrbitInclination : R
}.

(** [this.atmosphere.material.uniforms] *)
Record Uniforms : Type := mkUniforms {
  atmosphereIntensity : R;
  sunPosition : Vector3.t
}.

Record App : Type := mkApp {
  clock : Clock.t;
  elapsedTime : R;
  speedControls : option SpeedControls;
  moonOrbitControls : option MoonOrbitControls;
  sun : option Mesh.t;
  earthGroup : option Object3D.t;
  earth : option Mesh.t;
  clouds : option Mesh.t;
  earthAxis : option Mesh.t;
  atmosphere : option Uniforms;
  sunDirectionalLight : option DirectionalLight.t;
  secondDirectionalLight : option DirectionalLight.t;
  moonGroup : option Object3D.t;
  moon : option Object3D.t;
  moonFaceMark : option Mesh.t
}.

(** Field assignments [this.f = v] *)

Definition set_clock (a : App) (v : Clock.t) : App :=
  mkApp v (elapsedTime a) (speedControls a) (moonOrbitControls a) (sun a)
    (earthGroup a) (earth a) (clouds a) (earthAxis a) (atmosphere a)
    (sunDirectionalLight a) (secondDirectionalLight a) (moonGroup a) (moon a)
    (moonFaceMark a).

Definition set_elapsedTime (a : App) (v : R) : App :=
  mkApp (clock a) v (speedControls a) (moonOrbitControls a) (sun a)
    (earthGroup a) (earth a) (clouds a) (earthAxis a) (atmosphere a)
    (sunDirectionalLight a) (secondDirectionalLight a) (moonGroup a) (moon a)
    (moonFaceMark a).

Definition set_speedControls (a : App) (v : option SpeedControls) : App :=
  mkApp (clock a) (elapsedTime a) v (moonOrbitControls a) (sun a)
    (earthGroup a) (earth a) (clouds a) (earthAxis a) (atmosphere a)
    (sunDirectionalLight a) (secondDirectionalLight a) (moonGroup a) (moon a)
    (moonFaceMark a).

Definition set_moonOrbitControls (a : App) (v : option MoonOrbitControls) : App :=
  mkApp (clock a) (elapsedTime a) (speedControls a) v (sun a)
    (earthGroup a) (earth a) (clouds a) (earthAxis a) (atmosphere a)
    (sunDirectionalLight a) (secondDirectionalLight a) (moonGroup a) (moon a)
    (moonFaceMark a).

Definition set_sun (a : App) (v : option Mesh.t) : App :=
  mkApp (clock a) (elapsedTime a) (speedControls a) (moonOrbitControls a) v
    (earthGroup a) (earth a) (clouds a) (earthAxis a) (atmosphere a)
    (sunDirectionalLight a) (secondDirectionalLight a) (moonGroup a) (moon a)
    (moonFaceMark a).

Definition set_earthGroup (a : App) (v : option Object3D.t) : App :=
  mkApp (clock a) (elapsedTime a) (speedControls a) (moonOrbitControls a) (sun a)
    v (earth a) (clouds a) (earthAxis a) (atmosphere a)
    (sunDirectionalLight a) (secondDirectionalLight a) (moonGroup a) (moon a)
    (moonFaceMark a).

Definition set_earth (a : App) (v : option Mesh.t) : App :=
  mkApp (clock a) (elapsedTime a) (speedControls a) (moonOrbitControls a) (sun a)
    (earthGroup a) v (clouds a) (earthAxis a) (atmosphere a)
    (sunDirectionalLight a) (secondDirectionalLight a) (moonGroup a) (moon a)
    (moonFaceMark a).

Definition set_clouds (a : App) (v : option Mesh.t) : App :=
  mkApp (clock a) (elapsedTime a) (speedControls a) (moonOrbitControls a) (sun a)
    (earthGroup a) (earth a) v (earthAxis a) (atmosphere a)
    (sunDirectionalLight a) (secondDirectionalLight a) (moonGroup a) (moon a)
    (moonFaceMark a).

Definition set_earthAxis (a : App) (v : option Mesh.t) : App :=
  mkApp (clock a) (elapsedTime a) (speedControls a) (moonOrbitControls a) (sun a)
    (earthGroup a) (earth a) (clouds a) v (atmosphere a)
    (sunDirectionalLight a) (secondDirectionalLight a) (moonGroup a) (moon a)
    (moonFaceMark a).

Definition set_atmosphere (a : App) (v : option Uniforms) : App :=
  mkApp (clock a) (elapsedTime a) (speedControls a) (moonOrbitControls a) (sun a)
    (earthGroup a) (earth a) (clouds a) (earthAxis a) v
    (sunDirectionalLight a) (secondDirectionalLight a) (moonGroup a) (moon a)
    (moonFaceMark a).

Definition set_sunDirectionalLight (a : App) (v : option DirectionalLight.t) : App :=
  mkApp (clock a) (elapsedTime a) (speedControls a) (moonOrbitControls a) (sun a)
    (earthGroup a) (earth a) (clouds a) (earthAxis a) (atmosphere a)
    v (secondDirectionalLight a) (moonGroup a) (moon a)
    (moonFaceMark a).

Definition set_secondDirectionalLight (a : App) (v : option DirectionalLight.t) : App :=
  mkApp (clock a) (elapsedTime a) (speedControls a) (moonOrbitControls a) (sun a)
    (earthGroup a) (earth a) (clouds a) (earthAxis a) (atmosphere a)
    (sunDirectionalLight a) v (moonGroup a) (moon a)
    (moonFaceMark a).

Definition set_moonGroup (a : App) (v : option Object3D.t) : App :=
  mkApp (clock a) (elapsedTime a) (speedControls a) (moonOrbitControls a) (sun a)
    (earthGroup a) (earth a) (clouds a) (earthAxis a) (atmosphere a)
    (sunDirectionalLight a) (secondDirectionalLight a) v (moon a)
    (moonFaceMark a).

Definition set_moon (a : App) (v : option Object3D.t) : App :=
  mkApp (clock a) (elapsedTime a) (speedControls a) (moonOrbitControls a) (sun a)
    (earthGroup a) (earth a) (clouds a) (earthAxis a) (atmosphere a)
    (sunDirectionalLight a) (secondDirectionalLight a) (moonGroup a) v
    (moonFaceMark a).

Definition set_moonFaceMark (a : App) (v : option Mesh.t) : App :=
  mkApp (clock a) (elapsedTime a) (speedControls a) (moonOrbitControls a) (sun a)
    (earthGroup a) (earth a) (clouds a) (earthAxis a) (atmosphere a)
    (sunDirectionalLight a) (secondDirectionalLight a) (moonGroup a) (moon a)
    v.

(** ** createEarth: the orbit geometry *)

(** [const earthOrbitRadius = 20] and [const earthOrbitEccentricity = 0.25],
    declared in [createEarth] and again in [animate] *)
Definition earthOrbitRadius : R := 20.
Definition earthOrbitEccentricity : R := 0.25.

(** [calcOrbitPoint], the closure of [createEarth]; the two constants it
    captures are its first two arguments *)
Definition calcOrbitPoint (earthOrbitRadius earthOrbitEccentricity angle : R)
  : Vector3.t :=
  let r := (earthOrbitRadius * (1 - earthOrbitEccentricity * earthOrbitEccentricity))
           / (1 + earthOrbitEccentricity * cos angle) in
  Vector3.mk (- r * cos angle) 0 (r * sin angle).

(** [perihelionPosition] and [aphelionPosition] of [createEarth] *)
Definition perihelionPosition : Vector3.t :=
  Vector3.mk (- earthOrbitRadius * (1 - earthOrbitEccentricity)) 0 0.

Definition aphelionPosition : Vector3.t :=
  Vector3.mk (earthOrbitRadius * (1 + earthOrbitEccentricity)) 0 0.

(** [winterSolsticeAngle] and [summerSolsticeAngle] of [createEarth] *)
Definition winterSolsticeAngle : R := 0 + 0.226.
Definition summerSolsticeAngle : R := PI - 0.226.

(** ** The state after construction

    The constructor, [createSolarSystem] ([createSun], [createEarth],
    [createMoon]) and [createGUI] have run; [animate] has not. *)

Definition constructed : App :=
  {| clock := Clock.new;
     elapsedTime := 0;
     speedControls := Some (mkSpeedControls 1 false);
     moonOrbitControls := Some (mkMoonOrbitControls 5.1);
     sun := Some Mesh.new;
     earthGroup := Some Object3D.new;
     earth := Some Mesh.new;
     clouds := Some Mesh.new;
     earthAxis := Some (Mesh.position_set Mesh.new 0 0 0);
     atmosphere := Some (mkUniforms 0.8 (Vector3.mk 0 0 0));
     sunDirectionalLight := Some DirectionalLight.new;
     secondDirectionalLight := Some DirectionalLight.new;
     moonGroup := Some (Object3D.rotateX Object3D.new (5.1 * PI / 180));
     moon := Some (Object3D.position_set Object3D.new 5 0 0);
     moonFaceMark := Some (Mesh.position_set Mesh.new 0 0 0.6) |}.

(** ** animate: the frame loop *)

(** [this.speedControls ? this.speedControls.earthRotationSpeed : 73.05] *)
Definition currentEarthRotationSpeed (app : App) : R :=
  match speedControls app with
  | Some sc => earthRotationSpeed sc
  | None => 73.05
  end.

(** The block [if (this.sun) { ... }] *)
Definition animate_sun (app : App) : App :=
  match sun app with
  | Some sun =>
      let baseSunRotation := 0.05 in
      let earthRotationRatio :=
        match speedControls app with
        | Some sc => earthRotationSpeed sc / 73.05
        | None => 1
        end in
      set_sun app
        (Some (Mesh.set_rotation_y sun
                 (elapsedTime app * baseSunRotation * earthRotationRatio)))
  | None => app
  end.

(** The block [if (this.earth && this.clouds && this.earthGroup) { ... }].
    [multiplyScalar] works in place: after the primary light has been moved,
    [sunToEarth] holds the scaled vector, and that is what the secondary light
    clones. *)
Definition animate_earth (app : App) : App :=
  match earth app, clouds app, earthGroup app with
  | Some earth, Some clouds, Some earthGroup =>
      let earthRotationSpeed := currentEarthRotationSpeed app in
      let earthOrbitSpeed := earthRotationSpeed / 365.25 in
      let earth := Mesh.set_rotation_y earth (elapsedTime app * earthRotationSpeed) in
      let clouds :=
        Mesh.set_rotation_y clouds (elapsedTime app * (earthRotationSpeed * 0.9)) in
      let angle := elapsedTime app * earthOrbitSpeed in
      let earthOrbitRadius := 20 in
      let earthOrbitEccentricity := 0.25 in
      let r := (earthOrbitRadius * (1 - earthOrbitEccentricity * earthOrbitEccentricity))
               / (1 + earthOrbitEccentricity * cos angle) in
      let earthX := - r * cos angle in
      let earthZ := r * sin angle in
      let earthGroup := Object3D.position_set earthGroup earthX 0 earthZ in
      let earthGroup := Object3D.rotation_set earthGroup 0 0 0 in
      let earthGroup := Object3D.rotateZ earthGroup (23.5 * PI / 180) in
      let earthGroup := Object3D.rotateY earthGroup (elapsedTime app * earthOrbitSpeed) in
      let earthAxis :=
        match earthAxis app with
        | Some earthAxis => Some (Mesh.rotation_set earthAxis 0 0 0)
        | None => None
        end in
      let sunToEarth :=
        Vector3.normalize
          (Vector3.subVectors (Object3D.position earthGroup) (Vector3.mk 0 0 0)) in
      let '(sunDirectionalLight, sunToEarth) :=
        match sunDirectionalLight app with
        | Some _ =>
            let position := Object3D.position earthGroup in
            let sunToEarth := Vector3.multiplyScalar sunToEarth 10 in
            let position := Vector3.sub position sunToEarth in
            (Some (DirectionalLight.mk position DirectionalLight.EarthGroupTarget),
             sunToEarth)
        | None => (None, sunToEarth)
        end in
      let secondDirectionalLight :=
        match secondDirectionalLight app with
        | Some _ =>
            let offsetAngle := PI / 12 in
            let offsetVector :=
              Vector3.normalize (Vector3.mk (sin offsetAngle) (cos offsetAngle) 0) in
            let offsetPosition := Object3D.position earthGroup in
            let offsetPosition :=
              Vector3.sub offsetPosition
                (Vector3.add (Vector3.multiplyScalar sunToEarth 8)
                             (Vector3.multiplyScalar offsetVector 2)) in
            Some (DirectionalLight.mk offsetPosition DirectionalLight.EarthGroupTarget)
        | None => None
        end in
      let app := set_earth app (Some earth) in
      let app := set_clouds app (Some clouds) in
      let app := set_earthGroup app (Some earthGroup) in
      let app := set_earthAxis app earthAxis in
      let app := set_sunDirectionalLight app sunDirectionalLight in
      set_secondDirectionalLight app secondDirectionalLight
  | _, _, _ => app
  end.

(** The block [if (this.moon && this.moonGroup) { ... }] *)
Definition animate_moon (app : App) : App :=
  match moon app, moonGroup app with
  | Some moon, Some moonGroup =>
      let earthRotationSpeed := currentEarthRotationSpeed app in
      let earthOrbitSpeed := earthRotationSpeed / 365.25 in
      let moonOrbitSpeed := earthOrbitSpeed * (365.25 / 27.32) in
      let moonGroup := Object3D.rotation_set moonGroup 0 0 0 in
      let moonGroup := Object3D.rotateY moonGroup (elapsedTime app * moonOrbitSpeed) in
      let moonGroup := Object3D.rotateX moonGroup (5.1 * PI / 180) in
      let moonToEarth :=
        Vector3.normalize (Vector3.sub (Vector3.mk 0 0 0) (Object3D.position moon)) in
      let moon := Object3D.rotation_set moon 0 0 0 in
      let quaternion :=
        Quaternion.setFromUnitVectors (Vector3.mk 0 0 1) moonToEarth in
      let moon := Object3D.quaternion_copy moon quaternion in
      let moonFaceMark :=
        match moonFaceMark app with
        | Some moonFaceMark =>
            let moonFaceMark := Mesh.position_set moonFaceMark 0 0 0.6 in
            Some (Mesh.rotation_set moonFaceMark 0 PI 0)
        | None => None
        end in
      let app := set_moonGroup app (Some moonGroup) in
      let app := set_moon app (Some moon) in
      set_moonFaceMark app moonFaceMark
  | _, _ => app
  end.

(** The block [if (this.atmosphere && this.atmosphere.material.uniforms) { ... }] *)
Definition animate_atmosphere (app : App) : App :=
  match atmosphere app with
  | Some _ => set_atmosphere app (Some (mkUniforms 0.8 (Vector3.mk 0 0 0)))
  | None => app
  end.

(** Everything [animate] does after it has read the clock *)
Definition updateScene (app : App) : App :=
  animate_atmosphere (animate_moon (animate_earth (animate_sun app))).

(** [animate()], called when the wall clock shows [now] *)
Definition animate (now : R) (app : App) : App :=
  let '(t, clock) := Clock.getElapsedTime now (clock app) in
  let app := set_clock app clock in
  let app := set_elapsedTime app t in
  updateScene app.

(** ** createGUI: the controllers and their handlers *)

(** [speedFolder.add(this.speedControls, 'earthRotationSpeed', 0, 200, 0.1)] *)
Definition speedRotationControl : NumberController.t :=
  NumberController.mk 0 200 0.1.

(** [atmosphereFolder.add(uniforms.atmosphereIntensity, 'value', 0, 1.5, 0.1)] *)
Definition atmosphereIntensityControl : NumberController.t :=
  NumberController.mk 0 1.5 0.1.

(** [orbitFolder.add(moonOrbitControls, 'moonOrbitInclination', 0, 10, 0.1)] *)
Definition moonOrbitInclinationControl : NumberController.t :=
  NumberController.mk 0 10 0.1.

(** lil-gui's [Controller.setValue] stores a value and calls [onChange] only
    [if (this.getValue() !== value)]: an input that leaves the stored value
    as it is changes nothing and calls no handler. *)

(** The user enters [value] in the Earth rotation speed slider.  There is no
    [onChange], so storing the value that is already there changes nothing. *)
Definition speedRotationControl_input (value : R) (app : App) : App :=
  match speedControls app with
  | Some sc =>
      set_speedControls app
        (Some (mkSpeedControls
                 (NumberController._snapClampSetValue speedRotationControl value)
                 (pauseAnimation sc)))
  | None => app
  end.

(** [resetSpeeds] *)
Definition resetSpeeds (app : App) : App :=
  match speedControls app with
  | Some sc => set_speedControls app (Some (mkSpeedControls 1 (pauseAnimation sc)))
  | None => app
  end.

(** The [onChange] handler of the pause checkbox *)
Definition pauseAnimation_onChange (now : R) (value : bool) (app : App) : App :=
  if value then set_clock app (Clock.stop now (clock app))
  else set_clock app (Clock.start now (clock app)).

(** The user toggles the pause checkbox to [value] when the wall clock shows
    [now]: the value is stored and the handler runs.  A click on a checkbox
    always changes its value, so this is what [setValue] does on a click. *)
Definition pauseAnimation_input (now : R) (value : bool) (app : App) : App :=
  match speedControls app with
  | Some sc =>
      pauseAnimation_onChange now value
        (set_speedControls app (Some (mkSpeedControls (earthRotationSpeed sc) value)))
  | None => app
  end.

(** [setValue(value)] on the pause checkbox, with its guard: a value equal to
    the stored one is not stored again and the handler is not called *)
Definition pauseAnimation_setValue (now : R) (value : bool) (app : App) : App :=
  match speedControls app with
  | Some sc =>
      if Bool.eqb (pauseAnimation sc) value then app
      else pauseAnimation_input now value app
  | None => app
  end.

(** The user enters [value] in the atmosphere intensity slider.  There is no
    [onChange], so storing the value that is already there changes nothing. *)
Definition atmosphereIntensity_input (value : R) (app : App) : App :=
  match atmosphere app with
  | Some u =>
      set_atmosphere app
        (Some (mkUniforms
                 (NumberController._snapClampSetValue atmosphereIntensityControl value)
                 (sunPosition u)))
  | None => app
  end.

(** The [onChange] handler of the Moon orbit inclination slider *)
Definition moonOrbitInclination_onChange (value : R) (app : App) : App :=
  match moonGroup app with
  | Some moonGroup =>
      let moonGroup := Object3D.rotation_set moonGroup 0 0 0 in
      let earthOrbitSpeed := 0.2 in
      let moonOrbitSpeed := earthOrbitSpeed * (365.25 / 27.32) in
      let moonGroup := Object3D.rotateY moonGroup (elapsedTime app * moonOrbitSpeed) in
      let moonGroup := Object3D.rotateX moonGroup (value * PI / 180) in
      set_moonGroup app (Some moonGroup)
  | None => app
  end.

(** The user enters [value] in the Moon orbit inclination slider.  The
    snapped and clamped value goes to [setValue], which stores it and calls
    the handler unless it is the value already stored. *)
Definition moonOrbitInclination_input (value : R) (app : App) : App :=
  match moonOrbitControls app with
  | Some mc =>
      let value :=
        NumberController._snapClampSetValue moonOrbitInclinationControl value in
      if Req_dec_T (moonOrbitInclination mc) value then app
      else
        moonOrbitInclination_onChange value
          (set_moonOrbitControls app (Some (mkMoonOrbitControls value)))
  | None => app
  end.

(** ** The states the application goes through *)

Inductive Event : Type :=
| Frame (now : R)
| SpeedInput (value : R)
| ResetSpeeds
| PauseInput (now : R) (value : bool)
| AtmosphereInput (value : R)
| InclinationInput (value : R).

Definition step (app : App) (e : Event) : App :=
  match e with
  | Frame now => animate now app
  | SpeedInput value => speedRotationControl_input value app
  | ResetSpeeds => resetSpeeds app
  | PauseInput now value => pauseAnimation_setValue now value app
  | AtmosphereInput value => atmosphereIntensity_input value app
  | InclinationInput value => moonOrbitInclination_input value app
  end.

Inductive Reachable : App -> Prop :=
| Reachable_constructed : Reachable constructed
| Reachable_step : forall app e, Reachable app -> Reachable (step app e).

(** ** The scene graph

    [scene > eclipticGroup > earthGroup > moonGroup > moon]; [scene] and
    [eclipticGroup] are never moved, and no object is scaled.  The local
    matrix of an object is [compose(position, quaternion, (1, 1, 1))]. *)

(** The local matrix of [o] applied to a point of its frame *)
Definition toParent (o : Object3D.t) (v : Vector3.t) : Vector3.t :=
  Vector3.add (Quaternion.applyQuaternion v (Object3D.quaternion o))
              (Object3D.position o).

(** The local matrix of [o] applied to a direction of its frame *)
Definition directionToParent (o : Object3D.t) (v : Vector3.t) : Vector3.t :=
  Quaternion.applyQuaternion v (Object3D.quaternion o).

(** World position of the Earth: the origin of [earthGroup] *)
Definition earthWorldPosition (earthGroup : Object3D.t) : Vector3.t :=
  Object3D.position earthGroup.

(** World position of the Moon *)
Definition moonWorldPosition (earthGroup moonGroup moon : Object3D.t) : Vector3.t :=
  toParent earthGroup (toParent moonGroup (Object3D.position moon)).

(** World direction of an axis [v] of the Moon's own frame *)
Definition moonWorldDirection (earthGroup moonGroup moon : Object3D.t)
  (v : Vector3.t) : Vector3.t :=
  directionToParent earthGroup (directionToParent moonGroup (directionToParent moon v)).

(** The direction a light shines in, given the world position of its target *)
Definition lightDirection (l : DirectionalLight.t) (targetPosition : Vector3.t)
  : Vector3.t :=
  Vector3.sub targetPosition (DirectionalLight.position l).

(** ** Notions the statements use *)

(** [theta] is the angle between the non-zero vectors [a] and [b] *)
Definition angleBetween (a b : Vector3.t) (theta : R) : Prop :=
  0 <= theta <= PI /\
  Vector3.dot a b = Vector3.length a * Vector3.length b * cos theta.

(** Two quaternions turn every vector the same way *)
Definition sameRotation (p q : Quaternion.t) : Prop :=
  forall v, Quaternion.applyQuaternion v p = Quaternion.applyQuaternion v q.

(** A quaternion of unit length *)
Definition unit (q : Quaternion.t) : Prop :=
  Quaternion.x q * Quaternion.x q + Quaternion.y q * Quaternion.y q
  + Quaternion.z q * Quaternion.z q + Quaternion.w q * Quaternion.w q = 1.

(** What a frame hands to the renderer: every transform [animate] writes *)
Record Transforms : Type := mkTransforms {
  t_sun : option Mesh.t;
  t_earthGroup : option Object3D.t;
  t_earth : option Mesh.t;
  t_clouds : option Mesh.t;
  t_earthAxis : option Mesh.t;
  t_sunDirectionalLight : option DirectionalLight.t;
  t_secondDirectionalLight : option DirectionalLight.t;
  t_moonGroup : option Object3D.t;
  t_moon : option Object3D.t;
  t_moonFaceMark : option Mesh.t
}.

Definition transforms (app : App) : Transforms :=
  mkTransforms (sun app) (earthGroup app) (earth app) (clouds app) (earthAxis app)
    (sunDirectionalLight app) (secondDirectionalLight app) (moonGroup app)
    (moon app) (moonFaceMark app).

(** The objects a constructed scene never loses, with the fields no code
    writes after construction at their constructed values *)
Definition wellFormed (app : App) : Prop :=
  (exists sc, speedControls app = Some sc) /\
  (exists mc, moonOrbitControls app = Some mc) /\
  (exists y, sun app = Some (Mesh.mk Vector3.zero (Euler.mk 0 y 0))) /\
  (exists y, earth app = Some (Mesh.mk Vector3.zero (Euler.mk 0 y 0))) /\
  (exists y, clouds app = Some (Mesh.mk Vector3.zero (Euler.mk 0 y 0))) /\
  (exists g, earthGroup app = Some g) /\
  (exists m, earthAxis app = Some m /\ Mesh.position m = Vector3.zero) /\
  (exists u, atmosphere app = Some u) /\
  (exists l, sunDirectionalLight app = Some l) /\
  (exists l, secondDirectionalLight app = Some l) /\
  (exists g, moonGroup app = Some g /\ Object3D.position g = Vector3.zero) /\
  (exists m, moon app = Some m /\ Object3D.position m = Vector3.mk 5 0 0) /\
  (exists m, moonFaceMark app = Some m).

(** ** createSun, createEarth, createMoon: further constants

    The radii are the first arguments of the [SphereGeometry] of each body. *)

Definition sunRadius : R := 5.
Definition earthRadius : R := 2.
Definition moonRadius : R := 0.5.

(** [earthOrbitSemiMinorAxis] and [sunOffset] of [createEarth] *)
Definition earthOrbitSemiMinorAxis : R :=
  earthOrbitRadius * sqrt (1 - earthOrbitEccentricity * earthOrbitEccentricity).

Definition sunOffset : R := earthOrbitRadius * earthOrbitEccentricity.

(** The body of the loop [for (let i = 0; i <= 360; i++)] of [createEarth]:
    the point it pushes at step [i] *)
Definition orbitPoint (i : nat) : Vector3.t :=
  let angle := INR i * PI / 180 in
  let r := (earthOrbitRadius * (1 - earthOrbitEccentricity * earthOrbitEccentricity))
           / (1 + earthOrbitEccentricity * cos angle) in
  let x := - r * cos angle in
  let z := r * sin angle in
  Vector3.mk x 0 z.

(** [orbitPoints] once the loop has run *)
Definition orbitPoints : list Vector3.t := List.map orbitPoint (List.seq 0 361).

(** [winterSolsticePosition] and [summerSolsticePosition] of [createEarth],
    where the two solstice markers are placed *)
Definition winterSolsticePosition : Vector3.t :=
  calcOrbitPoint earthOrbitRadius earthOrbitEccentricity winterSolsticeAngle.

Definition summerSolsticePosition : Vector3.t :=
  calcOrbitPoint earthOrbitRadius earthOrbitEccentricity summerSolsticeAngle.

(** The unit vector from the Earth to the Sun, which [createSun] leaves at
    the origin *)
Definition earthToSun (earthGroup : Object3D.t) : Vector3.t :=
  Vector3.normalize
    (Vector3.sub (Vector3.mk 0 0 0) (earthWorldPosition earthGroup)).

(** World orientation of the Earth mesh: the quaternion of [earthGroup] times
    the mesh's own *)
Definition earthWorldQuaternion (earthGroup : Object3D.t) (earth : Mesh.t)
  : Quaternion.t :=
  Quaternion.multiply (Object3D.quaternion earthGroup) (Mesh.quaternion earth).

(** ** createEarth: the Beijing marker

    [createBeijingMarker] sets the marker at latitude 39.9 and longitude
    116.3 degrees on a sphere of radius 2.05; [this.earth.add] makes it a
    child of the Earth mesh. *)

Definition beijingMarker_position : Vector3.t :=
  let latitude := 39.9 * (PI / 180) in
  let longitude := 116.3 * (PI / 180) in
  let radius := 2.05 in
  let x := radius * cos latitude * cos longitude in
  let y := radius * sin latitude in
  let z := radius * cos latitude * sin longitude in
  Vector3.mk x y z.

(** World position of a point [v] of the frame of the Earth mesh, a child of
    [earthGroup] *)
Definition earthPointWorldPosition (earthGroup : Object3D.t) (earth : Mesh.t)
  (v : Vector3.t) : Vector3.t :=
  toParent earthGroup
    (Vector3.add (Quaternion.applyQuaternion v (Mesh.quaternion earth))
                 (Mesh.position earth)).

(** ** animate: the line from the Moon's centre to its face mark

    Inside the moon block, [if (this.moonFaceLine)] removes the line and
    builds a new one from the origin to [this.moonFaceMark.position].  A new
    [THREE.Line] is visible.  Reading [position] of a missing [moonFaceMark]
    throws; that is [Thrown]. *)

Record Line : Type := mkLine {
  points : list Vector3.t;
  color : Z;
  visible : bool
}.

Inductive Completion (A : Type) : Type :=
| Returned (a : A)
| Thrown.

Arguments Returned {A} a.
Arguments Thrown {A}.

Definition animate_moonFaceLine (app : App) (moonFaceLine : option Line)
  : Completion (option Line) :=
  match moon app, moonGroup app with
  | Some _, Some _ =>
      match moonFaceLine with
      | Some _ =>
          match moonFaceMark (animate_moon app) with
          | Some moonFaceMark =>
              Returned
                (Some (mkLine (cons (Vector3.mk 0 0 0)
                                 (cons (Mesh.position moonFaceMark) nil))
                         0xff00ff true))
          | None => Thrown
          end
      | None => Returned None
      end
  | _, _ => Returned moonFaceLine
  end.

(** The [onChange] handler of the [showMoonFaceLine] checkbox *)
Definition showMoonFaceLine_onChange (value : bool) (moonFaceLine : option Line)
  : option Line :=
  match moonFaceLine with
  | Some l => Some (mkLine (points l) (color l) value)
  | None => None
  end.

(** ** addEventListeners *)

(** [this.sizes] *)
Record Sizes : Type := mkSizes { width : R; height : R }.

Module Vector2.

Record t : Type := mk { x : R; y : R }.

End Vector2.

(** The [mousemove] listener: the new [this.mouse] *)
Definition mousemove (sizes : Sizes) (clientX clientY : R) : Vector2.t :=
  Vector2.mk ((clientX / width sizes) * 2 - 1)
             (- (clientY / height sizes) * 2 + 1).

(** The object the raycaster reports first, among
    [[this.earth, this.moon, this.sun]] *)
Inductive Clicked : Type := ClickedEarth | ClickedMoon | ClickedSun.

(** [object.position], the position of the clicked object in its parent *)
Definition clickedPosition (app : App) (object : Clicked) : option Vector3.t :=
  match object with
  | ClickedEarth => option_map Mesh.position (earth app)
  | ClickedMoon => option_map Object3D.position (moon app)
  | ClickedSun => option_map Mesh.position (sun app)
  end.

(** The [click] listener: where [gsap] sends the camera *)
Definition cameraTarget (position : Vector3.t) : Vector3.t :=
  Vector3.mk (Vector3.x position * 1.5) (Vector3.y position + 3)
             (Vector3.z position + 8).

Definition click (app : App) (object : Clicked) : option Vector3.t :=
  option_map cameraTarget (clickedPosition app object).

(** ** updateInfoPanel *)

(** [planetNameEl.textContent] and [planetInfoEl.innerHTML] *)
Record InfoPanel : Type := mkInfoPanel {
  planetName : String.string;
  planetInfo : String.string
}.

Definition updateInfoPanel (objectName : String.string) (panel : InfoPanel)
  : InfoPanel :=
  if String.eqb objectName "sun"%string then
    mkInfoPanel "太阳"%string
      "直径: 1,392,684 km<br>质量: 1.989 × 10^30 kg<br>表面温度: 5,500°C"%string
  else if String.eqb objectName "earth"%string then
    mkInfoPanel "地球"%string
      "直径: 12,742 km<br>质量: 5.972 × 10^24 kg<br>公转周期: 365.25天<br>自转周期: 24小时"%string
  else if String.eqb objectName "moon"%string then
    mkInfoPanel "月球"%string
      "直径: 3,474 km<br>质量: 7.342 × 10^22 kg<br>公转周期: 27.3天<br>距地球: 384,400 km"%string
  else panel.

(** [object.name] of the three bodies a click can hit *)
Definition clickedName (object : Clicked) : String.string :=
  match object with
  | ClickedEarth => "earth"%string
  | ClickedMoon => "moon"%string
  | ClickedSun => "sun"%string
  end.

(** ** The atmosphere shaders

    GLSL floats are modelled as reals and [vec3] as [Vector3.t].  The alpha
    channel of the fragment shader ([fresnel], a [pow] with a fractional
    exponent) is left out; the colour is modelled whole. *)

Module GLSL.

(** [max(x, y)] *)
Definition max (x y : R) : R := if Rlt_dec x y then y else x.

(** [min(x, y)] *)
Definition min (x y : R) : R := if Rlt_dec y x then y else x.

(** [clamp(x, minVal, maxVal)] is [min(max(x, minVal), maxVal)] *)
Definition clamp (x minVal maxVal : R) : R := min (max x minVal) maxVal.

(** [mix(a, b, t)] is [a * (1 - t) + b * t] *)
Definition mix (a b : Vector3.t) (t : R) : Vector3.t :=
  Vector3.add (Vector3.multiplyScalar a (1 - t)) (Vector3.multiplyScalar b t).

(** [smoothstep(edge0, edge1, x)] *)
Definition smoothstep (edge0 edge1 x : R) : R :=
  let t := clamp ((x - edge0) / (edge1 - edge0)) 0 1 in
  t * t * (3 - 2 * t).

End GLSL.

(** Vertex shader: [vSunIntensity = max(0.0, dot(worldNormal, sunDir))] *)
Definition vSunIntensity (worldNormal sunDir : Vector3.t) : R :=
  GLSL.max 0 (Vector3.dot worldNormal sunDir).

(** Fragment shader: [rayleighScattering] *)
Definition rayleighScattering (cosTheta : R) : Vector3.t :=
  let beta := Vector3.mk 5.8e-6 13.5e-6 33.1e-6 in
  Vector3.multiplyScalar beta (0.75 * (1 + cosTheta * cosTheta)).

(** Fragment shader: [dayColor], [nightColor], [atmosphereColor] and
    [finalColor] of [main] *)
Definition dayColor (vSunIntensity : R) : Vector3.t :=
  GLSL.mix (Vector3.mk 0.3 0.6 1) (Vector3.mk 0.2 0.5 1) (1 - vSunIntensity).

Definition nightColor (vSunIntensity : R) : Vector3.t :=
  GLSL.mix (Vector3.mk 0.1 0.1 0.2) (Vector3.mk 0.05 0.05 0.1) (1 - vSunIntensity).

Definition atmosphereColor (vSunIntensity : R) : Vector3.t :=
  GLSL.mix (nightColor vSunIntensity) (dayColor vSunIntensity)
    (GLSL.smoothstep 0 0.3 vSunIntensity).

Definition finalColor (cosTheta vSunIntensity : R) : Vector3.t :=
  Vector3.add (atmosphereColor vSunIntensity)
    (Vector3.multiplyScalar
       (Vector3.multiplyScalar (rayleighScattering cosTheta) vSunIntensity) 10).

(** ** Runs of events *)

(** The state after a list of events, first to last *)
Definition steps (app : App) (events : list Event) : App :=
  List.fold_left step events app.

(** The pause checkbox being cleared *)
Definition isResume (e : Event) : bool :=
  match e with
  | PauseInput _ false => true
  | _ => false
  end.

(** * Properties *)

(** ** The orbit model *)

Section Orbit.

Variables a e : R.
Hypothesis a_pos : 0 < a.
Hypothesis e_range : 0 <= e < 1.

(** The denominator of the polar equation never vanishes *)
Lemma orbit_denominator_pos (theta : R) : 0 < 1 + e * cos theta.
Proof.
  pose proof (COS_bound theta) as [Hlo Hhi].
  nra.
Qed.

(** The polar radius is positive *)
Lemma orbit_radius_pos (theta : R) :
  0 < a * (1 - e * e) / (1 + e * cos theta).
Proof.
  apply Rdiv_lt_0_compat.
  - apply Rmult_lt_0_compat; [lra | nra].
  - apply orbit_denominator_pos.
Qed.

(** The distance of the orbit point from the focus is the polar radius *)
Lemma calcOrbitPoint_length (theta : R) :
  Vector3.length (calcOrbitPoint a e theta)
  = a * (1 - e * e) / (1 + e * cos theta).
Proof.
  pose proof (orbit_radius_pos theta) as Hr.
  unfold calcOrbitPoint, Vector3.length; cbn [Vector3.x Vector3.y Vector3.z].
  set (r := a * (1 - e * e) / (1 + e * cos theta)) in *.
  apply sqrt_lem_1.
  - nra.
  - lra.
  - pose proof (sin2_cos2 theta) as H; unfold Rsqr in H. nra.
Qed.

End Orbit.

(** ** Reading a frame *)

(** Reduces the field reads and field writes of a state *)
Ltac app_simpl :=
  cbn [set_clock set_elapsedTime set_speedControls set_moonOrbitControls set_sun
       set_earthGroup set_earth set_clouds set_earthAxis set_atmosphere
       set_sunDirectionalLight set_secondDirectionalLight set_moonGroup set_moon
       set_moonFaceMark
       clock elapsedTime speedControls moonOrbitControls sun earthGroup earth
       clouds earthAxis atmosphere sunDirectionalLight secondDirectionalLight
       moonGroup moon moonFaceMark] in *.

(** Each block of the frame writes its own fields and nothing else *)

Lemma animate_sun_writes (app : App) :
  animate_sun app = set_sun app (sun (animate_sun app)).
Proof.
  unfold animate_sun. destruct app as [ck t sc mc [sn|] eg ea cl ax atm l1 l2 mg mn mf];
    reflexivity.
Qed.

Lemma animate_earth_writes (app : App) :
  animate_earth app
  = set_secondDirectionalLight
      (set_sunDirectionalLight
         (set_earthAxis
            (set_earthGroup
               (set_clouds
                  (set_earth app (earth (animate_earth app)))
                  (clouds (animate_earth app)))
               (earthGroup (animate_earth app)))
            (earthAxis (animate_earth app)))
         (sunDirectionalLight (animate_earth app)))
      (secondDirectionalLight (animate_earth app)).
Proof.
  unfold animate_earth.
  destruct app as [ck t sc mc sn [eg|] [ea|] [cl|] ax atm [l1|] l2 mg mn mf];
    reflexivity.
Qed.

Lemma animate_moon_writes (app : App) :
  animate_moon app
  = set_moonFaceMark
      (set_moon
         (set_moonGroup app (moonGroup (animate_moon app)))
         (moon (animate_moon app)))
      (moonFaceMark (animate_moon app)).
Proof.
  unfold animate_moon.
  destruct app as [ck t sc mc sn eg ea cl ax atm l1 l2 [mg|] [mn|] mf];
    reflexivity.
Qed.

Lemma animate_atmosphere_writes (app : App) :
  animate_atmosphere app = set_atmosphere app (atmosphere (animate_atmosphere app)).
Proof.
  unfold animate_atmosphere.
  destruct app as [ck t sc mc sn eg ea cl ax [atm|] l1 l2 mg mn mf]; reflexivity.
Qed.

(** Reads a field of the scene update through the blocks that leave it alone *)
Ltac through_blocks :=
  unfold updateScene;
  repeat first
    [ rewrite animate_atmosphere_writes; app_simpl
    | rewrite animate_moon_writes; app_simpl
    | rewrite animate_earth_writes; app_simpl
    | rewrite animate_sun_writes; app_simpl ].

(** A frame is the scene update run at the time the clock returns *)
Lemma animate_updateScene (now : R) (app : App) :
  animate now app
  = updateScene
      (set_elapsedTime (set_clock app (Clock.getDelta now (clock app)))
         (Clock.elapsedTime (Clock.getDelta now (clock app)))).
Proof. reflexivity. Qed.

(** The scene update reads the elapsed time and the speed, and leaves them *)
Lemma updateScene_elapsedTime (app : App) :
  elapsedTime (updateScene app) = elapsedTime app.
Proof. through_blocks. reflexivity. Qed.

Lemma updateScene_speedControls (app : App) :
  speedControls (updateScene app) = speedControls app.
Proof. through_blocks. reflexivity. Qed.

Lemma updateScene_clock (app : App) :
  clock (updateScene app) = clock app.
Proof. through_blocks. reflexivity. Qed.

Lemma animate_elapsedTime (now : R) (app : App) :
  elapsedTime (animate now app)
  = Clock.elapsedTime (Clock.getDelta now (clock app)).
Proof. rewrite animate_updateScene, updateScene_elapsedTime. reflexivity. Qed.

Lemma animate_speedControls (now : R) (app : App) :
  speedControls (animate now app) = speedControls app.
Proof. rewrite animate_updateScene, updateScene_speedControls. reflexivity. Qed.

Lemma animate_clock (now : R) (app : App) :
  clock (animate now app) = Clock.getDelta now (clock app).
Proof. rewrite animate_updateScene, updateScene_clock. reflexivity. Qed.

(** The sun block leaves alone what the later blocks read *)
Lemma animate_sun_reads (app : App) :
  elapsedTime (animate_sun app) = elapsedTime app
  /\ speedControls (animate_sun app) = speedControls app
  /\ earth (animate_sun app) = earth app
  /\ clouds (animate_sun app) = clouds app
  /\ earthGroup (animate_sun app) = earthGroup app
  /\ earthAxis (animate_sun app) = earthAxis app
  /\ sunDirectionalLight (animate_sun app) = sunDirectionalLight app
  /\ secondDirectionalLight (animate_sun app) = secondDirectionalLight app
  /\ moon (animate_sun app) = moon app
  /\ moonGroup (animate_sun app) = moonGroup app
  /\ moonFaceMark (animate_sun app) = moonFaceMark app
  /\ atmosphere (animate_sun app) = atmosphere app.
Proof. rewrite animate_sun_writes. repeat split. Qed.

(** The earth block leaves alone what the later blocks read *)
Lemma animate_earth_reads (app : App) :
  elapsedTime (animate_earth app) = elapsedTime app
  /\ speedControls (animate_earth app) = speedControls app
  /\ sun (animate_earth app) = sun app
  /\ moon (animate_earth app) = moon app
  /\ moonGroup (animate_earth app) = moonGroup app
  /\ moonFaceMark (animate_earth app) = moonFaceMark app
  /\ atmosphere (animate_earth app) = atmosphere app.
Proof. rewrite animate_earth_writes. repeat split. Qed.

Lemma currentEarthRotationSpeed_ext (a b : App) :
  speedControls a = speedControls b ->
  currentEarthRotationSpeed a = currentEarthRotationSpeed b.
Proof. unfold currentEarthRotationSpeed. intros ->. reflexivity. Qed.

(** Where the earth block puts the Earth: on the orbit, tilted, turned by the
    orbital angle *)
Lemma animate_earth_earthGroup (app : App) (e0 c0 : Mesh.t) (g0 : Object3D.t) :
  earth app = Some e0 -> clouds app = Some c0 -> earthGroup app = Some g0 ->
  earthGroup (animate_earth app)
  = Some (Object3D.mk
            (calcOrbitPoint earthOrbitRadius earthOrbitEccentricity
               (elapsedTime app * (currentEarthRotationSpeed app / 365.25)))
            (Quaternion.multiply
               (Quaternion.multiply
                  (Quaternion.setFromEuler (Euler.mk 0 0 0))
                  (Quaternion.setFromAxisAngle (Vector3.mk 0 0 1) (23.5 * PI / 180)))
               (Quaternion.setFromAxisAngle (Vector3.mk 0 1 0)
                  (elapsedTime app * (currentEarthRotationSpeed app / 365.25))))).
Proof.
  intros H1 H2 H3. unfold animate_earth. rewrite H1, H2, H3.
  destruct (sunDirectionalLight app); reflexivity.
Qed.

(** The spin the earth block gives the Earth and its clouds *)
Lemma animate_earth_spin (app : App) (e0 c0 : Mesh.t) (g0 : Object3D.t) :
  earth app = Some e0 -> clouds app = Some c0 -> earthGroup app = Some g0 ->
  earth (animate_earth app)
  = Some (Mesh.set_rotation_y e0 (elapsedTime app * currentEarthRotationSpeed app))
  /\ clouds (animate_earth app)
     = Some (Mesh.set_rotation_y c0
               (elapsedTime app * (currentEarthRotationSpeed app * 0.9))).
Proof.
  intros H1 H2 H3. unfold animate_earth. rewrite H1, H2, H3.
  destruct (sunDirectionalLight app); split; reflexivity.
Qed.

(** The same two facts for the whole scene update *)
Lemma updateScene_earthGroup (app : App) (e0 c0 : Mesh.t) (g0 : Object3D.t) :
  earth app = Some e0 -> clouds app = Some c0 -> earthGroup app = Some g0 ->
  earthGroup (updateScene app)
  = Some (Object3D.mk
            (calcOrbitPoint earthOrbitRadius earthOrbitEccentricity
               (elapsedTime app * (currentEarthRotationSpeed app / 365.25)))
            (Quaternion.multiply
               (Quaternion.multiply
                  (Quaternion.setFromEuler (Euler.mk 0 0 0))
                  (Quaternion.setFromAxisAngle (Vector3.mk 0 0 1) (23.5 * PI / 180)))
               (Quaternion.setFromAxisAngle (Vector3.mk 0 1 0)
                  (elapsedTime app * (currentEarthRotationSpeed app / 365.25))))).
Proof.
  intros H1 H2 H3.
  destruct (animate_sun_reads app) as (Ht & Hs & He & Hc & Hg & _).
  unfold updateScene.
  rewrite animate_atmosphere_writes; app_simpl.
  rewrite animate_moon_writes; app_simpl.
  rewrite (animate_earth_earthGroup (animate_sun app) e0 c0 g0) by congruence.
  rewrite Ht, (currentEarthRotationSpeed_ext _ _ Hs). reflexivity.
Qed.

Lemma updateScene_spin (app : App) (e0 c0 : Mesh.t) (g0 : Object3D.t) :
  earth app = Some e0 -> clouds app = Some c0 -> earthGroup app = Some g0 ->
  earth (updateScene app)
  = Some (Mesh.set_rotation_y e0 (elapsedTime app * currentEarthRotationSpeed app))
  /\ clouds (updateScene app)
     = Some (Mesh.set_rotation_y c0
               (elapsedTime app * (currentEarthRotationSpeed app * 0.9))).
Proof.
  intros H1 H2 H3.
  destruct (animate_sun_reads app) as (Ht & Hs & He & Hc & Hg & _).
  unfold updateScene.
  rewrite animate_atmosphere_writes; app_simpl.
  rewrite animate_moon_writes; app_simpl.
  destruct (animate_earth_spin (animate_sun app) e0 c0 g0) as [E1 E2];
    try congruence.
  rewrite E1, E2, Ht, (currentEarthRotationSpeed_ext _ _ Hs). split; reflexivity.
Qed.

(** ** C1: the orbit point *)

(** C1. For every angle and every orbit with semi-major axis [a > 0] and
    eccentricity [0 <= e < 1], [calcOrbitPoint] returns the focus-relative
    point [(- r cos theta, 0, r sin theta)] with
    [r = a (1 - e^2) / (1 + e cos theta)], and its distance from the focus is
    [r].  Each frame puts the Earth at that point of the orbit
    [a = 20], [e = 0.25], at the angle elapsed time times orbital rate. *)
Theorem orbit_position_polar (a e theta : R) (now : R) (app : App)
  (e0 c0 : Mesh.t) (g0 : Object3D.t) :
  0 < a -> 0 <= e < 1 ->
  earth app = Some e0 -> clouds app = Some c0 -> earthGroup app = Some g0 ->
  let r := a * (1 - e * e) / (1 + e * cos theta) in
  calcOrbitPoint a e theta = Vector3.mk (- (r * cos theta)) 0 (r * sin theta)
  /\ Vector3.length (calcOrbitPoint a e theta) = r
  /\ option_map Object3D.position (earthGroup (animate now app))
     = Some (calcOrbitPoint 20 0.25
               (elapsedTime (animate now app)
                * (currentEarthRotationSpeed app / 365.25))).
Proof.
  intros Ha He H1 H2 H3 r. split; [|split].
  - unfold calcOrbitPoint. fold r. f_equal. ring.
  - apply calcOrbitPoint_length; assumption.
  - rewrite animate_elapsedTime, animate_updateScene.
    rewrite (updateScene_earthGroup _ e0 c0 g0) by assumption.
    reflexivity.
Qed.

(** The statement above at [a = 20], [e = 0.25], [theta = 0], on the first
    frame of the constructed scene *)
Lemma orbit_position_polar_witness :
  (0 < 20 /\ 0 <= 0.25 < 1
   /\ earth constructed = Some Mesh.new /\ clouds constructed = Some Mesh.new
   /\ earthGroup constructed = Some Object3D.new)
  /\ (calcOrbitPoint 20 0.25 0
      = Vector3.mk (- (20 * (1 - 0.25 * 0.25) / (1 + 0.25 * cos 0) * cos 0)) 0
          (20 * (1 - 0.25 * 0.25) / (1 + 0.25 * cos 0) * sin 0)
      /\ Vector3.length (calcOrbitPoint 20 0.25 0)
         = 20 * (1 - 0.25 * 0.25) / (1 + 0.25 * cos 0)
      /\ option_map Object3D.position (earthGroup (animate 0 constructed))
         = Some (calcOrbitPoint 20 0.25
                   (elapsedTime (animate 0 constructed)
                    * (currentEarthRotationSpeed constructed / 365.25)))).
Proof.
  split.
  - repeat split; try reflexivity; lra.
  - apply (orbit_position_polar 20 0.25 0 0 constructed
             Mesh.new Mesh.new Object3D.new);
      [lra | lra | reflexivity | reflexivity | reflexivity].
Defined.

(** ** C3: spin and revolution *)

(** C3. Whatever the speed slider holds and whatever the elapsed time, a frame
    turns the Earth about its axis by elapsed time times the slider value and
    moves it along the orbit by elapsed time times the slider value divided by
    365.25: the orbital rate times 365.25 is the spin rate. *)
Theorem spin_orbit_ratio (now : R) (app : App)
  (e0 c0 : Mesh.t) (g0 : Object3D.t) :
  earth app = Some e0 -> clouds app = Some c0 -> earthGroup app = Some g0 ->
  let app' := animate now app in
  let t := elapsedTime app' in
  let spinAngularRate := currentEarthRotationSpeed app in
  let orbitAngularRate := currentEarthRotationSpeed app / 365.25 in
  option_map (fun m => Euler.y (Mesh.rotation m)) (earth app')
  = Some (t * spinAngularRate)
  /\ earthGroup app'
     = Some (Object3D.mk
               (calcOrbitPoint earthOrbitRadius earthOrbitEccentricity
                  (t * orbitAngularRate))
               (Quaternion.multiply
                  (Quaternion.multiply
                     (Quaternion.setFromEuler (Euler.mk 0 0 0))
                     (Quaternion.setFromAxisAngle (Vector3.mk 0 0 1)
                        (23.5 * PI / 180)))
                  (Quaternion.setFromAxisAngle (Vector3.mk 0 1 0)
                     (t * orbitAngularRate))))
  /\ orbitAngularRate * 365.25 = spinAngularRate
  /\ (t * orbitAngularRate) * 365.25 = t * spinAngularRate
  /\ (forall sc, speedControls app = Some sc ->
      spinAngularRate = earthRotationSpeed sc).
Proof.
  intros H1 H2 H3 app' t spin orbit.
  subst app' t. rewrite animate_elapsedTime, animate_updateScene.
  set (app1 := set_elapsedTime _ _).
  assert (Hs : currentEarthRotationSpeed app1 = spin) by reflexivity.
  assert (Ht : elapsedTime app1
               = Clock.elapsedTime (Clock.getDelta now (clock app)))
    by reflexivity.
  destruct (updateScene_spin app1 e0 c0 g0) as [E1 _]; try assumption.
  rewrite E1, (updateScene_earthGroup app1 e0 c0 g0) by assumption.
  rewrite Hs, Ht. fold orbit.
  split; [|split; [|split; [|split]]].
  - cbn [option_map Mesh.set_rotation_y Mesh.rotation Euler.set_y Euler.y].
    reflexivity.
  - reflexivity.
  - subst orbit spin. lra.
  - subst orbit spin. lra.
  - intros sc Hsc. subst spin. unfold currentEarthRotationSpeed.
    rewrite Hsc. reflexivity.
Qed.

(** The statement above on the first frame of the constructed scene *)
Lemma spin_orbit_ratio_witness :
  (earth constructed = Some Mesh.new /\ clouds constructed = Some Mesh.new
   /\ earthGroup constructed = Some Object3D.new)
  /\ currentEarthRotationSpeed constructed / 365.25 * 365.25
     = currentEarthRotationSpeed constructed.
Proof.
  split.
  - repeat split.
  - exact (proj1 (proj2 (proj2
      (spin_orbit_ratio 0 constructed Mesh.new Mesh.new Object3D.new
         eq_refl eq_refl eq_refl)))).
Defined.

(** ** C6: perihelion, aphelion and the first frame *)

(** The clock of a constructed scene starts on the first frame, at zero *)
Lemma first_frame_elapsedTime (now : R) :
  elapsedTime (animate now constructed) = 0.
Proof. rewrite animate_elapsedTime. reflexivity. Qed.

(** C6. With [a = 20] and [e = 0.25] the orbit point at angle 0 is at
    distance 15 from the focus and the one at angle [PI] at distance 25; they
    are the perihelion and aphelion markers, [(-15, 0, 0)] and [(25, 0, 0)].
    On the first frame, with the default parameters, the elapsed time and the
    orbital angle are 0 and the Earth is at [(-15, 0, 0)], on the -x axis. *)
Theorem perihelion_aphelion_first_frame :
  Vector3.length (calcOrbitPoint earthOrbitRadius earthOrbitEccentricity 0) = 15
  /\ Vector3.length (calcOrbitPoint earthOrbitRadius earthOrbitEccentricity PI) = 25
  /\ calcOrbitPoint earthOrbitRadius earthOrbitEccentricity 0 = perihelionPosition
  /\ perihelionPosition = Vector3.mk (-15) 0 0
  /\ calcOrbitPoint earthOrbitRadius earthOrbitEccentricity PI = aphelionPosition
  /\ aphelionPosition = Vector3.mk 25 0 0
  /\ forall now,
       let app := animate now constructed in
       elapsedTime app = 0
       /\ elapsedTime app * (currentEarthRotationSpeed constructed / 365.25) = 0
       /\ option_map Object3D.position (earthGroup app)
          = Some (Vector3.mk (-15) 0 0).
Proof.
  unfold earthOrbitRadius, earthOrbitEccentricity.
  assert (P0 : calcOrbitPoint 20 0.25 0 = Vector3.mk (-15) 0 0).
  { unfold calcOrbitPoint. rewrite cos_0, sin_0. f_equal; lra. }
  assert (P1 : calcOrbitPoint 20 0.25 PI = Vector3.mk 25 0 0).
  { unfold calcOrbitPoint. rewrite cos_PI, sin_PI. f_equal; lra. }
  split; [|split; [|split; [|split; [|split; [|split]]]]].
  - rewrite calcOrbitPoint_length by lra. rewrite cos_0. lra.
  - rewrite calcOrbitPoint_length by lra. rewrite cos_PI. lra.
  - rewrite P0. unfold perihelionPosition, earthOrbitRadius, earthOrbitEccentricity.
    f_equal; lra.
  - unfold perihelionPosition, earthOrbitRadius, earthOrbitEccentricity.
    f_equal; lra.
  - rewrite P1. unfold aphelionPosition, earthOrbitRadius, earthOrbitEccentricity.
    f_equal; lra.
  - unfold aphelionPosition, earthOrbitRadius, earthOrbitEccentricity.
    f_equal; lra.
  - intros now. split; [|split].
    + apply first_frame_elapsedTime.
    + rewrite first_frame_elapsedTime. lra.
    + rewrite animate_updateScene.
      rewrite (updateScene_earthGroup _ Mesh.new Mesh.new Object3D.new)
        by reflexivity.
      cbn [option_map Object3D.position].
      replace (elapsedTime _) with 0 by reflexivity.
      rewrite Rmult_0_l. exact (f_equal Some P0).
Qed.

(** ** C4: the clock, pause and resume *)

(** A stopped clock no longer advances: reading it changes nothing *)
Lemma stopped_clock_frozen (now now' : R) (c : Clock.t) :
  Clock.getDelta now' (Clock.stop now c) = Clock.stop now c.
Proof. reflexivity. Qed.

(** Stopping a stopped clock changes nothing *)
Lemma stop_idempotent (now now' : R) (c : Clock.t) :
  Clock.stop now' (Clock.stop now c) = Clock.stop now c.
Proof. reflexivity. Qed.

(** [start] sets the elapsed time to zero, whatever it was *)
Lemma started_clock_elapsedTime (now now' : R) (c : Clock.t) :
  Clock.elapsedTime (Clock.getDelta now' (Clock.start now c))
  = (now' - now) / 1000.
Proof.
  unfold Clock.getDelta, Clock.start; cbn [Clock.autoStart Clock.running negb].
  rewrite andb_false_r. cbn [Clock.elapsedTime Clock.oldTime]. lra.
Qed.

(** What the pause checkbox does to the clock *)
Lemma pauseAnimation_input_clock (now : R) (value : bool) (app : App)
  (sc : SpeedControls) :
  speedControls app = Some sc ->
  clock (pauseAnimation_input now value app)
  = if value then Clock.stop now (clock app) else Clock.start now (clock app).
Proof.
  intros H. unfold pauseAnimation_input, pauseAnimation_onChange. rewrite H.
  destruct value; reflexivity.
Qed.

Lemma pauseAnimation_input_speedControls (now : R) (value : bool) (app : App)
  (sc : SpeedControls) :
  speedControls app = Some sc ->
  speedControls (pauseAnimation_input now value app)
  = Some (mkSpeedControls (earthRotationSpeed sc) value).
Proof.
  intros H. unfold pauseAnimation_input, pauseAnimation_onChange. rewrite H.
  destruct value; reflexivity.
Qed.

(** Pausing freezes the elapsed time at its value at the instant of the pause:
    every later frame reads that value *)
Lemma pause_freezes (now now' : R) (app : App) (sc : SpeedControls) :
  speedControls app = Some sc ->
  elapsedTime (animate now' (pauseAnimation_input now true app))
  = Clock.elapsedTime (Clock.getDelta now (clock app)).
Proof.
  intros H. rewrite animate_elapsedTime.
  rewrite (pauseAnimation_input_clock now true app sc H).
  reflexivity.
Qed.

(** Pausing a paused scene leaves the clock as it is *)
Lemma pause_idempotent (now now' : R) (app : App) (sc : SpeedControls) :
  speedControls app = Some sc ->
  clock (pauseAnimation_input now' true (pauseAnimation_input now true app))
  = clock (pauseAnimation_input now true app).
Proof.
  intros H.
  rewrite (pauseAnimation_input_clock now' true _ _
             (pauseAnimation_input_speedControls now true app sc H)).
  rewrite (pauseAnimation_input_clock now true app sc H).
  reflexivity.
Qed.

(** Resuming restarts the elapsed time from zero: the first frame after a
    resume reads the time since the resume, whatever the clock showed before *)
Lemma resume_restarts (now now' : R) (app : App) (sc : SpeedControls) :
  speedControls app = Some sc ->
  elapsedTime (animate now' (pauseAnimation_input now false app))
  = (now' - now) / 1000.
Proof.
  intros H. rewrite animate_elapsedTime.
  rewrite (pauseAnimation_input_clock now false app sc H).
  apply started_clock_elapsedTime.
Qed.

(** C4, on the code.  The scene runs for ten seconds, is paused, stays paused
    for five seconds and is resumed.  While paused the elapsed time stays at
    10; sixteen milliseconds after the resume it is 0.016, not 10.016. *)
Theorem resume_restarts_elapsed_time :
  let a1 := animate 1000 constructed in
  let a2 := animate 11000 a1 in
  let a3 := pauseAnimation_input 11000 true a2 in
  let a4 := animate 13000 a3 in
  let a5 := pauseAnimation_input 16000 false a4 in
  let a6 := animate 16016 a5 in
  elapsedTime a2 = 10 /\ elapsedTime a4 = 10 /\ elapsedTime a6 = 0.016
  /\ elapsedTime a6 <> elapsedTime a4 + 0.016.
Proof.
  intros a1 a2 a3 a4 a5 a6.
  assert (S1 : speedControls a1 = Some (mkSpeedControls 1 false))
    by (unfold a1; rewrite animate_speedControls; reflexivity).
  assert (S2 : speedControls a2 = Some (mkSpeedControls 1 false))
    by (unfold a2; rewrite animate_speedControls; exact S1).
  assert (S3 : speedControls a3 = Some (mkSpeedControls 1 true))
    by (unfold a3; rewrite (pauseAnimation_input_speedControls _ _ _ _ S2);
        reflexivity).
  assert (S4 : speedControls a4 = Some (mkSpeedControls 1 true))
    by (unfold a4; rewrite animate_speedControls; exact S3).
  assert (C1 : clock a1 = Clock.mk true 1000 1000 0 true)
    by (unfold a1; rewrite animate_clock; reflexivity).
  assert (E2 : elapsedTime a2 = 10).
  { unfold a2. rewrite animate_elapsedTime, C1.
    cbv [Clock.getDelta Clock.autoStart Clock.running negb andb
         Clock.elapsedTime Clock.oldTime]. lra. }
  assert (E4 : elapsedTime a4 = 10).
  { unfold a4, a3. rewrite (pause_freezes _ _ _ _ S2).
    unfold a2. rewrite animate_clock, C1.
    cbv [Clock.getDelta Clock.autoStart Clock.running negb andb
         Clock.elapsedTime Clock.oldTime]. lra. }
  assert (E6 : elapsedTime a6 = 0.016).
  { unfold a6, a5. rewrite (resume_restarts _ _ _ _ S4). lra. }
  repeat split; try assumption.
  rewrite E6, E4. lra.
Qed.

(** ** C9: the atmosphere intensity *)

Lemma animate_moon_reads (app : App) :
  elapsedTime (animate_moon app) = elapsedTime app
  /\ speedControls (animate_moon app) = speedControls app
  /\ atmosphere (animate_moon app) = atmosphere app.
Proof. rewrite animate_moon_writes. repeat split. Qed.

(** The atmosphere block writes 0.8 whenever the atmosphere exists *)
Lemma updateScene_atmosphere (app : App) (u : Uniforms) :
  atmosphere app = Some u ->
  atmosphere (updateScene app) = Some (mkUniforms 0.8 (Vector3.mk 0 0 0)).
Proof.
  intros H. unfold updateScene.
  assert (H' : atmosphere (animate_moon (animate_earth (animate_sun app)))
               = Some u).
  { destruct (animate_moon_reads (animate_earth (animate_sun app)))
      as (_ & _ & ->).
    destruct (animate_earth_reads (animate_sun app))
      as (_ & _ & _ & _ & _ & _ & ->).
    destruct (animate_sun_reads app)
      as (_ & _ & _ & _ & _ & _ & _ & _ & _ & _ & _ & ->).
    exact H. }
  unfold animate_atmosphere. rewrite H'. reflexivity.
Qed.

(** C9. After every frame of a scene that has its atmosphere, the
    [atmosphereIntensity] uniform is 0.8, also when the GUI control has just
    stored another value: the frame overwrites it. *)
Theorem atmosphere_intensity_overwritten (now value : R) (app : App)
  (u : Uniforms) :
  atmosphere app = Some u ->
  option_map atmosphereIntensity (atmosphere (animate now app)) = Some 0.8
  /\ option_map atmosphereIntensity (atmosphere (atmosphereIntensity_input value app))
     = Some (NumberController._snapClampSetValue atmosphereIntensityControl value)
  /\ option_map atmosphereIntensity
       (atmosphere (animate now (atmosphereIntensity_input value app)))
     = Some 0.8.
Proof.
  intros H. split; [|split].
  - rewrite animate_updateScene, (updateScene_atmosphere _ u) by exact H.
    reflexivity.
  - unfold atmosphereIntensity_input. rewrite H. reflexivity.
  - rewrite animate_updateScene.
    rewrite (updateScene_atmosphere _
               (mkUniforms
                  (NumberController._snapClampSetValue
                     atmosphereIntensityControl value)
                  (sunPosition u))).
    + reflexivity.
    + unfold atmosphereIntensity_input. rewrite H. reflexivity.
Qed.

(** The statement above on the constructed scene, with the slider at 1.5 *)
Lemma atmosphere_intensity_overwritten_witness :
  atmosphere constructed = Some (mkUniforms 0.8 (Vector3.mk 0 0 0))
  /\ option_map atmosphereIntensity
       (atmosphere (animate 0 (atmosphereIntensity_input 1.5 constructed)))
     = Some 0.8.
Proof.
  split.
  - reflexivity.
  - exact (proj2 (proj2
      (atmosphere_intensity_overwritten 0 1.5 constructed
         (mkUniforms 0.8 (Vector3.mk 0 0 0)) eq_refl))).
Defined.

(** ** C7: values outside a slider's range *)

(** [Int_part] is the floor *)
Lemma Int_part_lower (x : R) (k : Z) : IZR k <= x -> (k <= Int_part x)%Z.
Proof.
  intros H. destruct (base_Int_part x) as [_ Hlo].
  assert (Hlt : IZR (k - 1) < IZR (Int_part x)) by (rewrite minus_IZR; lra).
  apply lt_IZR in Hlt. lia.
Qed.

Lemma Int_part_upper (x : R) (k : Z) : x < IZR k + 1 -> (Int_part x <= k)%Z.
Proof.
  intros H. destruct (base_Int_part x) as [Hhi _].
  assert (Hlt : IZR (Int_part x) < IZR (k + 1)) by (rewrite plus_IZR; lra).
  apply lt_IZR in Hlt. lia.
Qed.

Section Clamp.

Variable c : NumberController.t.
Variables kmin kmax : Z.
Hypothesis step_pos : 0 < NumberController._step c.
Hypothesis min_on_grid :
  NumberController._min c = IZR kmin * NumberController._step c.
Hypothesis max_on_grid :
  NumberController._max c = IZR kmax * NumberController._step c.
Hypothesis min_le_max : NumberController._min c <= NumberController._max c.

(** The stored value always lies in the range *)
Lemma snapClamp_in_range (value : R) :
  NumberController._min c
  <= NumberController._snapClampSetValue c value
  <= NumberController._max c.
Proof.
  unfold NumberController._snapClampSetValue, NumberController._clamp.
  destruct (Rlt_dec (NumberController._snap c value) (NumberController._min c));
    destruct (Rlt_dec (NumberController._max c) _); lra.
Qed.

(** A value above the range is stored as the maximum *)
Lemma snapClamp_above (value : R) :
  NumberController._max c < value ->
  NumberController._snapClampSetValue c value = NumberController._max c.
Proof.
  intros Hv.
  assert (Hs : NumberController._max c <= NumberController._snap c value).
  { unfold NumberController._snap, NumberController.Math_round.
    rewrite max_on_grid in *.
    apply Rmult_le_compat_r; [lra |].
    apply IZR_le, Int_part_lower.
    assert (IZR kmax < value / NumberController._step c).
    { apply Rmult_lt_reg_r with (NumberController._step c); [lra |].
      unfold Rdiv. rewrite Rmult_assoc, Rinv_l by lra. lra. }
    lra. }
  unfold NumberController._snapClampSetValue, NumberController._clamp.
  destruct (Rlt_dec (NumberController._snap c value) (NumberController._min c));
    destruct (Rlt_dec (NumberController._max c) _); lra.
Qed.

(** A value below the range is stored as the minimum *)
Lemma snapClamp_below (value : R) :
  value < NumberController._min c ->
  NumberController._snapClampSetValue c value = NumberController._min c.
Proof.
  intros Hv.
  assert (Hs : NumberController._snap c value <= NumberController._min c).
  { unfold NumberController._snap, NumberController.Math_round.
    rewrite min_on_grid in *.
    apply Rmult_le_compat_r; [lra |].
    apply IZR_le, Int_part_upper.
    assert (value / NumberController._step c < IZR kmin).
    { apply Rmult_lt_reg_r with (NumberController._step c); [lra |].
      unfold Rdiv. rewrite Rmult_assoc, Rinv_l by lra. lra. }
    lra. }
  unfold NumberController._snapClampSetValue, NumberController._clamp.
  destruct (Rlt_dec (NumberController._snap c value) (NumberController._min c));
    destruct (Rlt_dec (NumberController._max c) _); lra.
Qed.

End Clamp.

(** The two sliders the claim names: what they store for any input *)
Lemma speedRotationControl_stores (value : R) :
  let stored := NumberController._snapClampSetValue speedRotationControl value in
  0 <= stored <= 200
  /\ (value < 0 -> stored = 0) /\ (200 < value -> stored = 200).
Proof.
  intros stored.
  assert (G0 : NumberController._min speedRotationControl
               = IZR 0 * NumberController._step speedRotationControl)
    by (cbn; lra).
  assert (G1 : NumberController._max speedRotationControl
               = IZR 2000 * NumberController._step speedRotationControl)
    by (cbn; lra).
  assert (Hstep : 0 < NumberController._step speedRotationControl) by (cbn; lra).
  assert (Hmm : NumberController._min speedRotationControl
                <= NumberController._max speedRotationControl) by (cbn; lra).
  split; [|split].
  - exact (snapClamp_in_range speedRotationControl Hmm value).
  - exact (snapClamp_below speedRotationControl 0 Hstep G0 Hmm value).
  - exact (snapClamp_above speedRotationControl 2000 Hstep G1 Hmm value).
Qed.

Lemma moonOrbitInclinationControl_stores (value : R) :
  let stored :=
    NumberController._snapClampSetValue moonOrbitInclinationControl value in
  0 <= stored <= 10
  /\ (value < 0 -> stored = 0) /\ (10 < value -> stored = 10).
Proof.
  intros stored.
  assert (G0 : NumberController._min moonOrbitInclinationControl
               = IZR 0 * NumberController._step moonOrbitInclinationControl)
    by (cbn; lra).
  assert (G1 : NumberController._max moonOrbitInclinationControl
               = IZR 100 * NumberController._step moonOrbitInclinationControl)
    by (cbn; lra).
  assert (Hstep : 0 < NumberController._step moonOrbitInclinationControl)
    by (cbn; lra).
  assert (Hmm : NumberController._min moonOrbitInclinationControl
                <= NumberController._max moonOrbitInclinationControl)
    by (cbn; lra).
  split; [|split].
  - exact (snapClamp_in_range moonOrbitInclinationControl Hmm value).
  - exact (snapClamp_below moonOrbitInclinationControl 0 Hstep G0 Hmm value).
  - exact (snapClamp_above moonOrbitInclinationControl 100 Hstep G1 Hmm value).
Qed.

(** What the two input handlers store *)
Lemma speedRotationControl_input_stores (value : R) (app : App)
  (sc : SpeedControls) :
  speedControls app = Some sc ->
  speedControls (speedRotationControl_input value app)
  = Some (mkSpeedControls
            (NumberController._snapClampSetValue speedRotationControl value)
            (pauseAnimation sc)).
Proof. intros H. unfold speedRotationControl_input. rewrite H. reflexivity. Qed.

Lemma moonOrbitInclination_input_stores (value : R) (app : App)
  (mc : MoonOrbitControls) :
  moonOrbitControls app = Some mc ->
  moonOrbitControls (moonOrbitInclination_input value app)
  = Some (mkMoonOrbitControls
            (NumberController._snapClampSetValue
               moonOrbitInclinationControl value)).
Proof.
  intros H. unfold moonOrbitInclination_input, moonOrbitInclination_onChange.
  rewrite H.
  destruct (Req_dec_T _ _) as [E | _].
  - rewrite H, <- E. destruct mc; reflexivity.
  - app_simpl. destruct (moonGroup app); reflexivity.
Qed.

(** C7, on the code.  The speed slider holds 1; the user enters 250.  No error
    is raised and the prior value is not kept: the slider now holds 200. *)
Lemma out_of_range_speed_replaces_stored_value :
  speedControls constructed = Some (mkSpeedControls 1 false)
  /\ speedControls (speedRotationControl_input 250 constructed)
     = Some (mkSpeedControls 200 false)
  /\ speedControls (speedRotationControl_input 250 constructed)
     <> speedControls constructed.
Proof.
  assert (E : speedControls (speedRotationControl_input 250 constructed)
              = Some (mkSpeedControls 200 false)).
  { rewrite (speedRotationControl_input_stores 250 constructed
               (mkSpeedControls 1 false) eq_refl).
    destruct (speedRotationControl_stores 250) as (_ & _ & Habove).
    rewrite Habove by lra. reflexivity. }
  split; [reflexivity | split; [exact E |]].
  rewrite E. cbn [constructed speedControls]. intros H.
  injection H as H. lra.
Qed.

(** C7, amended.  A value entered in the speed slider or in the Moon orbit
    inclination slider is never refused: it is snapped to the step, clamped
    into the slider's range and stored in place of the prior value.  A value
    below the range is stored as the minimum, a value above it as the
    maximum. *)
Theorem out_of_range_input_is_clamped (value : R) (app : App)
  (sc : SpeedControls) (mc : MoonOrbitControls) :
  speedControls app = Some sc -> moonOrbitControls app = Some mc ->
  (exists stored,
      speedControls (speedRotationControl_input value app)
      = Some (mkSpeedControls stored (pauseAnimation sc))
      /\ 0 <= stored <= 200
      /\ (value < 0 -> stored = 0) /\ (200 < value -> stored = 200))
  /\ (exists stored,
        moonOrbitControls (moonOrbitInclination_input value app)
        = Some (mkMoonOrbitControls stored)
        /\ 0 <= stored <= 10
        /\ (value < 0 -> stored = 0) /\ (10 < value -> stored = 10)).
Proof.
  intros Hs Hm. split.
  - exists (NumberController._snapClampSetValue speedRotationControl value).
    split.
    + apply speedRotationControl_input_stores; exact Hs.
    + apply speedRotationControl_stores.
  - exists (NumberController._snapClampSetValue moonOrbitInclinationControl value).
    split.
    + apply (moonOrbitInclination_input_stores value app mc); exact Hm.
    + apply moonOrbitInclinationControl_stores.
Qed.

(** The statement above on the constructed scene, for the input 250 *)
Lemma out_of_range_input_is_clamped_witness :
  (speedControls constructed = Some (mkSpeedControls 1 false)
   /\ moonOrbitControls constructed = Some (mkMoonOrbitControls 5.1))
  /\ (exists stored,
        speedControls (speedRotationControl_input 250 constructed)
        = Some (mkSpeedControls stored false)
        /\ 0 <= stored <= 200
        /\ (250 < 0 -> stored = 0) /\ (200 < 250 -> stored = 200)).
Proof.
  split.
  - split; reflexivity.
  - exact (proj1 (out_of_range_input_is_clamped 250 constructed
                    (mkSpeedControls 1 false) (mkMoonOrbitControls 5.1)
                    eq_refl eq_refl)).
Defined.

(** ** Vectors *)

Lemma Vector3_eq (a b : Vector3.t) :
  Vector3.x a = Vector3.x b -> Vector3.y a = Vector3.y b ->
  Vector3.z a = Vector3.z b -> a = b.
Proof. destruct a, b; cbn; intros -> -> ->; reflexivity. Qed.

Lemma sub_origin (v : Vector3.t) : Vector3.sub v (Vector3.mk 0 0 0) = v.
Proof. apply Vector3_eq; cbn; ring. Qed.

Lemma length_nonneg (v : Vector3.t) : 0 <= Vector3.length v.
Proof. apply sqrt_pos. Qed.

Lemma length_square (v : Vector3.t) :
  Vector3.length v * Vector3.length v
  = Vector3.x v * Vector3.x v + Vector3.y v * Vector3.y v
    + Vector3.z v * Vector3.z v.
Proof. unfold Vector3.length. apply sqrt_sqrt. nra. Qed.

(** The length is determined by its square *)
Lemma length_eq (v : Vector3.t) (l : R) :
  0 <= l ->
  Vector3.x v * Vector3.x v + Vector3.y v * Vector3.y v
  + Vector3.z v * Vector3.z v = l * l ->
  Vector3.length v = l.
Proof.
  intros Hl H. unfold Vector3.length. apply sqrt_lem_1; [nra | exact Hl | lra].
Qed.

Lemma length_multiplyScalar (v : Vector3.t) (s : R) :
  0 <= s ->
  Vector3.length (Vector3.multiplyScalar v s) = Vector3.length v * s.
Proof.
  intros Hs. apply length_eq.
  - pose proof (length_nonneg v). nra.
  - cbn [Vector3.multiplyScalar Vector3.x Vector3.y Vector3.z].
    pose proof (length_square v) as H. nra.
Qed.

(** A vector that is not zero normalizes to a unit vector along itself *)
Lemma normalize_nonzero (v : Vector3.t) :
  0 < Vector3.length v ->
  Vector3.normalize v = Vector3.multiplyScalar v (1 / Vector3.length v)
  /\ Vector3.length (Vector3.normalize v) = 1.
Proof.
  intros Hl.
  assert (E : Vector3.normalize v
              = Vector3.multiplyScalar v (1 / Vector3.length v)).
  { unfold Vector3.normalize, Vector3.divideScalar.
    destruct (Req_dec_T (Vector3.length v) 0); [lra | reflexivity]. }
  split; [exact E |].
  rewrite E, length_multiplyScalar.
  - field. lra.
  - apply Rlt_le, Rdiv_lt_0_compat; lra.
Qed.

(** A unit vector is its own normalization *)
Lemma normalize_unit (v : Vector3.t) :
  Vector3.x v * Vector3.x v + Vector3.y v * Vector3.y v
  + Vector3.z v * Vector3.z v = 1 ->
  Vector3.normalize v = v.
Proof.
  intros H.
  assert (Hl : Vector3.length v = 1) by (apply length_eq; lra).
  unfold Vector3.normalize, Vector3.divideScalar. rewrite Hl.
  destruct (Req_dec_T 1 0); [lra |].
  apply Vector3_eq; cbn; field.
Qed.

(** ** C8: the directional lights *)

(** Where the earth block puts the two lights.  The secondary light clones
    [sunToEarth] after the primary light has scaled it by 10. *)
Lemma animate_earth_lights (app : App) (e0 c0 : Mesh.t) (g0 : Object3D.t)
  (l1 l2 : DirectionalLight.t) :
  earth app = Some e0 -> clouds app = Some c0 -> earthGroup app = Some g0 ->
  sunDirectionalLight app = Some l1 -> secondDirectionalLight app = Some l2 ->
  let bodyPosition :=
    calcOrbitPoint earthOrbitRadius earthOrbitEccentricity
      (elapsedTime app * (currentEarthRotationSpeed app / 365.25)) in
  let sunToEarth :=
    Vector3.normalize (Vector3.subVectors bodyPosition (Vector3.mk 0 0 0)) in
  sunDirectionalLight (animate_earth app)
  = Some (DirectionalLight.mk
            (Vector3.sub bodyPosition (Vector3.multiplyScalar sunToEarth 10))
            DirectionalLight.EarthGroupTarget)
  /\ secondDirectionalLight (animate_earth app)
     = Some (DirectionalLight.mk
               (Vector3.sub bodyPosition
                  (Vector3.add
                     (Vector3.multiplyScalar
                        (Vector3.multiplyScalar sunToEarth 10) 8)
                     (Vector3.multiplyScalar
                        (Vector3.normalize
                           (Vector3.mk (sin (PI / 12)) (cos (PI / 12)) 0))
                        2)))
               DirectionalLight.EarthGroupTarget).
Proof.
  intros H1 H2 H3 H4 H5. unfold animate_earth.
  rewrite H1, H2, H3, H4, H5. split; reflexivity.
Qed.

Lemma updateScene_lights (app : App) (e0 c0 : Mesh.t) (g0 : Object3D.t)
  (l1 l2 : DirectionalLight.t) :
  earth app = Some e0 -> clouds app = Some c0 -> earthGroup app = Some g0 ->
  sunDirectionalLight app = Some l1 -> secondDirectionalLight app = Some l2 ->
  let bodyPosition :=
    calcOrbitPoint earthOrbitRadius earthOrbitEccentricity
      (elapsedTime app * (currentEarthRotationSpeed app / 365.25)) in
  let sunToEarth :=
    Vector3.normalize (Vector3.subVectors bodyPosition (Vector3.mk 0 0 0)) in
  sunDirectionalLight (updateScene app)
  = Some (DirectionalLight.mk
            (Vector3.sub bodyPosition (Vector3.multiplyScalar sunToEarth 10))
            DirectionalLight.EarthGroupTarget)
  /\ secondDirectionalLight (updateScene app)
     = Some (DirectionalLight.mk
               (Vector3.sub bodyPosition
                  (Vector3.add
                     (Vector3.multiplyScalar
                        (Vector3.multiplyScalar sunToEarth 10) 8)
                     (Vector3.multiplyScalar
                        (Vector3.normalize
                           (Vector3.mk (sin (PI / 12)) (cos (PI / 12)) 0))
                        2)))
               DirectionalLight.EarthGroupTarget).
Proof.
  intros H1 H2 H3 H4 H5.
  destruct (animate_sun_reads app)
    as (Ht & Hs & He & Hc & Hg & _ & Hl1 & Hl2 & _).
  unfold updateScene.
  rewrite animate_atmosphere_writes; app_simpl.
  rewrite animate_moon_writes; app_simpl.
  destruct (animate_earth_lights (animate_sun app) e0 c0 g0 l1 l2)
    as [E1 E2]; try congruence.
  rewrite E1, E2, Ht, (currentEarthRotationSpeed_ext _ _ Hs).
  split; reflexivity.
Qed.

(** The offset vector of the secondary light has unit length *)
Lemma offsetVector_unit :
  Vector3.normalize (Vector3.mk (sin (PI / 12)) (cos (PI / 12)) 0)
  = Vector3.mk (sin (PI / 12)) (cos (PI / 12)) 0.
Proof.
  apply normalize_unit. cbn [Vector3.x Vector3.y Vector3.z].
  pose proof (sin2_cos2 (PI / 12)) as H. unfold Rsqr in H. lra.
Qed.

(** The Earth is never at the Sun *)
Lemma earth_position_length (angle : R) :
  0 < Vector3.length (calcOrbitPoint earthOrbitRadius earthOrbitEccentricity angle).
Proof.
  unfold earthOrbitRadius, earthOrbitEccentricity.
  rewrite calcOrbitPoint_length by lra.
  apply orbit_radius_pos; lra.
Qed.

(** [sin (PI / 12)] lies above 1/5 *)
Lemma sin_PI12_bounds : / 5 < sin (PI / 12) <= 1.
Proof.
  pose proof PI_RGT_0 as Hpi.
  assert (Hs : 0 < sin (PI / 12)) by (apply sin_gt_0; lra).
  pose proof (SIN_bound (PI / 12)) as [_ Hle].
  pose proof (cos_2a_sin (PI / 12)) as H2.
  replace (2 * (PI / 12)) with (PI / 6) in H2 by field.
  rewrite cos_PI6 in H2.
  assert (H3 : sqrt 3 * sqrt 3 = 3) by (apply sqrt_sqrt; lra).
  pose proof (sqrt_pos 3) as H3p.
  assert (H3u : sqrt 3 < 9 / 5) by nra.
  split; [nra | exact Hle].
Qed.

(** Along a horizontal unit vector [u], the directions [u * 10] and
    [u * 80 + offset * 2] are never [PI / 12] apart: the angle between them
    stays below two degrees *)
Lemma light_directions_not_PI12 (u : Vector3.t) :
  Vector3.length u = 1 -> Vector3.y u = 0 ->
  ~ angleBetween (Vector3.multiplyScalar u 10)
      (Vector3.add (Vector3.multiplyScalar u 80)
         (Vector3.multiplyScalar
            (Vector3.mk (sin (PI / 12)) (cos (PI / 12)) 0) 2))
      (PI / 12).
Proof.
  intros Hu Hy [_ H].
  pose proof sin_PI12_bounds as [Hs1 Hs2].
  pose proof (sin2_cos2 (PI / 12)) as Hsc. unfold Rsqr in Hsc.
  pose proof (length_square u) as U. rewrite Hu in U.
  rewrite length_multiplyScalar, Hu in H by lra.
  set (d := Vector3.add _ _) in H.
  pose proof (length_nonneg d) as L0.
  pose proof (length_square d) as LL.
  unfold Vector3.dot in H. unfold d in H, LL.
  cbn [Vector3.add Vector3.multiplyScalar Vector3.x Vector3.y Vector3.z]
    in H, LL.
  fold d in H, LL, L0.
  set (L := Vector3.length d) in *. clearbody L. clear d.
  rewrite Hy in *.
  set (ux := Vector3.x u) in *. set (uz := Vector3.z u) in *.
  set (sn := sin (PI / 12)) in *. set (cs := cos (PI / 12)) in *.
  clearbody ux uz sn cs.
  assert (Hux : -1 <= ux <= 1) by nra.
  assert (Hw : -1 <= ux * sn <= 1) by nra.
  set (w := ux * sn) in *.
  assert (E1 : L * L = 6404 + 320 * w) by (unfold w; nra).
  assert (E2 : 80 + 2 * w = L * cs) by (unfold w; nra).
  assert (E3 : (80 + 2 * w) * (80 + 2 * w) = (6404 + 320 * w) * (1 - sn * sn)).
  { rewrite E2, <- E1.
    replace (1 - sn * sn) with (cs * cs) by lra. ring. }
  assert (Hq : / 25 < sn * sn) by nra.
  clearbody w.
  assert (Hp : (6404 + 320 * w) * / 25 < (6404 + 320 * w) * (sn * sn))
    by (apply Rmult_lt_compat_l; lra).
  nra.
Qed.

(** C8, amended.  There is one positive factor [k], the same in every state
    and on every frame, such that each frame puts the primary directional
    light at [bodyPosition - normalize(bodyPosition - sunPosition) * 10] and
    the secondary at
    [bodyPosition - (normalize(bodyPosition - sunPosition) * k + offset * 2)]
    with the fixed vector [offset = (sin (PI/12), cos (PI/12), 0)]: both
    positions are functions of the body's position alone.  Both lights are
    aimed at the body; the primary shines along the unit vector from the Sun
    to the body, and on no frame is the angle between the two directions
    [PI / 12]. *)
Theorem lights_follow_the_body :
  exists k : R,
    0 < k
    /\ forall (now : R) (app : App) (e0 c0 : Mesh.t) (g0 : Object3D.t)
         (l1 l2 : DirectionalLight.t),
      earth app = Some e0 -> clouds app = Some c0 ->
      earthGroup app = Some g0 ->
      sunDirectionalLight app = Some l1 ->
      secondDirectionalLight app = Some l2 ->
      exists body primary secondary,
        earthGroup (animate now app) = Some body
        /\ sunDirectionalLight (animate now app) = Some primary
        /\ secondDirectionalLight (animate now app) = Some secondary
        /\ let bodyPosition := earthWorldPosition body in
           let sunPosition := Vector3.mk 0 0 0 in
           let toBody :=
             Vector3.normalize (Vector3.sub bodyPosition sunPosition) in
           let offset := Vector3.mk (sin (PI / 12)) (cos (PI / 12)) 0 in
           0 < Vector3.length bodyPosition
           /\ toBody = Vector3.multiplyScalar bodyPosition
                         (1 / Vector3.length bodyPosition)
           /\ Vector3.length toBody = 1
           /\ DirectionalLight.position primary
              = Vector3.sub bodyPosition (Vector3.multiplyScalar toBody 10)
           /\ DirectionalLight.target primary
              = DirectionalLight.EarthGroupTarget
           /\ lightDirection primary bodyPosition
              = Vector3.multiplyScalar toBody 10
           /\ DirectionalLight.target secondary
              = DirectionalLight.EarthGroupTarget
           /\ DirectionalLight.position secondary
              = Vector3.sub bodyPosition
                  (Vector3.add (Vector3.multiplyScalar toBody k)
                               (Vector3.multiplyScalar offset 2))
           /\ lightDirection secondary bodyPosition
              = Vector3.add (Vector3.multiplyScalar toBody k)
                            (Vector3.multiplyScalar offset 2)
           /\ ~ angleBetween (lightDirection primary bodyPosition)
                  (lightDirection secondary bodyPosition) (PI / 12).
Proof.
  exists 80. split; [lra |].
  intros now app e0 c0 g0 l1 l2 H1 H2 H3 H4 H5.
  rewrite animate_updateScene. set (app1 := set_elapsedTime _ _).
  destruct (updateScene_lights app1 e0 c0 g0 l1 l2) as [E1 E2]; try assumption.
  rewrite (updateScene_earthGroup app1 e0 c0 g0), E1, E2 by assumption.
  set (angle := elapsedTime app1 * (currentEarthRotationSpeed app1 / 365.25))
    in *.
  assert (Py : Vector3.y
                 (calcOrbitPoint earthOrbitRadius earthOrbitEccentricity angle)
               = 0) by reflexivity.
  set (p := calcOrbitPoint _ _ _) in *.
  do 3 eexists. split; [reflexivity | split; [reflexivity | split; [reflexivity |]]].
  cbn [earthWorldPosition Object3D.position DirectionalLight.position
       DirectionalLight.target].
  unfold Vector3.subVectors. rewrite sub_origin, offsetVector_unit.
  assert (Hp : 0 < Vector3.length p) by apply earth_position_length.
  destruct (normalize_nonzero p Hp) as [En Hn].
  assert (Uy : Vector3.y (Vector3.normalize p) = 0).
  { rewrite En. cbn [Vector3.multiplyScalar Vector3.y]. rewrite Py. ring. }
  set (u := Vector3.normalize p) in *.
  set (offset := Vector3.mk (sin (PI / 12)) (cos (PI / 12)) 0).
  assert (D1 : lightDirection
                 (DirectionalLight.mk
                    (Vector3.sub p (Vector3.multiplyScalar u 10))
                    DirectionalLight.EarthGroupTarget) p
               = Vector3.multiplyScalar u 10)
    by (unfold lightDirection; apply Vector3_eq; cbn; ring).
  assert (P2 : Vector3.sub p
                 (Vector3.add
                    (Vector3.multiplyScalar (Vector3.multiplyScalar u 10) 8)
                    (Vector3.multiplyScalar offset 2))
               = Vector3.sub p
                   (Vector3.add (Vector3.multiplyScalar u 80)
                                (Vector3.multiplyScalar offset 2)))
    by (apply Vector3_eq; cbn; ring).
  rewrite P2.
  assert (D2 : lightDirection
                 (DirectionalLight.mk
                    (Vector3.sub p
                       (Vector3.add (Vector3.multiplyScalar u 80)
                                    (Vector3.multiplyScalar offset 2)))
                    DirectionalLight.EarthGroupTarget) p
               = Vector3.add (Vector3.multiplyScalar u 80)
                             (Vector3.multiplyScalar offset 2))
    by (unfold lightDirection; apply Vector3_eq; cbn; ring).
  cbn zeta. rewrite D1, D2.
  split; [exact Hp | split; [exact En | split; [exact Hn |]]].
  split; [reflexivity | split; [reflexivity | split; [reflexivity |]]].
  split; [reflexivity | split; [reflexivity | split; [reflexivity |]]].
  apply light_directions_not_PI12; assumption.
Qed.

(** The statement above on the first frame of the constructed scene *)
Lemma lights_follow_the_body_witness :
  (earth constructed = Some Mesh.new /\ clouds constructed = Some Mesh.new
   /\ earthGroup constructed = Some Object3D.new
   /\ sunDirectionalLight constructed = Some DirectionalLight.new
   /\ secondDirectionalLight constructed = Some DirectionalLight.new)
  /\ exists k : R,
       0 < k
       /\ exists body primary secondary,
            earthGroup (animate 0 constructed) = Some body
            /\ sunDirectionalLight (animate 0 constructed) = Some primary
            /\ secondDirectionalLight (animate 0 constructed) = Some secondary
            /\ lightDirection primary (earthWorldPosition body)
               = Vector3.multiplyScalar
                   (Vector3.normalize
                      (Vector3.sub (earthWorldPosition body)
                         (Vector3.mk 0 0 0)))
                   10
            /\ lightDirection secondary (earthWorldPosition body)
               = Vector3.add
                   (Vector3.multiplyScalar
                      (Vector3.normalize
                         (Vector3.sub (earthWorldPosition body)
                            (Vector3.mk 0 0 0)))
                      k)
                   (Vector3.multiplyScalar
                      (Vector3.mk (sin (PI / 12)) (cos (PI / 12)) 0) 2).
Proof.
  split.
  - repeat split.
  - destruct lights_follow_the_body as (k & Hk & H).
    destruct (H 0 constructed Mesh.new Mesh.new
                Object3D.new DirectionalLight.new DirectionalLight.new
                eq_refl eq_refl eq_refl eq_refl eq_refl)
      as (body & primary & secondary & Hb & Hp & Hs
          & _ & _ & _ & _ & _ & Hd & _ & _ & Hd2 & _).
    exists k. split; [exact Hk |].
    exists body, primary, secondary.
    split; [exact Hb | split; [exact Hp | split; [exact Hs |]]].
    split; [exact Hd | exact Hd2].
Defined.

(** C8, on the code.  On the first frame the primary light shines along
    [(-10, 0, 0)] and the secondary along
    [(-80 + 2 sin (PI/12), 2 cos (PI/12), 0)]: the angle between the two is
    not [PI / 12]. *)
Lemma second_light_not_offset_by_PI_12 :
  exists body primary secondary,
    earthGroup (animate 0 constructed) = Some body
    /\ sunDirectionalLight (animate 0 constructed) = Some primary
    /\ secondDirectionalLight (animate 0 constructed) = Some secondary
    /\ lightDirection primary (earthWorldPosition body) = Vector3.mk (-10) 0 0
    /\ lightDirection secondary (earthWorldPosition body)
       = Vector3.mk (-80 + 2 * sin (PI / 12)) (2 * cos (PI / 12)) 0
    /\ ~ angleBetween (lightDirection primary (earthWorldPosition body))
           (lightDirection secondary (earthWorldPosition body)) (PI / 12).
Proof.
  rewrite animate_updateScene. set (app1 := set_elapsedTime _ _).
  destruct (updateScene_lights app1 Mesh.new Mesh.new Object3D.new
              DirectionalLight.new DirectionalLight.new) as [E1 E2];
    try reflexivity.
  rewrite (updateScene_earthGroup app1 Mesh.new Mesh.new Object3D.new), E1, E2
    by reflexivity.
  replace (elapsedTime app1) with 0 in * by reflexivity.
  rewrite Rmult_0_l.
  assert (P0 : calcOrbitPoint earthOrbitRadius earthOrbitEccentricity 0
               = Vector3.mk (-15) 0 0).
  { unfold calcOrbitPoint, earthOrbitRadius, earthOrbitEccentricity.
    rewrite cos_0, sin_0. f_equal; lra. }
  rewrite P0. clear E1 E2.
  do 3 eexists.
  split; [reflexivity | split; [reflexivity | split; [reflexivity |]]].
  cbn [earthWorldPosition Object3D.position].
  unfold lightDirection, Vector3.subVectors.
  cbn [DirectionalLight.position].
  rewrite sub_origin, offsetVector_unit.
  assert (Hl : Vector3.length (Vector3.mk (-15) 0 0) = 15)
    by (apply length_eq; cbn; lra).
  destruct (normalize_nonzero (Vector3.mk (-15) 0 0)) as [En _]; [lra |].
  rewrite En, Hl.
  set (s := sin (PI / 12)). set (c := cos (PI / 12)).
  assert (D1 : Vector3.sub (Vector3.mk (-15) 0 0)
                 (Vector3.sub (Vector3.mk (-15) 0 0)
                    (Vector3.multiplyScalar
                       (Vector3.multiplyScalar (Vector3.mk (-15) 0 0) (1 / 15))
                       10))
               = Vector3.mk (-10) 0 0)
    by (apply Vector3_eq; cbn; lra).
  assert (D2 : Vector3.sub (Vector3.mk (-15) 0 0)
                 (Vector3.sub (Vector3.mk (-15) 0 0)
                    (Vector3.add
                       (Vector3.multiplyScalar
                          (Vector3.multiplyScalar
                             (Vector3.multiplyScalar (Vector3.mk (-15) 0 0)
                                (1 / 15)) 10) 8)
                       (Vector3.multiplyScalar (Vector3.mk s c 0) 2)))
               = Vector3.mk (-80 + 2 * s) (2 * c) 0)
    by (apply Vector3_eq; cbn; lra).
  rewrite D1, D2.
  split; [reflexivity | split; [reflexivity |]].
  intros [_ H].
  assert (L1 : Vector3.length (Vector3.mk (-10) 0 0) = 10)
    by (apply length_eq; cbn; lra).
  rewrite L1 in H. unfold Vector3.dot in H.
  cbn [Vector3.x Vector3.y Vector3.z] in H.
  pose proof (length_nonneg (Vector3.mk (-80 + 2 * s) (2 * c) 0)) as L2p.
  pose proof (length_square (Vector3.mk (-80 + 2 * s) (2 * c) 0)) as L2s.
  cbn [Vector3.x Vector3.y Vector3.z] in L2s.
  set (L := Vector3.length (Vector3.mk (-80 + 2 * s) (2 * c) 0)) in *.
  destruct sin_PI12_bounds as [Hlo Hhi]. fold s in Hlo, Hhi.
  assert (Hsc : s * s + c * c = 1).
  { pose proof (sin2_cos2 (PI / 12)) as Hq. unfold Rsqr in Hq. exact Hq. }
  fold c in H. clearbody s c L.
  assert (HA : 80 - 2 * s = L * c) by lra.
  assert (Hsq : (80 - 2 * s) * (80 - 2 * s) * (s * s) = (2 * (c * c)) * (2 * (c * c))).
  { assert (Hsq' : (80 - 2 * s) * (80 - 2 * s)
                   = ((80 - 2 * s) * (80 - 2 * s) + 4 * (c * c)) * (c * c)).
    { rewrite HA at 1 2. nra. }
    nra. }
  assert (Hlin : (80 - 2 * s) * s = 2 * (c * c)) by nra.
  nra.
Qed.

(** ** Quaternions *)

Lemma Quaternion_eq (p q : Quaternion.t) :
  Quaternion.x p = Quaternion.x q -> Quaternion.y p = Quaternion.y q ->
  Quaternion.z p = Quaternion.z q -> Quaternion.w p = Quaternion.w q -> p = q.
Proof. destruct p, q; cbn; intros -> -> -> ->; reflexivity. Qed.

(** [rotation.set(0, 0, 0)] resets the quaternion to the identity *)
Lemma setFromEuler_zero :
  Quaternion.setFromEuler (Euler.mk 0 0 0) = Quaternion.identity.
Proof.
  unfold Quaternion.setFromEuler, Quaternion.identity. cbn [Euler.x Euler.y Euler.z].
  replace (0 / 2) with 0 by field. rewrite cos_0, sin_0.
  apply Quaternion_eq; cbn; ring.
Qed.

Lemma multiply_identity_l (q : Quaternion.t) :
  Quaternion.multiply Quaternion.identity q = q.
Proof. apply Quaternion_eq; cbn; ring. Qed.

Lemma unit_identity : unit Quaternion.identity.
Proof. unfold unit; cbn; ring. Qed.

Lemma unit_setFromAxisAngle (axis : Vector3.t) (angle : R) :
  Vector3.x axis * Vector3.x axis + Vector3.y axis * Vector3.y axis
  + Vector3.z axis * Vector3.z axis = 1 ->
  unit (Quaternion.setFromAxisAngle axis angle).
Proof.
  intros H. unfold unit, Quaternion.setFromAxisAngle.
  cbn [Quaternion.x Quaternion.y Quaternion.z Quaternion.w].
  pose proof (sin2_cos2 (angle / 2)) as Hq. unfold Rsqr in Hq.
  set (s := sin (angle / 2)) in *. set (c := cos (angle / 2)) in *.
  transitivity ((Vector3.x axis * Vector3.x axis + Vector3.y axis * Vector3.y axis
                 + Vector3.z axis * Vector3.z axis) * (s * s) + c * c);
    [ring | rewrite H; lra].
Qed.

Lemma unit_multiply (p q : Quaternion.t) :
  unit p -> unit q -> unit (Quaternion.multiply p q).
Proof.
  unfold unit. destruct p as [px py pz pw], q as [a b c d].
  cbn [Quaternion.multiply Quaternion.x Quaternion.y Quaternion.z Quaternion.w].
  intros Hp Hq.
  transitivity ((px * px + py * py + pz * pz + pw * pw)
                * (a * a + b * b + c * c + d * d));
    [ring | rewrite Hp, Hq; ring].
Qed.

(** Turning a vector is linear ... *)
Lemma applyQuaternion_multiplyScalar (v : Vector3.t) (k : R) (q : Quaternion.t) :
  Quaternion.applyQuaternion (Vector3.multiplyScalar v k) q
  = Vector3.multiplyScalar (Quaternion.applyQuaternion v q) k.
Proof. apply Vector3_eq; cbn; ring. Qed.

(** ... and, for a unit quaternion, keeps its length *)
Lemma applyQuaternion_length (v : Vector3.t) (q : Quaternion.t) :
  unit q ->
  Vector3.length (Quaternion.applyQuaternion v q) = Vector3.length v.
Proof.
  intros Hq. apply length_eq; [apply length_nonneg |].
  rewrite length_square.
  destruct v as [vx vy vz], q as [a b c d]. unfold unit in Hq.
  cbn [Quaternion.applyQuaternion Quaternion.x Quaternion.y Quaternion.z
       Quaternion.w Vector3.x Vector3.y Vector3.z] in *.
  nsatz.
Qed.

(** A non-zero quaternion normalizes to a unit quaternion *)
Lemma Quaternion_normalize_nonzero (q : Quaternion.t) :
  0 < Quaternion.length q ->
  Quaternion.normalize q
  = Quaternion.mk (Quaternion.x q * (1 / Quaternion.length q))
                  (Quaternion.y q * (1 / Quaternion.length q))
                  (Quaternion.z q * (1 / Quaternion.length q))
                  (Quaternion.w q * (1 / Quaternion.length q)).
Proof.
  intros Hl. unfold Quaternion.normalize.
  destruct (Req_dec_T (Quaternion.length q) 0); [lra | reflexivity].
Qed.

(** [Number.EPSILON] is small *)
Lemma EPSILON_lt_1 : Quaternion.EPSILON < 1.
Proof.
  unfold Quaternion.EPSILON.
  assert (H : 1 < 2 ^ 52) by (apply Rlt_pow_R1; [lra | lia]).
  rewrite <- Rinv_1. apply Rinv_lt_contravar; lra.
Qed.

(** ** C2: the Moon *)

(** What the moon block writes *)
Lemma animate_moon_values (app : App) (mn0 mg0 : Object3D.t) :
  moon app = Some mn0 -> moonGroup app = Some mg0 ->
  moonGroup (animate_moon app)
  = Some (Object3D.mk (Object3D.position mg0)
            (Quaternion.multiply
               (Quaternion.multiply
                  (Quaternion.setFromEuler (Euler.mk 0 0 0))
                  (Quaternion.setFromAxisAngle (Vector3.mk 0 1 0)
                     (elapsedTime app
                      * (currentEarthRotationSpeed app / 365.25
                         * (365.25 / 27.32)))))
               (Quaternion.setFromAxisAngle (Vector3.mk 1 0 0) (5.1 * PI / 180))))
  /\ moon (animate_moon app)
     = Some (Object3D.mk (Object3D.position mn0)
               (Quaternion.setFromUnitVectors (Vector3.mk 0 0 1)
                  (Vector3.normalize
                     (Vector3.sub (Vector3.mk 0 0 0) (Object3D.position mn0))))).
Proof.
  intros H1 H2. unfold animate_moon. rewrite H1, H2. split; reflexivity.
Qed.

Lemma updateScene_moon (app : App) (mn0 mg0 : Object3D.t) :
  moon app = Some mn0 -> moonGroup app = Some mg0 ->
  moonGroup (updateScene app)
  = Some (Object3D.mk (Object3D.position mg0)
            (Quaternion.multiply
               (Quaternion.multiply
                  (Quaternion.setFromEuler (Euler.mk 0 0 0))
                  (Quaternion.setFromAxisAngle (Vector3.mk 0 1 0)
                     (elapsedTime app
                      * (currentEarthRotationSpeed app / 365.25
                         * (365.25 / 27.32)))))
               (Quaternion.setFromAxisAngle (Vector3.mk 1 0 0) (5.1 * PI / 180))))
  /\ moon (updateScene app)
     = Some (Object3D.mk (Object3D.position mn0)
               (Quaternion.setFromUnitVectors (Vector3.mk 0 0 1)
                  (Vector3.normalize
                     (Vector3.sub (Vector3.mk 0 0 0) (Object3D.position mn0))))).
Proof.
  intros H1 H2.
  destruct (animate_sun_reads app)
    as (Ht & Hs & _ & _ & _ & _ & _ & _ & Hmn & Hmg & _).
  destruct (animate_earth_reads (animate_sun app))
    as (Ht' & Hs' & _ & Hmn' & Hmg' & _).
  unfold updateScene.
  rewrite animate_atmosphere_writes; app_simpl.
  destruct (animate_moon_values (animate_earth (animate_sun app)) mn0 mg0)
    as [E1 E2]; try congruence.
  rewrite E1, E2, Ht', Ht.
  rewrite (currentEarthRotationSpeed_ext _ app) by congruence.
  split; reflexivity.
Qed.

(** The quaternion the frame gives the Moon: a quarter turn about the
    vertical axis, the same on every frame *)
Lemma moon_quaternion_value :
  Quaternion.setFromUnitVectors (Vector3.mk 0 0 1)
    (Vector3.normalize (Vector3.sub (Vector3.mk 0 0 0) (Vector3.mk 5 0 0)))
  = Quaternion.mk 0 (- / sqrt 2) 0 (/ sqrt 2).
Proof.
  assert (Hl : Vector3.length (Vector3.sub (Vector3.mk 0 0 0) (Vector3.mk 5 0 0))
               = 5) by (apply length_eq; cbn; lra).
  destruct (normalize_nonzero
              (Vector3.sub (Vector3.mk 0 0 0) (Vector3.mk 5 0 0))) as [En _];
    [lra |].
  rewrite En, Hl. clear En Hl.
  unfold Quaternion.setFromUnitVectors, Vector3.dot.
  cbn [Vector3.sub Vector3.multiplyScalar Vector3.x Vector3.y Vector3.z].
  pose proof EPSILON_lt_1 as He.
  destruct (Rlt_dec _ Quaternion.EPSILON) as [Hr | _]; [lra |].
  match goal with
  | |- Quaternion.normalize ?q = _ =>
      assert (Eq : q = Quaternion.mk 0 (-1) 0 1)
        by (apply Quaternion_eq; cbn; lra);
      rewrite Eq; clear Eq
  end.
  assert (H2 : sqrt 2 * sqrt 2 = 2) by (apply sqrt_sqrt; lra).
  assert (H2p : 0 < sqrt 2) by (apply sqrt_lt_R0; lra).
  assert (Hq : Quaternion.length (Quaternion.mk 0 (-1) 0 1) = sqrt 2).
  { unfold Quaternion.length.
    cbn [Quaternion.x Quaternion.y Quaternion.z Quaternion.w].
    f_equal. lra. }
  rewrite Quaternion_normalize_nonzero by (rewrite Hq; exact H2p).
  rewrite Hq. apply Quaternion_eq; cbn; field; lra.
Qed.

(** That quaternion has unit length and turns the Moon's +Z axis onto -X, the
    direction of the origin of its parent seen from [(5, 0, 0)] *)
Lemma moon_quaternion_turns_Z :
  unit (Quaternion.mk 0 (- / sqrt 2) 0 (/ sqrt 2))
  /\ Quaternion.applyQuaternion (Vector3.mk 0 0 1)
       (Quaternion.mk 0 (- / sqrt 2) 0 (/ sqrt 2))
     = Vector3.mk (-1) 0 0.
Proof.
  assert (H2 : sqrt 2 * sqrt 2 = 2) by (apply sqrt_sqrt; lra).
  assert (H2p : 0 < sqrt 2) by (apply sqrt_lt_R0; lra).
  split.
  - unfold unit; cbn. field_simplify; [| lra]. rewrite pow2_sqrt by lra. lra.
  - apply Vector3_eq; cbn; field_simplify; try lra;
      rewrite ?pow2_sqrt by lra; lra.
Qed.

(** The orientation the frame gives a group is a unit quaternion *)
Lemma frame_quaternion_unit (axis1 axis2 : Vector3.t) (angle1 angle2 : R) :
  Vector3.x axis1 * Vector3.x axis1 + Vector3.y axis1 * Vector3.y axis1
  + Vector3.z axis1 * Vector3.z axis1 = 1 ->
  Vector3.x axis2 * Vector3.x axis2 + Vector3.y axis2 * Vector3.y axis2
  + Vector3.z axis2 * Vector3.z axis2 = 1 ->
  unit (Quaternion.multiply
          (Quaternion.multiply (Quaternion.setFromEuler (Euler.mk 0 0 0))
             (Quaternion.setFromAxisAngle axis1 angle1))
          (Quaternion.setFromAxisAngle axis2 angle2)).
Proof.
  intros H1 H2. rewrite setFromEuler_zero.
  apply unit_multiply; [apply unit_multiply |].
  - apply unit_identity.
  - apply unit_setFromAxisAngle; exact H1.
  - apply unit_setFromAxisAngle; exact H2.
Qed.

(** Tidal locking in any pair of unit-quaternion parent frames: a moon at
    [(5, 0, 0)] of a group centred on the Earth, turned by the frame's
    quaternion, points its +Z axis at the Earth *)
Lemma locked_in_parent_frames (eg mg : Object3D.t) :
  unit (Object3D.quaternion eg) -> unit (Object3D.quaternion mg) ->
  Object3D.position mg = Vector3.zero ->
  let mn := Object3D.mk (Vector3.mk 5 0 0)
              (Quaternion.mk 0 (- / sqrt 2) 0 (/ sqrt 2)) in
  let toEarth :=
    Vector3.normalize
      (Vector3.sub (earthWorldPosition eg) (moonWorldPosition eg mg mn)) in
  moonWorldDirection eg mg mn (Vector3.mk 0 0 1) = toEarth
  /\ Vector3.length toEarth = 1
  /\ Vector3.length
       (Vector3.sub (earthWorldPosition eg) (moonWorldPosition eg mg mn)) = 5.
Proof.
  intros Ueg Umg Hpos mn toEarth.
  destruct moon_quaternion_turns_Z as [_ Hz].
  set (X := Quaternion.applyQuaternion
              (Quaternion.applyQuaternion (Vector3.mk 5 0 0)
                 (Object3D.quaternion mg))
              (Object3D.quaternion eg)).
  assert (HX : Vector3.length X = 5).
  { unfold X. rewrite !applyQuaternion_length by assumption.
    apply length_eq; cbn; lra. }
  assert (Hd : Vector3.sub (earthWorldPosition eg) (moonWorldPosition eg mg mn)
               = Vector3.multiplyScalar X (-1)).
  { unfold earthWorldPosition, moonWorldPosition, toParent.
    rewrite Hpos. cbn [mn Object3D.position].
    replace (Vector3.add
               (Quaternion.applyQuaternion (Vector3.mk 5 0 0)
                  (Object3D.quaternion mg)) Vector3.zero)
      with (Quaternion.applyQuaternion (Vector3.mk 5 0 0)
              (Object3D.quaternion mg))
      by (apply Vector3_eq; cbn; ring).
    fold X. apply Vector3_eq; cbn; ring. }
  assert (Hl : Vector3.length (Vector3.multiplyScalar X (-1)) = 5).
  { apply length_eq; [lra |].
    pose proof (length_square X) as Hs. rewrite HX in Hs.
    cbn [Vector3.multiplyScalar Vector3.x Vector3.y Vector3.z]. nra. }
  destruct (normalize_nonzero (Vector3.multiplyScalar X (-1))) as [En Hn];
    [lra |].
  subst toEarth. rewrite Hd. split; [| split; [exact Hn | exact Hl]].
  rewrite En, Hl.
  unfold moonWorldDirection, directionToParent. cbn [mn Object3D.quaternion].
  rewrite Hz.
  replace (Vector3.mk (-1) 0 0)
    with (Vector3.multiplyScalar (Vector3.mk 5 0 0) (- (1 / 5)))
    by (apply Vector3_eq; cbn; lra).
  rewrite !applyQuaternion_multiplyScalar. fold X.
  apply Vector3_eq; cbn; lra.
Qed.

(** C2. After every frame, whatever the elapsed time and the speed, the Moon's
    local +Z axis, carried to world space through [moonGroup] and
    [earthGroup], is the unit vector from the Moon's world position to the
    Earth's.  The Moon's quaternion is the one [setFromUnitVectors] builds
    from [(0, 0, 1)] to the normalized vector from the Moon to the origin of
    its orbit; it is the same quaternion on every frame, so the Moon has no
    spin of its own. *)
Theorem moon_tidally_locked (now : R) (app : App)
  (e0 c0 : Mesh.t) (g0 mg0 mn0 : Object3D.t) :
  earth app = Some e0 -> clouds app = Some c0 -> earthGroup app = Some g0 ->
  moonGroup app = Some mg0 -> moon app = Some mn0 ->
  Object3D.position mg0 = Vector3.zero ->
  Object3D.position mn0 = Vector3.mk 5 0 0 ->
  exists earthGroup' moonGroup' moon',
    earthGroup (animate now app) = Some earthGroup'
    /\ moonGroup (animate now app) = Some moonGroup'
    /\ moon (animate now app) = Some moon'
    /\ let earthPosition := earthWorldPosition earthGroup' in
       let moonPosition := moonWorldPosition earthGroup' moonGroup' moon' in
       let toEarth := Vector3.normalize (Vector3.sub earthPosition moonPosition) in
       moonWorldDirection earthGroup' moonGroup' moon' (Vector3.mk 0 0 1) = toEarth
       /\ Vector3.length toEarth = 1
       /\ Object3D.quaternion moon'
          = Quaternion.setFromUnitVectors (Vector3.mk 0 0 1)
              (Vector3.normalize
                 (Vector3.sub (Vector3.mk 0 0 0) (Object3D.position moon')))
       /\ Object3D.quaternion moon' = Quaternion.mk 0 (- / sqrt 2) 0 (/ sqrt 2).
Proof.
  intros H1 H2 H3 H4 H5 Hmg Hmn.
  rewrite animate_updateScene. set (app1 := set_elapsedTime _ _).
  destruct (updateScene_moon app1 mn0 mg0) as [E1 E2]; try assumption.
  rewrite (updateScene_earthGroup app1 e0 c0 g0), E1, E2 by assumption.
  rewrite Hmg, Hmn, moon_quaternion_value.
  do 3 eexists.
  split; [reflexivity | split; [reflexivity | split; [reflexivity |]]].
  match goal with
  | |- context [moonWorldPosition ?eg ?mg _] =>
      destruct (locked_in_parent_frames eg mg) as (L1 & L2 & _)
  end.
  - apply frame_quaternion_unit; cbn; ring.
  - apply frame_quaternion_unit; cbn; ring.
  - reflexivity.
  - cbn zeta. split; [exact L1 | split; [exact L2 |]].
    cbn [Object3D.position Object3D.quaternion].
    split; [symmetry; apply moon_quaternion_value | reflexivity].
Qed.

(** The statement above on the first frame of the constructed scene *)
Lemma moon_tidally_locked_witness :
  (earth constructed = Some Mesh.new /\ clouds constructed = Some Mesh.new
   /\ earthGroup constructed = Some Object3D.new
   /\ moonGroup constructed
      = Some (Object3D.rotateX Object3D.new (5.1 * PI / 180))
   /\ moon constructed = Some (Object3D.position_set Object3D.new 5 0 0)
   /\ Object3D.position (Object3D.rotateX Object3D.new (5.1 * PI / 180))
      = Vector3.zero
   /\ Object3D.position (Object3D.position_set Object3D.new 5 0 0)
      = Vector3.mk 5 0 0)
  /\ exists earthGroup' moonGroup' moon',
       earthGroup (animate 0 constructed) = Some earthGroup'
       /\ moonGroup (animate 0 constructed) = Some moonGroup'
       /\ moon (animate 0 constructed) = Some moon'
       /\ moonWorldDirection earthGroup' moonGroup' moon' (Vector3.mk 0 0 1)
          = Vector3.normalize
              (Vector3.sub (earthWorldPosition earthGroup')
                 (moonWorldPosition earthGroup' moonGroup' moon')).
Proof.
  split.
  - repeat split.
  - destruct (moon_tidally_locked 0 constructed Mesh.new Mesh.new Object3D.new
                (Object3D.rotateX Object3D.new (5.1 * PI / 180))
                (Object3D.position_set Object3D.new 5 0 0)
                eq_refl eq_refl eq_refl eq_refl eq_refl eq_refl eq_refl)
      as (eg & mg & mn & Heg & Hmg & Hmn & Hz & _).
    exists eg, mg, mn. repeat split; assumption.
Defined.

(** ** C10: the inclination handler and the frame *)

(** The quaternion both pieces of code build for [moonGroup]: reset, turn
    about Y by [alpha], then about X by [beta].  It turns a vector as the
    product of the two rotation matrices does. *)
Lemma rotateY_rotateX_action (alpha beta : R) (v : Vector3.t) :
  Quaternion.applyQuaternion v
    (Quaternion.multiply
       (Quaternion.multiply (Quaternion.setFromEuler (Euler.mk 0 0 0))
          (Quaternion.setFromAxisAngle (Vector3.mk 0 1 0) alpha))
       (Quaternion.setFromAxisAngle (Vector3.mk 1 0 0) beta))
  = let x1 := Vector3.x v in
    let y1 := Vector3.y v * cos beta - Vector3.z v * sin beta in
    let z1 := Vector3.y v * sin beta + Vector3.z v * cos beta in
    Vector3.mk (x1 * cos alpha + z1 * sin alpha) y1
               (- x1 * sin alpha + z1 * cos alpha).
Proof.
  rewrite setFromEuler_zero, multiply_identity_l.
  replace (cos alpha) with (cos (2 * (alpha / 2))) by (f_equal; field).
  replace (sin alpha) with (sin (2 * (alpha / 2))) by (f_equal; field).
  replace (cos beta) with (cos (2 * (beta / 2))) by (f_equal; field).
  replace (sin beta) with (sin (2 * (beta / 2))) by (f_equal; field).
  rewrite !cos_2a, !sin_2a.
  pose proof (sin2_cos2 (alpha / 2)) as Ha. unfold Rsqr in Ha.
  pose proof (sin2_cos2 (beta / 2)) as Hb. unfold Rsqr in Hb.
  unfold Quaternion.setFromAxisAngle.
  set (sa := sin (alpha / 2)) in *. set (ca := cos (alpha / 2)) in *.
  set (sb := sin (beta / 2)) in *. set (cb := cos (beta / 2)) in *.
  clearbody sa ca sb cb.
  destruct v as [vx vy vz].
  apply Vector3_eq;
    cbn [Quaternion.applyQuaternion Quaternion.multiply Quaternion.x
         Quaternion.y Quaternion.z Quaternion.w Vector3.x Vector3.y Vector3.z];
    nsatz.
Qed.

(** Two angles with the same cosine and sine differ by whole turns *)
Lemma same_cos_sin_iff (x y : R) :
  (cos x = cos y /\ sin x = sin y) <-> exists k : Z, x - y = 2 * IZR k * PI.
Proof.
  split.
  - intros [Hc Hs].
    assert (H1 : cos (x - y) = 1).
    { rewrite cos_minus, Hc, Hs.
      pose proof (sin2_cos2 y) as H. unfold Rsqr in H. lra. }
    assert (H0 : sin ((x - y) / 2) = 0).
    { pose proof (cos_2a_sin ((x - y) / 2)) as H.
      replace (2 * ((x - y) / 2)) with (x - y) in H by field.
      rewrite H1 in H. nra. }
    destruct (sin_eq_0_0 _ H0) as [k Hk]. exists k. lra.
  - intros [k Hk].
    assert (E : x = y + 2 * IZR k * PI) by lra.
    assert (P : forall (u : R) (n : nat),
               cos (u + 2 * INR n * PI) = cos u
               /\ sin (u + 2 * INR n * PI) = sin u)
      by (intros u n; split; [apply cos_period | apply sin_period]).
    destruct (Z_le_gt_dec 0 k) as [Hk0 | Hk0].
    + destruct (P y (Z.to_nat k)) as [Pc Ps].
      rewrite INR_IZR_INZ, Z2Nat.id in Pc, Ps by lia.
      rewrite E. split; assumption.
    + destruct (P x (Z.to_nat (- k))) as [Pc Ps].
      rewrite INR_IZR_INZ, Z2Nat.id, opp_IZR in Pc, Ps by lia.
      replace (x + 2 * - IZR k * PI) with y in Pc, Ps by lra.
      split; congruence.
Qed.

(** When two such quaternions turn every vector the same way *)
Lemma sameRotation_rotateY_rotateX (alpha beta alpha' beta' : R) :
  sameRotation
    (Quaternion.multiply
       (Quaternion.multiply (Quaternion.setFromEuler (Euler.mk 0 0 0))
          (Quaternion.setFromAxisAngle (Vector3.mk 0 1 0) alpha))
       (Quaternion.setFromAxisAngle (Vector3.mk 1 0 0) beta))
    (Quaternion.multiply
       (Quaternion.multiply (Quaternion.setFromEuler (Euler.mk 0 0 0))
          (Quaternion.setFromAxisAngle (Vector3.mk 0 1 0) alpha'))
       (Quaternion.setFromAxisAngle (Vector3.mk 1 0 0) beta'))
  <-> (cos alpha = cos alpha' /\ sin alpha = sin alpha')
      /\ (cos beta = cos beta' /\ sin beta = sin beta').
Proof.
  unfold sameRotation. split.
  - intros H.
    pose proof (H (Vector3.mk 1 0 0)) as Hx.
    pose proof (H (Vector3.mk 0 1 0)) as Hy.
    rewrite !rotateY_rotateX_action in Hx, Hy.
    cbn [Vector3.x Vector3.y Vector3.z] in Hx, Hy.
    injection Hx as Hx1 Hx3. injection Hy as Hy1 Hy2 Hy3.
    pose proof (sin2_cos2 alpha') as Ha. unfold Rsqr in Ha.
    assert (Hca : cos alpha = cos alpha') by lra.
    assert (Hsa : sin alpha = sin alpha') by lra.
    assert (Hcb : cos beta = cos beta') by lra.
    rewrite Hca, Hsa in *.
    repeat split; try assumption.
    set (sb := sin beta) in *. set (sb' := sin beta') in *.
    set (s := sin alpha') in *. set (c := cos alpha') in *.
    clearbody sb sb' s c.
    assert (E1 : (sb - sb') * s * s = 0)
      by (replace ((sb - sb') * s) with 0 by lra; ring).
    assert (E2 : (sb - sb') * c * c = 0)
      by (replace ((sb - sb') * c) with 0 by lra; ring).
    assert (E3 : sb - sb' = (sb - sb') * s * s + (sb - sb') * c * c)
      by (transitivity ((sb - sb') * (s * s + c * c)); [rewrite Ha; ring | ring]).
    lra.
  - intros [[Hca Hsa] [Hcb Hsb]] v.
    rewrite !rotateY_rotateX_action, Hca, Hsa, Hcb, Hsb. reflexivity.
Qed.

(** What the inclination handler writes *)
Lemma moonOrbitInclination_onChange_moonGroup (value : R) (app : App)
  (mg0 : Object3D.t) :
  moonGroup app = Some mg0 ->
  moonGroup (moonOrbitInclination_onChange value app)
  = Some (Object3D.mk (Object3D.position mg0)
            (Quaternion.multiply
               (Quaternion.multiply
                  (Quaternion.setFromEuler (Euler.mk 0 0 0))
                  (Quaternion.setFromAxisAngle (Vector3.mk 0 1 0)
                     (elapsedTime app * (0.2 * (365.25 / 27.32)))))
               (Quaternion.setFromAxisAngle (Vector3.mk 1 0 0)
                  (value * PI / 180)))).
Proof.
  intros H. unfold moonOrbitInclination_onChange. rewrite H. reflexivity.
Qed.

(** Two inclinations of the slider's range give the same tilt only if they
    are equal *)
Lemma same_inclination (value value' : R) :
  0 <= value <= 10 -> 0 <= value' <= 10 ->
  cos (value * PI / 180) = cos (value' * PI / 180) ->
  sin (value * PI / 180) = sin (value' * PI / 180) ->
  value = value'.
Proof.
  intros Hv Hv' Hc Hs.
  destruct (proj1 (same_cos_sin_iff _ _) (conj Hc Hs)) as [k Hk].
  pose proof PI_RGT_0 as Hpi.
  assert (E : PI * (value - value' - 360 * IZR k) = 0) by lra.
  apply Rmult_integral in E. destruct E as [E | E]; [lra |].
  assert (Hlo : IZR (-1) < IZR k) by lra.
  assert (Hhi : IZR k < IZR 1) by lra.
  apply lt_IZR in Hlo, Hhi.
  assert (k = 0%Z) by lia. subst k. lra.
Qed.

(** The rotation the handler sets and the rotation the frame computes, at the
    same elapsed time: they agree exactly when the inclination is the frame's
    own 5.1 degrees and the two orbital angles differ by whole turns *)
Lemma handler_frame_sameRotation_iff (t speed value : R) :
  0 <= value <= 10 ->
  sameRotation
    (Quaternion.multiply
       (Quaternion.multiply (Quaternion.setFromEuler (Euler.mk 0 0 0))
          (Quaternion.setFromAxisAngle (Vector3.mk 0 1 0)
             (t * (0.2 * (365.25 / 27.32)))))
       (Quaternion.setFromAxisAngle (Vector3.mk 1 0 0) (value * PI / 180)))
    (Quaternion.multiply
       (Quaternion.multiply (Quaternion.setFromEuler (Euler.mk 0 0 0))
          (Quaternion.setFromAxisAngle (Vector3.mk 0 1 0)
             (t * (speed / 365.25 * (365.25 / 27.32)))))
       (Quaternion.setFromAxisAngle (Vector3.mk 1 0 0) (5.1 * PI / 180)))
  <-> value = 5.1
      /\ exists k : Z,
           t * (0.2 * (365.25 / 27.32)) - t * (speed / 365.25 * (365.25 / 27.32))
           = 2 * IZR k * PI.
Proof.
  intros Hv. rewrite sameRotation_rotateY_rotateX, same_cos_sin_iff.
  split.
  - intros [Hk [Hc Hs]]. split; [| exact Hk].
    apply same_inclination; try assumption; lra.
  - intros [-> Hk]. split; [exact Hk | split; reflexivity].
Qed.

(** C10, on the code.  On the constructed scene the elapsed time is 0, so the
    two orbital angles agree; the handler called with inclination 0 leaves
    [moonGroup] untilted while the frame tilts it by 5.1 degrees. *)
Lemma inclination_handler_differs_at_time_zero :
  exists qh qf,
    moonGroup (moonOrbitInclination_onChange 0 constructed)
    = Some (Object3D.mk Vector3.zero qh)
    /\ moonGroup (updateScene constructed) = Some (Object3D.mk Vector3.zero qf)
    /\ elapsedTime constructed
       * (0.2 - currentEarthRotationSpeed constructed / 365.25)
       = 2 * IZR 0 * PI
    /\ ~ sameRotation qh qf.
Proof.
  do 2 eexists.
  split; [| split; [| split]].
  - exact (moonOrbitInclination_onChange_moonGroup 0 constructed
             (Object3D.rotateX Object3D.new (5.1 * PI / 180)) eq_refl).
  - exact (proj1 (updateScene_moon constructed
                    (Object3D.position_set Object3D.new 5 0 0)
                    (Object3D.rotateX Object3D.new (5.1 * PI / 180))
                    eq_refl eq_refl)).
  - cbn [constructed elapsedTime]. lra.
  - rewrite handler_frame_sameRotation_iff by lra. intros [H _]. lra.
Qed.

(** C10, amended.  The inclination handler turns [moonGroup] about Y by elapsed
    time times the Moon rate derived from a hardcoded Earth orbital rate of
    0.2 (the rate of [earthRotationSpeed = 73.05]) and tilts it by the slider's
    inclination; the frame uses the rate derived from the current
    [earthRotationSpeed] and a hardcoded inclination of 5.1 degrees.  For every
    elapsed time and every inclination of the slider's range, the rotation the
    handler sets is the rotation the frame computes if and only if the
    inclination is 5.1 and the two Moon orbital angles differ by a multiple of
    [2 PI]; this is the case when the inclination is 5.1 and
    [earthRotationSpeed = 73.05]. *)
Theorem inclination_handler_vs_frame (value : R) (app : App)
  (mg0 mn0 : Object3D.t) :
  moonGroup app = Some mg0 -> moon app = Some mn0 -> 0 <= value <= 10 ->
  let t := elapsedTime app in
  let handlerAngle := t * (0.2 * (365.25 / 27.32)) in
  let frameAngle :=
    t * (currentEarthRotationSpeed app / 365.25 * (365.25 / 27.32)) in
  exists qh qf,
    moonGroup (moonOrbitInclination_onChange value app)
    = Some (Object3D.mk (Object3D.position mg0) qh)
    /\ moonGroup (updateScene app) = Some (Object3D.mk (Object3D.position mg0) qf)
    /\ qh = Quaternion.multiply
              (Quaternion.multiply (Quaternion.setFromEuler (Euler.mk 0 0 0))
                 (Quaternion.setFromAxisAngle (Vector3.mk 0 1 0) handlerAngle))
              (Quaternion.setFromAxisAngle (Vector3.mk 1 0 0) (value * PI / 180))
    /\ qf = Quaternion.multiply
              (Quaternion.multiply (Quaternion.setFromEuler (Euler.mk 0 0 0))
                 (Quaternion.setFromAxisAngle (Vector3.mk 0 1 0) frameAngle))
              (Quaternion.setFromAxisAngle (Vector3.mk 1 0 0) (5.1 * PI / 180))
    /\ (sameRotation qh qf
        <-> value = 5.1
            /\ exists k : Z, handlerAngle - frameAngle = 2 * IZR k * PI)
    /\ (value = 5.1 -> currentEarthRotationSpeed app = 73.05 ->
        sameRotation qh qf).
Proof.
  intros Hmg Hmn Hv t handlerAngle frameAngle.
  do 2 eexists.
  split; [| split; [| split; [| split; [| split]]]].
  - exact (moonOrbitInclination_onChange_moonGroup value app mg0 Hmg).
  - exact (proj1 (updateScene_moon app mn0 mg0 Hmn Hmg)).
  - reflexivity.
  - reflexivity.
  - apply handler_frame_sameRotation_iff; exact Hv.
  - intros E1 E2. apply handler_frame_sameRotation_iff; [exact Hv |].
    split; [exact E1 |]. exists 0%Z. rewrite E2. lra.
Qed.

(** The statement above on the constructed scene, for the inclination 5.1 *)
Lemma inclination_handler_vs_frame_witness :
  (moonGroup constructed = Some (Object3D.rotateX Object3D.new (5.1 * PI / 180))
   /\ moon constructed = Some (Object3D.position_set Object3D.new 5 0 0)
   /\ 0 <= 5.1 <= 10)
  /\ exists qh qf,
       moonGroup (moonOrbitInclination_onChange 5.1 constructed)
       = Some (Object3D.mk Vector3.zero qh)
       /\ moonGroup (updateScene constructed) = Some (Object3D.mk Vector3.zero qf)
       /\ (sameRotation qh qf
           <-> 5.1 = 5.1
               /\ exists k : Z,
                    elapsedTime constructed * (0.2 * (365.25 / 27.32))
                    - elapsedTime constructed
                      * (currentEarthRotationSpeed constructed / 365.25
                         * (365.25 / 27.32))
                    = 2 * IZR k * PI).
Proof.
  split.
  - split; [reflexivity | split; [reflexivity | lra]].
  - destruct (inclination_handler_vs_frame 5.1 constructed
                (Object3D.rotateX Object3D.new (5.1 * PI / 180))
                (Object3D.position_set Object3D.new 5 0 0)
                eq_refl eq_refl)
      as (qh & qf & Hh & Hf & _ & _ & Hiff & _); [lra |].
    exists qh, qf. split; [exact Hh | split; [exact Hf | exact Hiff]].
Defined.

(** ** C5: one frame, one result *)

(** Names the objects of a well-formed scene and puts them in place *)
Ltac wellFormed_fields H app :=
  let sc := fresh "sc" in
  let mc := fresh "mc" in
  let ys := fresh "ys" in
  let ye := fresh "ye" in
  let yc := fresh "yc" in
  let g := fresh "g" in
  let ax := fresh "ax" in
  let u := fresh "u" in
  let l1 := fresh "l1" in
  let l2 := fresh "l2" in
  let mg := fresh "mg" in
  let mn := fresh "mn" in
  let mf := fresh "mf" in
  let E := fresh "E" in
  let P := fresh "P" in
  destruct H as ((sc & E) & H); destruct app; cbn in E; subst;
  destruct H as ((mc & E) & H); cbn in E; subst;
  destruct H as ((ys & E) & H); cbn in E; subst;
  destruct H as ((ye & E) & H); cbn in E; subst;
  destruct H as ((yc & E) & H); cbn in E; subst;
  destruct H as ((g & E) & H); cbn in E; subst;
  destruct H as ((ax & E & P) & H); cbn in E; subst;
  destruct ax; cbn in P; subst;
  destruct H as ((u & E) & H); cbn in E; subst;
  destruct H as ((l1 & E) & H); cbn in E; subst;
  destruct H as ((l2 & E) & H); cbn in E; subst;
  destruct H as ((mg & E & P) & H); cbn in E; subst;
  destruct mg; cbn in P; subst;
  destruct H as ((mn & E & P) & H); cbn in E; subst;
  destruct mn; cbn in P; subst;
  destruct H as (mf & E); cbn in E; subst.

(** The scene update of a well-formed scene depends on the elapsed time and
    the speed only *)
Lemma updateScene_transforms (a b : App) :
  wellFormed a -> wellFormed b ->
  elapsedTime a = elapsedTime b ->
  currentEarthRotationSpeed a = currentEarthRotationSpeed b ->
  transforms (updateScene a) = transforms (updateScene b).
Proof.
  intros Ha Hb.
  wellFormed_fields Ha a. wellFormed_fields Hb b.
  cbn [elapsedTime currentEarthRotationSpeed speedControls].
  intros -> E.
  destruct sc as [v1 p1], sc0 as [v2 p2]. cbn [earthRotationSpeed] in E. subst v2.
  reflexivity.
Qed.

(** Runs a frame or a GUI event on a scene whose objects are known *)
Ltac scene_compute :=
  cbv beta iota zeta delta
    [step animate updateScene animate_sun animate_earth animate_moon
     animate_atmosphere currentEarthRotationSpeed Clock.getElapsedTime
     speedRotationControl_input resetSpeeds pauseAnimation_input
     pauseAnimation_onChange atmosphereIntensity_input
     moonOrbitInclination_input moonOrbitInclination_onChange
     set_clock set_elapsedTime set_speedControls set_moonOrbitControls set_sun
     set_earthGroup set_earth set_clouds set_earthAxis set_atmosphere
     set_sunDirectionalLight set_secondDirectionalLight set_moonGroup set_moon
     set_moonFaceMark
     clock elapsedTime speedControls moonOrbitControls sun earthGroup earth
     clouds earthAxis atmosphere sunDirectionalLight secondDirectionalLight
     moonGroup moon moonFaceMark transforms constructed
     Mesh.new Mesh.position_set Mesh.rotation_set Mesh.set_rotation_y
     Mesh.position Mesh.rotation Euler.set_y Euler.x Euler.y Euler.z
     Object3D.new Object3D.position_set Object3D.rotation_set
     Object3D.quaternion_copy Object3D.rotateOnAxis Object3D.rotateX
     Object3D.rotateY Object3D.rotateZ Object3D.position Object3D.quaternion].

(** Builds a well-formed scene field by field *)
Ltac wellFormed_build :=
  unfold wellFormed; scene_compute;
  repeat match goal with
         | |- _ /\ _ => split
         | |- exists _, _ => eexists
         end;
  reflexivity.

Lemma wellFormed_constructed : wellFormed constructed.
Proof. wellFormed_build. Qed.

(** No frame and no GUI event takes a well-formed scene out of shape *)
Lemma wellFormed_step (app : App) (e : Event) :
  wellFormed app -> wellFormed (step app e).
Proof.
  intros H.
  destruct e as [now | value | | now value | value | value].
  - wellFormed_fields H app. wellFormed_build.
  - wellFormed_fields H app. wellFormed_build.
  - wellFormed_fields H app. wellFormed_build.
  - unfold step, pauseAnimation_setValue.
    destruct (speedControls app) as [sc |]; [| exact H].
    destruct (Bool.eqb _ _); [exact H |].
    wellFormed_fields H app. destruct value; wellFormed_build.
  - wellFormed_fields H app. wellFormed_build.
  - unfold step, moonOrbitInclination_input.
    destruct (moonOrbitControls app) as [mc |]; [| exact H].
    cbn zeta. destruct (Req_dec_T _ _); [exact H |].
    wellFormed_fields H app. wellFormed_build.
Qed.

Lemma Reachable_wellFormed (app : App) : Reachable app -> wellFormed app.
Proof.
  induction 1 as [| app e _ IH].
  - apply wellFormed_constructed.
  - apply wellFormed_step; exact IH.
Qed.

(** C5. Take any two states the application can be in, however they were
    reached, and run a frame in each.  If the two frames read the same elapsed
    time and the same rotation speed, they hand the renderer the same position
    and orientation for every body and every light: nothing else the earlier
    frames or GUI events left behind enters the result. *)
Theorem frame_deterministic (now1 now2 : R) (app1 app2 : App) :
  Reachable app1 -> Reachable app2 ->
  elapsedTime (animate now1 app1) = elapsedTime (animate now2 app2) ->
  currentEarthRotationSpeed app1 = currentEarthRotationSpeed app2 ->
  transforms (animate now1 app1) = transforms (animate now2 app2).
Proof.
  intros R1 R2 Ht Hs.
  rewrite !animate_elapsedTime in Ht. rewrite !animate_updateScene.
  apply updateScene_transforms.
  - exact (Reachable_wellFormed _ R1).
  - exact (Reachable_wellFormed _ R2).
  - exact Ht.
  - exact Hs.
Qed.

(** The inclination slider leaves the clock and the speed alone *)
Lemma moonOrbitInclination_input_reads (value : R) (app : App) :
  clock (moonOrbitInclination_input value app) = clock app
  /\ speedControls (moonOrbitInclination_input value app) = speedControls app.
Proof.
  unfold moonOrbitInclination_input, moonOrbitInclination_onChange.
  destruct (moonOrbitControls app); [| split; reflexivity].
  cbn zeta. destruct (Req_dec_T _ _); [split; reflexivity |].
  app_simpl. destruct (moonGroup app); split; reflexivity.
Qed.

(** The statement above for the constructed scene and the scene after the
    inclination slider has been moved to 7, at two different wall-clock times *)
Lemma frame_deterministic_witness :
  (Reachable constructed
   /\ Reachable (step constructed (InclinationInput 7))
   /\ elapsedTime (animate 3 constructed)
      = elapsedTime (animate 5 (step constructed (InclinationInput 7)))
   /\ currentEarthRotationSpeed constructed
      = currentEarthRotationSpeed (step constructed (InclinationInput 7)))
  /\ transforms (animate 3 constructed)
     = transforms (animate 5 (step constructed (InclinationInput 7))).
Proof.
  assert (R1 : Reachable constructed) by constructor.
  assert (R2 : Reachable (step constructed (InclinationInput 7)))
    by (constructor; constructor).
  assert (Ht : elapsedTime (animate 3 constructed)
               = elapsedTime (animate 5 (step constructed (InclinationInput 7))))
    by (rewrite !animate_elapsedTime; unfold step;
        rewrite (proj1 (moonOrbitInclination_input_reads 7 constructed));
        scene_compute;
        cbv [Clock.getDelta Clock.new Clock.start Clock.autoStart Clock.running
             andb negb Clock.elapsedTime];
        reflexivity).
  assert (Hs : currentEarthRotationSpeed constructed
               = currentEarthRotationSpeed (step constructed (InclinationInput 7)))
    by (unfold currentEarthRotationSpeed, step;
        rewrite (proj2 (moonOrbitInclination_input_reads 7 constructed));
        reflexivity).
  split.
  - repeat split; assumption.
  - exact (frame_deterministic 3 5 constructed
             (step constructed (InclinationInput 7)) R1 R2 Ht Hs).
Defined.


(** * Further properties *)

(** ** The clock across frames *)

(** After a frame the clock either runs or is stopped for good *)
Lemma getDelta_state (now : R) (c : Clock.t) :
  Clock.running (Clock.getDelta now c) = true
  \/ (Clock.running (Clock.getDelta now c) = false
      /\ Clock.autoStart (Clock.getDelta now c) = false).
Proof.
  unfold Clock.getDelta, Clock.start.
  destruct c as [[|] st ot et [|]]; cbn; auto.
Qed.

(** Between two frames with no event in between the elapsed time grows by
    the wall-clock time that passed, in seconds, if the clock runs, and stays
    the same if it is stopped; it never goes back. *)
Theorem elapsed_time_advances (now1 now2 : R) (app : App) :
  now1 <= now2 ->
  let a1 := animate now1 app in
  let a2 := animate now2 a1 in
  elapsedTime a1 <= elapsedTime a2
  /\ (Clock.running (clock a1) = true ->
      elapsedTime a2 = elapsedTime a1 + (now2 - now1) / 1000)
  /\ (Clock.running (clock a1) = false -> elapsedTime a2 = elapsedTime a1).
Proof.
  intros Hle a1 a2. subst a1 a2.
  rewrite !animate_elapsedTime, !animate_clock.
  unfold Clock.getDelta, Clock.start.
  destruct (clock app) as [[|] st ot et [|]];
    cbn [Clock.autoStart Clock.running Clock.elapsedTime Clock.oldTime
         Clock.startTime andb negb];
    (split; [lra | split; intros H; try discriminate; lra]).
Qed.

Lemma elapsed_time_advances_witness :
  0 <= 500
  /\ elapsedTime (animate 500 (animate 0 constructed))
     = elapsedTime (animate 0 constructed) + (500 - 0) / 1000.
Proof.
  split; [lra |].
  apply (elapsed_time_advances 0 500 constructed); [lra |].
  rewrite animate_clock. reflexivity.
Defined.

(** The GUI events other than a change of the pause checkbox leave the clock
    alone *)
Lemma step_clock (app : App) (e : Event) :
  clock (step app e)
  = match e with
    | Frame now => Clock.getDelta now (clock app)
    | PauseInput now value =>
        match speedControls app with
        | Some sc =>
            if Bool.eqb (pauseAnimation sc) value then clock app
            else if value then Clock.stop now (clock app)
            else Clock.start now (clock app)
        | None => clock app
        end
    | _ => clock app
    end.
Proof.
  destruct e as [now | value | | now value | value | value]; cbn [step].
  - apply animate_clock.
  - unfold speedRotationControl_input. destruct (speedControls app); reflexivity.
  - unfold resetSpeeds. destruct (speedControls app); reflexivity.
  - unfold pauseAnimation_setValue.
    destruct (speedControls app) as [sc |] eqn:Hsc; [| reflexivity].
    destruct (Bool.eqb _ _); [reflexivity |].
    apply (pauseAnimation_input_clock now value app sc Hsc).
  - unfold atmosphereIntensity_input. destruct (atmosphere app); reflexivity.
  - apply moonOrbitInclination_input_reads.
Qed.

(** The speed every event leaves in the store *)
Lemma step_speedControls (app : App) (e : Event) :
  speedControls (step app e)
  = match speedControls app with
    | Some sc =>
        match e with
        | SpeedInput value =>
            Some (mkSpeedControls
                    (NumberController._snapClampSetValue speedRotationControl
                       value)
                    (pauseAnimation sc))
        | ResetSpeeds => Some (mkSpeedControls 1 (pauseAnimation sc))
        | PauseInput _ value =>
            Some (mkSpeedControls (earthRotationSpeed sc) value)
        | _ => Some sc
        end
    | None => None
    end.
Proof.
  destruct e as [now | value | | now value | value | value]; cbn [step].
  - rewrite animate_speedControls. destruct (speedControls app); reflexivity.
  - unfold speedRotationControl_input.
    destruct (speedControls app) eqn:E; [reflexivity | exact E].
  - unfold resetSpeeds.
    destruct (speedControls app) eqn:E; [reflexivity | exact E].
  - unfold pauseAnimation_setValue.
    destruct (speedControls app) as [sc |] eqn:E; [| exact E].
    destruct (Bool.eqb (pauseAnimation sc) value) eqn:B.
    + apply Bool.eqb_prop in B. rewrite E.
      destruct sc as [speed paused]. cbn [pauseAnimation] in B. subst value.
      reflexivity.
    + apply (pauseAnimation_input_speedControls now value app sc E).
  - unfold atmosphereIntensity_input.
    destruct (atmosphere app); app_simpl;
      destruct (speedControls app); reflexivity.
  - rewrite (proj2 (moonOrbitInclination_input_reads value app)).
    destruct (speedControls app); reflexivity.
Qed.

(** A stopped clock stays as it is under every event but a resume *)
Lemma stopped_clock_step (app : App) (e : Event) :
  Clock.running (clock app) = false -> Clock.autoStart (clock app) = false ->
  isResume e = false ->
  clock (step app e) = clock app.
Proof.
  intros Hr Ha He. rewrite step_clock.
  destruct (clock app) as [au st ot et ru]. cbn in Hr, Ha. subst au ru.
  destruct e as [now | value | | now value | value | value]; try reflexivity.
  destruct value; [| discriminate].
  destruct (speedControls app); [destruct (Bool.eqb _ _) |]; reflexivity.
Qed.

Lemma stopped_clock_steps (events : list Event) (app : App) :
  Clock.running (clock app) = false -> Clock.autoStart (clock app) = false ->
  List.Forall (fun e => isResume e = false) events ->
  clock (steps app events) = clock app.
Proof.
  revert app. induction events as [| e events IH]; intros app Hr Ha Hall.
  - reflexivity.
  - inversion Hall as [| ? ? He Hrest]; subst.
    unfold steps. cbn [List.fold_left]. fold (steps (step app e) events).
    pose proof (stopped_clock_step app e Hr Ha He) as E.
    rewrite IH; [exact E | rewrite E; exact Hr | rewrite E; exact Ha | exact Hrest].
Qed.

(** Once the pause checkbox is set, no run of frames, slider inputs, resets
    or further pauses changes the clock: a frame after any such run reads the
    elapsed time of the instant of the pause. *)
Theorem paused_time_is_frozen (now now' : R) (app : App) (sc : SpeedControls)
  (events : list Event) :
  speedControls app = Some sc ->
  List.Forall (fun e => isResume e = false) events ->
  let paused := pauseAnimation_input now true app in
  clock (steps paused events) = clock paused
  /\ elapsedTime (animate now' (steps paused events))
     = Clock.elapsedTime (Clock.getDelta now (clock app)).
Proof.
  intros Hsc Hall paused.
  assert (Hc : clock paused = Clock.stop now (clock app))
    by (exact (pauseAnimation_input_clock now true app sc Hsc)).
  assert (E : clock (steps paused events) = clock paused)
    by (apply stopped_clock_steps; [rewrite Hc | rewrite Hc | exact Hall];
        reflexivity).
  split; [exact E |].
  rewrite animate_elapsedTime, E, Hc. reflexivity.
Qed.

Lemma paused_time_is_frozen_witness :
  (speedControls constructed = Some (mkSpeedControls 1 false)
   /\ List.Forall (fun e => isResume e = false)
        (cons (Frame 2000) (cons (SpeedInput 50)
           (cons (PauseInput 3000 true) (cons (Frame 4000) nil)))))
  /\ elapsedTime
       (animate 5000
          (steps (pauseAnimation_input 1000 true constructed)
             (cons (Frame 2000) (cons (SpeedInput 50)
                (cons (PauseInput 3000 true) (cons (Frame 4000) nil))))))
     = Clock.elapsedTime (Clock.getDelta 1000 (clock constructed)).
Proof.
  assert (Hall : List.Forall (fun e => isResume e = false)
                   (cons (Frame 2000) (cons (SpeedInput 50)
                      (cons (PauseInput 3000 true) (cons (Frame 4000) nil)))))
    by (repeat constructor).
  split; [split; [reflexivity | exact Hall] |].
  exact (proj2 (paused_time_is_frozen 1000 5000 constructed
                  (mkSpeedControls 1 false) _ eq_refl Hall)).
Defined.

(** Clearing a set pause checkbox restarts the count: the handler calls
    [clock.start()], and the next frame reads the time since the checkbox
    was cleared, whatever the elapsed time was while the scene was paused.
    An input that leaves the checkbox set calls no handler and changes
    nothing. *)
Theorem resume_counts_from_zero (now now' : R) (app : App) (sc : SpeedControls) :
  speedControls app = Some sc -> pauseAnimation sc = true ->
  elapsedTime (animate now' (step app (PauseInput now false)))
  = (now' - now) / 1000
  /\ step app (PauseInput now true) = app.
Proof.
  intros H Hp. cbn [step]. unfold pauseAnimation_setValue. rewrite H, Hp.
  cbn [Bool.eqb]. split; [| reflexivity].
  rewrite animate_elapsedTime.
  rewrite (pauseAnimation_input_clock now false app sc H).
  apply started_clock_elapsedTime.
Qed.

(** The statement above on a scene that ran for ten seconds and was then
    paused: the paused scene shows 10; resumed at 16000 ms, the frame at
    16016 ms shows 0.016 *)
Lemma resume_counts_from_zero_witness :
  (speedControls
     (step (step (step constructed (Frame 1000)) (Frame 11000))
        (PauseInput 11000 true))
   = Some (mkSpeedControls 1 true)
   /\ pauseAnimation (mkSpeedControls 1 true) = true)
  /\ elapsedTime
       (animate 13000
          (step (step (step constructed (Frame 1000)) (Frame 11000))
             (PauseInput 11000 true))) = 10
  /\ elapsedTime
       (animate 16016
          (step
             (step (step (step constructed (Frame 1000)) (Frame 11000))
                (PauseInput 11000 true))
             (PauseInput 16000 false)))
     = (16016 - 16000) / 1000.
Proof.
  assert (S : speedControls
                (step (step (step constructed (Frame 1000)) (Frame 11000))
                   (PauseInput 11000 true))
              = Some (mkSpeedControls 1 true))
    by (rewrite !step_speedControls; reflexivity).
  split; [split; [exact S | reflexivity] |].
  split.
  - rewrite animate_elapsedTime, !step_clock, !step_speedControls.
    cbv beta iota zeta delta
      [constructed speedControls clock pauseAnimation earthRotationSpeed
       Bool.eqb Clock.stop Clock.getElapsedTime Clock.getDelta Clock.start
       Clock.new Clock.autoStart Clock.running Clock.elapsedTime
       Clock.oldTime Clock.startTime andb negb fst snd].
    lra.
  - exact (proj1 (resume_counts_from_zero 16000 16016 _
                    (mkSpeedControls 1 true) S eq_refl)).
Defined.

(** ** The shape of the orbit *)

Section OrbitShape.

Variables a e : R.
Hypothesis a_pos : 0 < a.
Hypothesis e_range : 0 <= e < 1.

(** The polar radius lies between the perihelion and aphelion distances *)
Lemma orbit_radius_bounds (theta : R) :
  a * (1 - e) <= a * (1 - e * e) / (1 + e * cos theta) <= a * (1 + e).
Proof.
  pose proof (COS_bound theta) as [Hlo Hhi].
  assert (HD : 0 < 1 + e * cos theta) by nra.
  assert (E : a * (1 - e * e) / (1 + e * cos theta) * (1 + e * cos theta)
              = a * (1 - e * e)) by (field; lra).
  assert (H1 : 0 <= a * (1 - e) * (e - e * cos theta))
    by (apply Rmult_le_pos; nra).
  assert (H2 : 0 <= a * (1 + e) * (e * cos theta + e))
    by (apply Rmult_le_pos; nra).
  split.
  - apply Rmult_le_reg_r with (1 + e * cos theta); [exact HD |].
    rewrite E. nra.
  - apply Rmult_le_reg_r with (1 + e * cos theta); [exact HD |].
    rewrite E. nra.
Qed.

(** Every orbit point lies on the ellipse with semi-axes [a] and
    [a sqrt (1 - e^2)] centred at [(a e, 0, 0)] *)
Lemma calcOrbitPoint_on_ellipse (theta : R) :
  let p := calcOrbitPoint a e theta in
  let b := a * sqrt (1 - e * e) in
  ((Vector3.x p - a * e) / a) * ((Vector3.x p - a * e) / a)
  + (Vector3.z p / b) * (Vector3.z p / b) = 1
  /\ Vector3.y p = 0.
Proof.
  intros p b. subst p b. split; [| reflexivity].
  pose proof (COS_bound theta) as [Hlo Hhi].
  assert (HD : 0 < 1 + e * cos theta) by nra.
  assert (He : 0 < 1 - e * e) by nra.
  assert (Hs : sqrt (1 - e * e) * sqrt (1 - e * e) = 1 - e * e)
    by (apply sqrt_sqrt; lra).
  assert (Hsp : 0 < sqrt (1 - e * e)) by (apply sqrt_lt_R0; exact He).
  pose proof (sin2_cos2 theta) as Hq. unfold Rsqr in Hq.
  unfold calcOrbitPoint. cbn [Vector3.x Vector3.z].
  set (c := cos theta) in *. set (s := sin theta) in *.
  set (q := sqrt (1 - e * e)) in *. clearbody c s q.
  assert (Hs2 : s * s = 1 - c * c) by lra.
  set (z := a * (1 - e * e) / (1 + e * c) * s).
  assert (Ez : z / (a * q) * (z / (a * q)) = z * z / (a * a * (1 - e * e))).
  { rewrite <- Hs. field. lra. }
  rewrite Ez. subst z.
  transitivity (((c + e) * (c + e) + (1 - e * e) * (s * s))
                / ((1 + e * c) * (1 + e * c))).
  - field. repeat split; lra.
  - rewrite Hs2. field. lra.
Qed.

(** The orbit point depends on the angle modulo a whole turn *)
Lemma calcOrbitPoint_periodic (theta : R) :
  calcOrbitPoint a e (theta + 2 * PI) = calcOrbitPoint a e theta.
Proof.
  unfold calcOrbitPoint. rewrite cos_plus, sin_plus, cos_2PI, sin_2PI.
  replace (cos theta * 1 - sin theta * 0) with (cos theta) by ring.
  replace (sin theta * 1 + cos theta * 0) with (sin theta) by ring.
  reflexivity.
Qed.

End OrbitShape.

(** The Earth's orbit is the ellipse whose semi-minor axis and centre offset
    [createEarth] computes (and uses nowhere else): every point
    [calcOrbitPoint] returns satisfies
    [((x - sunOffset) / a)^2 + (z / earthOrbitSemiMinorAxis)^2 = 1], [y = 0],
    so the Sun, at the origin, is at a focus, [sunOffset] from the centre. *)
Theorem earth_orbit_is_the_ellipse (angle : R) :
  let p := calcOrbitPoint earthOrbitRadius earthOrbitEccentricity angle in
  ((Vector3.x p - sunOffset) / earthOrbitRadius)
  * ((Vector3.x p - sunOffset) / earthOrbitRadius)
  + (Vector3.z p / earthOrbitSemiMinorAxis)
    * (Vector3.z p / earthOrbitSemiMinorAxis) = 1
  /\ Vector3.y p = 0
  /\ sunOffset = 5.
Proof.
  intros p. subst p.
  destruct (calcOrbitPoint_on_ellipse earthOrbitRadius earthOrbitEccentricity)
    with (theta := angle) as [H1 H2];
    [unfold earthOrbitRadius; lra | unfold earthOrbitEccentricity; lra |].
  split; [exact H1 | split; [exact H2 |]].
  unfold sunOffset, earthOrbitRadius, earthOrbitEccentricity. lra.
Qed.

(** The distance of every orbit point from the Sun *)
Lemma earth_distance_bounds_aux (angle : R) :
  15 <= Vector3.length
          (calcOrbitPoint earthOrbitRadius earthOrbitEccentricity angle)
  /\ Vector3.length
       (calcOrbitPoint earthOrbitRadius earthOrbitEccentricity angle) <= 25.
Proof.
  unfold earthOrbitRadius, earthOrbitEccentricity.
  rewrite calcOrbitPoint_length by lra.
  pose proof (orbit_radius_bounds 20 0.25) as H.
  specialize (H ltac:(lra) ltac:(lra) angle). lra.
Qed.

(** Whatever the angle, the Earth is between 15 and 25 from the Sun: the
    perihelion is the nearest point of the orbit and the aphelion the
    farthest. *)
Theorem earth_distance_bounds (angle : R) :
  let distance :=
    Vector3.length (calcOrbitPoint earthOrbitRadius earthOrbitEccentricity angle) in
  Vector3.length perihelionPosition <= distance <= Vector3.length aphelionPosition
  /\ Vector3.length perihelionPosition = 15
  /\ Vector3.length aphelionPosition = 25.
Proof.
  intros distance. subst distance.
  assert (Lp : Vector3.length perihelionPosition = 15).
  { apply length_eq; [lra |].
    unfold perihelionPosition, earthOrbitRadius, earthOrbitEccentricity; cbn. lra. }
  assert (La : Vector3.length aphelionPosition = 25).
  { apply length_eq; [lra |].
    unfold aphelionPosition, earthOrbitRadius, earthOrbitEccentricity; cbn. lra. }
  rewrite Lp, La. split; [| split; reflexivity].
  destruct (earth_distance_bounds_aux angle) as [H1 H2]. lra.
Qed.

(** The step of the loop is the orbit point at [i] degrees *)
Lemma orbitPoint_calcOrbitPoint (i : nat) :
  orbitPoint i
  = calcOrbitPoint earthOrbitRadius earthOrbitEccentricity (INR i * PI / 180).
Proof. reflexivity. Qed.

(** The polyline of the orbit has 361 points, one per degree from 0 to 360;
    every one is an orbit point, between 15 and 25 from the Sun; the first and
    the last are both the perihelion, so the curve closes. *)
Theorem orbitPoints_closed_curve :
  List.length orbitPoints = 361%nat
  /\ (forall i, (i <= 360)%nat ->
        List.nth_error orbitPoints i
        = Some (calcOrbitPoint earthOrbitRadius earthOrbitEccentricity
                  (INR i * PI / 180)))
  /\ (forall i, (360 < i)%nat -> List.nth_error orbitPoints i = None)
  /\ List.nth_error orbitPoints 0 = Some perihelionPosition
  /\ List.nth_error orbitPoints 360 = Some perihelionPosition
  /\ (forall p, List.In p orbitPoints -> 15 <= Vector3.length p <= 25).
Proof.
  assert (Hn : forall i, (i <= 360)%nat ->
             List.nth_error orbitPoints i = Some (orbitPoint i)).
  { intros i Hi. unfold orbitPoints.
    rewrite List.nth_error_map, List.nth_error_seq.
    destruct (Nat.ltb_spec i 361); [reflexivity | lia]. }
  assert (P0 : calcOrbitPoint earthOrbitRadius earthOrbitEccentricity 0
               = perihelionPosition).
  { unfold calcOrbitPoint, perihelionPosition, earthOrbitRadius,
      earthOrbitEccentricity.
    rewrite cos_0, sin_0. f_equal; lra. }
  split; [| split; [| split; [| split; [| split]]]].
  - unfold orbitPoints. rewrite List.length_map, List.length_seq. reflexivity.
  - intros i Hi. rewrite Hn by exact Hi. rewrite orbitPoint_calcOrbitPoint.
    reflexivity.
  - intros i Hi. unfold orbitPoints.
    rewrite List.nth_error_map, List.nth_error_seq.
    destruct (Nat.ltb_spec i 361); [lia | reflexivity].
  - rewrite Hn by lia. rewrite orbitPoint_calcOrbitPoint.
    replace (INR 0 * PI / 180) with 0 by (cbn [INR]; lra).
    rewrite P0. reflexivity.
  - rewrite Hn by lia. rewrite orbitPoint_calcOrbitPoint.
    replace (INR 360 * PI / 180) with (0 + 2 * PI)
      by (rewrite INR_IZR_INZ; cbn [Z.of_nat Pos.of_succ_nat Pos.succ]; lra).
    rewrite calcOrbitPoint_periodic, P0. reflexivity.
  - intros p Hp. unfold orbitPoints in Hp.
    apply List.in_map_iff in Hp. destruct Hp as (i & <- & _).
    rewrite orbitPoint_calcOrbitPoint.
    destruct (earth_distance_bounds_aux (INR i * PI / 180)) as [H1 H2]. lra.
Qed.

(** With the speed slider at [s <> 0], the Earth is back at the same point of
    its orbit after [2 PI * 365.25 / s] seconds of elapsed time, during which
    it has turned about its axis by [2 PI * 365.25], that is 365.25 times. *)
Theorem earth_returns_after_a_year (t : R) (app : App)
  (e0 c0 : Mesh.t) (g0 : Object3D.t) :
  earth app = Some e0 -> clouds app = Some c0 -> earthGroup app = Some g0 ->
  currentEarthRotationSpeed app <> 0 ->
  let year := 2 * PI * 365.25 / currentEarthRotationSpeed app in
  let before := updateScene (set_elapsedTime app t) in
  let after := updateScene (set_elapsedTime app (t + year)) in
  option_map Object3D.position (earthGroup after)
  = option_map Object3D.position (earthGroup before)
  /\ exists spin spin',
       option_map (fun m => Euler.y (Mesh.rotation m)) (earth before) = Some spin
       /\ option_map (fun m => Euler.y (Mesh.rotation m)) (earth after) = Some spin'
       /\ spin' - spin = 365.25 * (2 * PI).
Proof.
  intros H1 H2 H3 Hs year before after. subst before after.
  assert (Hy1 : year * (currentEarthRotationSpeed app / 365.25) = 2 * PI)
    by (subst year; field; split; [lra | exact Hs]).
  assert (Hy2 : year * currentEarthRotationSpeed app = 365.25 * (2 * PI))
    by (subst year; field; exact Hs).
  clearbody year.
  rewrite !(updateScene_earthGroup _ e0 c0 g0) by assumption.
  destruct (updateScene_spin (set_elapsedTime app t) e0 c0 g0) as [E1 _];
    try assumption.
  destruct (updateScene_spin (set_elapsedTime app (t + year)) e0 c0 g0)
    as [E2 _]; try assumption.
  rewrite E1, E2.
  cbn [option_map Object3D.position Mesh.set_rotation_y Mesh.rotation
       Euler.set_y Euler.y].
  change (elapsedTime (set_elapsedTime app t)) with t.
  change (elapsedTime (set_elapsedTime app (t + year))) with (t + year).
  change (currentEarthRotationSpeed (set_elapsedTime app t))
    with (currentEarthRotationSpeed app).
  change (currentEarthRotationSpeed (set_elapsedTime app (t + year)))
    with (currentEarthRotationSpeed app).
  split.
  - f_equal.
    replace ((t + year) * (currentEarthRotationSpeed app / 365.25))
      with (t * (currentEarthRotationSpeed app / 365.25) + 2 * PI)
      by (rewrite <- Hy1; ring).
    apply calcOrbitPoint_periodic.
  - do 2 eexists. split; [reflexivity | split; [reflexivity |]].
    rewrite <- Hy2. ring.
Qed.

Lemma earth_returns_after_a_year_witness :
  (earth constructed = Some Mesh.new /\ clouds constructed = Some Mesh.new
   /\ earthGroup constructed = Some Object3D.new
   /\ currentEarthRotationSpeed constructed <> 0)
  /\ option_map Object3D.position
       (earthGroup
          (updateScene
             (set_elapsedTime constructed
                (7 + 2 * PI * 365.25 / currentEarthRotationSpeed constructed))))
     = option_map Object3D.position
         (earthGroup (updateScene (set_elapsedTime constructed 7))).
Proof.
  assert (Hs : currentEarthRotationSpeed constructed <> 0)
    by (cbn [currentEarthRotationSpeed constructed speedControls
             earthRotationSpeed]; lra).
  split.
  - repeat split; try reflexivity. exact Hs.
  - exact (proj1 (earth_returns_after_a_year 7 constructed Mesh.new Mesh.new
                    Object3D.new eq_refl eq_refl eq_refl Hs)).
Defined.

(** ** The orientation of the Earth *)

(** The quaternion the frame builds for [earthGroup]: reset, tilt about Z by
    [tau], then turn about Y by [alpha].  It turns a vector as the product of
    the two rotation matrices does. *)
Lemma rotateZ_rotateY_action (tau alpha : R) (v : Vector3.t) :
  Quaternion.applyQuaternion v
    (Quaternion.multiply
       (Quaternion.multiply (Quaternion.setFromEuler (Euler.mk 0 0 0))
          (Quaternion.setFromAxisAngle (Vector3.mk 0 0 1) tau))
       (Quaternion.setFromAxisAngle (Vector3.mk 0 1 0) alpha))
  = let x1 := Vector3.x v * cos alpha + Vector3.z v * sin alpha in
    let y1 := Vector3.y v in
    let z1 := - Vector3.x v * sin alpha + Vector3.z v * cos alpha in
    Vector3.mk (x1 * cos tau - y1 * sin tau) (x1 * sin tau + y1 * cos tau) z1.
Proof.
  rewrite setFromEuler_zero, multiply_identity_l.
  replace (cos alpha) with (cos (2 * (alpha / 2))) by (f_equal; field).
  replace (sin alpha) with (sin (2 * (alpha / 2))) by (f_equal; field).
  replace (cos tau) with (cos (2 * (tau / 2))) by (f_equal; field).
  replace (sin tau) with (sin (2 * (tau / 2))) by (f_equal; field).
  rewrite !cos_2a, !sin_2a.
  pose proof (sin2_cos2 (alpha / 2)) as Ha. unfold Rsqr in Ha.
  pose proof (sin2_cos2 (tau / 2)) as Hb. unfold Rsqr in Hb.
  unfold Quaternion.setFromAxisAngle.
  set (sa := sin (alpha / 2)) in *. set (ca := cos (alpha / 2)) in *.
  set (sb := sin (tau / 2)) in *. set (cb := cos (tau / 2)) in *.
  clearbody sa ca sb cb.
  destruct v as [vx vy vz].
  apply Vector3_eq;
    cbn [Quaternion.applyQuaternion Quaternion.multiply Quaternion.x
         Quaternion.y Quaternion.z Quaternion.w Vector3.x Vector3.y Vector3.z];
    nsatz.
Qed.

(** The tilted group turns about its own +Y axis, which therefore stays put *)
Lemma tilted_axis_direction (tau alpha : R) :
  Quaternion.applyQuaternion (Vector3.mk 0 1 0)
    (Quaternion.multiply
       (Quaternion.multiply (Quaternion.setFromEuler (Euler.mk 0 0 0))
          (Quaternion.setFromAxisAngle (Vector3.mk 0 0 1) tau))
       (Quaternion.setFromAxisAngle (Vector3.mk 0 1 0) alpha))
  = Vector3.mk (- sin tau) (cos tau) 0.
Proof.
  rewrite rotateZ_rotateY_action. apply Vector3_eq; cbn; ring.
Qed.

(** After every frame the Earth's axis, the +Y axis of [earthGroup], points
    along [(- sin 23.5deg, cos 23.5deg, 0)] in world space: it keeps one
    direction, 23.5 degrees from the vertical, at every point of the orbit
    and at every speed. *)
Theorem earth_axis_keeps_its_direction (now : R) (app : App)
  (e0 c0 : Mesh.t) (g0 : Object3D.t) :
  earth app = Some e0 -> clouds app = Some c0 -> earthGroup app = Some g0 ->
  exists earthGroup',
    earthGroup (animate now app) = Some earthGroup'
    /\ let axis := directionToParent earthGroup' (Vector3.mk 0 1 0) in
       let tilt := 23.5 * PI / 180 in
       axis = Vector3.mk (- sin tilt) (cos tilt) 0
       /\ Vector3.length axis = 1
       /\ angleBetween axis (Vector3.mk 0 1 0) tilt.
Proof.
  intros H1 H2 H3.
  rewrite animate_updateScene.
  rewrite (updateScene_earthGroup _ e0 c0 g0) by assumption.
  eexists. split; [reflexivity |].
  unfold directionToParent. cbn [Object3D.quaternion].
  rewrite tilted_axis_direction.
  set (tilt := 23.5 * PI / 180).
  pose proof (sin2_cos2 tilt) as Hq. unfold Rsqr in Hq.
  cbn zeta.
  assert (L1 : Vector3.length (Vector3.mk (- sin tilt) (cos tilt) 0) = 1)
    by (apply length_eq; cbn; lra).
  assert (L2 : Vector3.length (Vector3.mk 0 1 0) = 1)
    by (apply length_eq; cbn; lra).
  split; [reflexivity | split; [exact L1 |]].
  unfold angleBetween. rewrite L1, L2. unfold Vector3.dot. cbn.
  pose proof PI_RGT_0 as Hpi.
  split; [unfold tilt; lra | ring].
Qed.

Lemma earth_axis_keeps_its_direction_witness :
  (earth constructed = Some Mesh.new /\ clouds constructed = Some Mesh.new
   /\ earthGroup constructed = Some Object3D.new)
  /\ exists earthGroup',
       earthGroup (animate 0 constructed) = Some earthGroup'
       /\ directionToParent earthGroup' (Vector3.mk 0 1 0)
          = Vector3.mk (- sin (23.5 * PI / 180)) (cos (23.5 * PI / 180)) 0.
Proof.
  split.
  - repeat split.
  - destruct (earth_axis_keeps_its_direction 0 constructed Mesh.new Mesh.new
                Object3D.new eq_refl eq_refl eq_refl) as (g & Hg & Ha & _).
    exists g. split; [exact Hg | exact Ha].
Defined.

(** Euler angles [(0, v, 0)] are a turn about Y by [v] *)
Lemma setFromEuler_y (v : R) :
  Quaternion.setFromEuler (Euler.mk 0 v 0)
  = Quaternion.setFromAxisAngle (Vector3.mk 0 1 0) v.
Proof.
  unfold Quaternion.setFromEuler, Quaternion.setFromAxisAngle.
  cbn [Euler.x Euler.y Euler.z Vector3.x Vector3.y Vector3.z].
  replace (0 / 2) with 0 by field. rewrite cos_0, sin_0.
  apply Quaternion_eq; cbn; ring.
Qed.

Lemma multiply_assoc (p q r : Quaternion.t) :
  Quaternion.multiply (Quaternion.multiply p q) r
  = Quaternion.multiply p (Quaternion.multiply q r).
Proof. apply Quaternion_eq; cbn; ring. Qed.

(** Two turns about Y add up *)
Lemma rotateY_rotateY (alpha beta : R) :
  Quaternion.multiply
    (Quaternion.setFromAxisAngle (Vector3.mk 0 1 0) alpha)
    (Quaternion.setFromAxisAngle (Vector3.mk 0 1 0) beta)
  = Quaternion.setFromAxisAngle (Vector3.mk 0 1 0) (alpha + beta).
Proof.
  unfold Quaternion.setFromAxisAngle.
  replace ((alpha + beta) / 2) with (alpha / 2 + beta / 2) by field.
  rewrite sin_plus, cos_plus.
  apply Quaternion_eq; cbn; ring.
Qed.

(** After every frame of a scene whose Earth mesh has no rotation about X or
    Z (no code gives it one), the world orientation of the Earth is the
    23.5-degree tilt followed by one turn about the tilted axis by the sum of
    the orbital angle and the spin angle: the rotation of [earthGroup] by the
    orbital angle adds to the Earth's own spin. *)
Theorem earth_turns_by_orbit_plus_spin (now : R) (app : App)
  (p0 : Vector3.t) (y0 : R) (c0 : Mesh.t) (g0 : Object3D.t) :
  earth app = Some (Mesh.mk p0 (Euler.mk 0 y0 0)) ->
  clouds app = Some c0 -> earthGroup app = Some g0 ->
  exists earthGroup' earth',
    earthGroup (animate now app) = Some earthGroup'
    /\ earth (animate now app) = Some earth'
    /\ let t := elapsedTime (animate now app) in
       let spinAngle := t * currentEarthRotationSpeed app in
       let orbitAngle := t * (currentEarthRotationSpeed app / 365.25) in
       earthWorldQuaternion earthGroup' earth'
       = Quaternion.multiply
           (Quaternion.multiply (Quaternion.setFromEuler (Euler.mk 0 0 0))
              (Quaternion.setFromAxisAngle (Vector3.mk 0 0 1) (23.5 * PI / 180)))
           (Quaternion.setFromAxisAngle (Vector3.mk 0 1 0)
              (orbitAngle + spinAngle)).
Proof.
  intros H1 H2 H3.
  rewrite animate_elapsedTime, animate_updateScene.
  set (app1 := set_elapsedTime _ _).
  destruct (updateScene_spin app1 (Mesh.mk p0 (Euler.mk 0 y0 0)) c0 g0)
    as [E1 _]; try assumption.
  rewrite (updateScene_earthGroup app1 _ c0 g0 H1 H2 H3), E1.
  do 2 eexists. split; [reflexivity | split; [reflexivity |]].
  unfold earthWorldQuaternion, Mesh.quaternion.
  cbn [Object3D.quaternion Mesh.set_rotation_y Mesh.rotation Euler.set_y
       Euler.x Euler.z].
  unfold Euler.set_y. cbn [Euler.x Euler.z].
  rewrite (setFromEuler_y (elapsedTime app1 * currentEarthRotationSpeed app1)).
  rewrite (multiply_assoc _ (Quaternion.setFromAxisAngle (Vector3.mk 0 1 0) _) _).
  rewrite rotateY_rotateY.
  reflexivity.
Qed.

Lemma earth_turns_by_orbit_plus_spin_witness :
  (earth constructed = Some (Mesh.mk Vector3.zero (Euler.mk 0 0 0))
   /\ clouds constructed = Some Mesh.new
   /\ earthGroup constructed = Some Object3D.new)
  /\ exists earthGroup' earth',
       earthGroup (animate 0 constructed) = Some earthGroup'
       /\ earth (animate 0 constructed) = Some earth'
       /\ earthWorldQuaternion earthGroup' earth'
          = Quaternion.multiply
              (Quaternion.multiply (Quaternion.setFromEuler (Euler.mk 0 0 0))
                 (Quaternion.setFromAxisAngle (Vector3.mk 0 0 1)
                    (23.5 * PI / 180)))
              (Quaternion.setFromAxisAngle (Vector3.mk 0 1 0)
                 (elapsedTime (animate 0 constructed)
                  * (currentEarthRotationSpeed constructed / 365.25)
                  + elapsedTime (animate 0 constructed)
                    * currentEarthRotationSpeed constructed)).
Proof.
  split.
  - repeat split.
  - exact (earth_turns_by_orbit_plus_spin 0 constructed Vector3.zero 0
             Mesh.new Object3D.new eq_refl eq_refl eq_refl).
Defined.

(** ** The seasons *)

(** The component of the tilted axis along the direction from an orbit point
    to the Sun *)
Lemma axis_towards_sun (tau angle : R) :
  Vector3.dot (Vector3.mk (- sin tau) (cos tau) 0)
    (Vector3.normalize
       (Vector3.sub (Vector3.mk 0 0 0)
          (calcOrbitPoint earthOrbitRadius earthOrbitEccentricity angle)))
  = - sin tau * cos angle.
Proof.
  pose proof (orbit_radius_pos earthOrbitRadius earthOrbitEccentricity) as Hr.
  specialize (Hr ltac:(unfold earthOrbitRadius; lra)
                 ltac:(unfold earthOrbitEccentricity; lra) angle).
  unfold calcOrbitPoint.
  set (r := earthOrbitRadius * (1 - earthOrbitEccentricity * earthOrbitEccentricity)
            / (1 + earthOrbitEccentricity * cos angle)) in *.
  clearbody r.
  set (v := Vector3.sub _ _).
  assert (Lv : Vector3.length v = r).
  { apply length_eq; [lra |]. unfold v. cbn.
    pose proof (sin2_cos2 angle) as H. unfold Rsqr in H. nra. }
  destruct (normalize_nonzero v) as [E _]; [lra |].
  rewrite E, Lv. unfold v, Vector3.dot. cbn. field. lra.
Qed.

Lemma perihelion_is_angle_0 :
  perihelionPosition = calcOrbitPoint earthOrbitRadius earthOrbitEccentricity 0.
Proof.
  unfold calcOrbitPoint, perihelionPosition, earthOrbitRadius,
    earthOrbitEccentricity.
  rewrite cos_0, sin_0. f_equal; lra.
Qed.

Lemma aphelion_is_angle_PI :
  aphelionPosition = calcOrbitPoint earthOrbitRadius earthOrbitEccentricity PI.
Proof.
  unfold calcOrbitPoint, aphelionPosition, earthOrbitRadius,
    earthOrbitEccentricity.
  rewrite cos_PI, sin_PI. f_equal; lra.
Qed.

Lemma cos_solstice_offset : cos 0.226 < 1.
Proof.
  pose proof PI2_1 as Hpi.
  rewrite <- cos_0. apply cos_decreasing_1; lra.
Qed.

(** After every frame the sine of the Sun's declination, the component of
    the Earth's axis along the direction to the Sun, is
    [- sin 23.5deg * cos angle] with [angle] the orbital angle.  The northern
    hemisphere leans farthest from the Sun exactly at the perihelion and
    farthest towards it exactly at the aphelion; at the two solstice markers,
    0.226 radians off, the lean is short of both extremes. *)
Theorem solstices_fall_on_the_apsides (now : R) (app : App)
  (e0 c0 : Mesh.t) (g0 : Object3D.t) :
  earth app = Some e0 -> clouds app = Some c0 -> earthGroup app = Some g0 ->
  exists earthGroup',
    earthGroup (animate now app) = Some earthGroup'
    /\ let axis := directionToParent earthGroup' (Vector3.mk 0 1 0) in
       let declination := Vector3.dot axis (earthToSun earthGroup') in
       let tilt := 23.5 * PI / 180 in
       let angle :=
         elapsedTime (animate now app)
         * (currentEarthRotationSpeed app / 365.25) in
       declination = - sin tilt * cos angle
       /\ - sin tilt <= declination <= sin tilt
       /\ (earthWorldPosition earthGroup' = perihelionPosition ->
           declination = - sin tilt)
       /\ (earthWorldPosition earthGroup' = aphelionPosition ->
           declination = sin tilt)
       /\ (earthWorldPosition earthGroup' = winterSolsticePosition ->
           - sin tilt < declination)
       /\ (earthWorldPosition earthGroup' = summerSolsticePosition ->
           declination < sin tilt).
Proof.
  intros H1 H2 H3.
  rewrite animate_elapsedTime, animate_updateScene.
  set (app1 := set_elapsedTime _ _).
  rewrite (updateScene_earthGroup app1 e0 c0 g0) by assumption.
  eexists. split; [reflexivity |].
  unfold directionToParent, earthToSun, earthWorldPosition.
  cbn [Object3D.quaternion Object3D.position].
  rewrite tilted_axis_direction.
  set (tilt := 23.5 * PI / 180).
  assert (Ht : 0 < sin tilt).
  { pose proof PI_RGT_0. apply sin_gt_0; unfold tilt; lra. }
  pose proof cos_solstice_offset as Hc.
  cbn zeta.
  split; [| split; [| split; [| split; [| split]]]].
  - rewrite axis_towards_sun. reflexivity.
  - rewrite axis_towards_sun.
    pose proof (COS_bound (elapsedTime app1
                           * (currentEarthRotationSpeed app1 / 365.25))).
    nra.
  - intros ->. rewrite perihelion_is_angle_0, axis_towards_sun, cos_0. ring.
  - intros ->. rewrite aphelion_is_angle_PI, axis_towards_sun, cos_PI. ring.
  - intros ->. unfold winterSolsticePosition.
    rewrite axis_towards_sun. unfold winterSolsticeAngle.
    replace (0 + 0.226) with 0.226 by ring. nra.
  - intros ->. unfold summerSolsticePosition.
    rewrite axis_towards_sun. unfold summerSolsticeAngle.
    rewrite cos_minus, cos_PI, sin_PI. nra.
Qed.

Lemma solstices_fall_on_the_apsides_witness :
  (earth constructed = Some Mesh.new /\ clouds constructed = Some Mesh.new
   /\ earthGroup constructed = Some Object3D.new)
  /\ exists earthGroup',
       earthGroup (animate 0 constructed) = Some earthGroup'
       /\ Vector3.dot (directionToParent earthGroup' (Vector3.mk 0 1 0))
            (earthToSun earthGroup')
          = - sin (23.5 * PI / 180)
            * cos (elapsedTime (animate 0 constructed)
                   * (currentEarthRotationSpeed constructed / 365.25)).
Proof.
  split; [split; [reflexivity | split; reflexivity] |].
  destruct (solstices_fall_on_the_apsides 0 constructed Mesh.new Mesh.new
              Object3D.new eq_refl eq_refl eq_refl)
    as (g & Hg & Hd & _).
  exists g. split; [exact Hg | exact Hd].
Defined.

(** ** The Beijing marker *)

(** A turn about Y, as the Euler angles [(0, beta, 0)] give it *)
Lemma rotateY_action (beta : R) (v : Vector3.t) :
  Quaternion.applyQuaternion v (Quaternion.setFromEuler (Euler.mk 0 beta 0))
  = Vector3.mk (Vector3.x v * cos beta + Vector3.z v * sin beta)
               (Vector3.y v)
               (- Vector3.x v * sin beta + Vector3.z v * cos beta).
Proof.
  rewrite setFromEuler_y.
  replace (cos beta) with (cos (2 * (beta / 2))) by (f_equal; field).
  replace (sin beta) with (sin (2 * (beta / 2))) by (f_equal; field).
  rewrite !cos_2a, !sin_2a.
  pose proof (sin2_cos2 (beta / 2)) as Hb. unfold Rsqr in Hb.
  unfold Quaternion.setFromAxisAngle.
  set (sb := sin (beta / 2)) in *. set (cb := cos (beta / 2)) in *.
  clearbody sb cb.
  destruct v as [vx vy vz].
  apply Vector3_eq;
    cbn [Quaternion.applyQuaternion Quaternion.x
         Quaternion.y Quaternion.z Quaternion.w Vector3.x Vector3.y Vector3.z];
    nsatz.
Qed.

(** The tilt and the turn of [earthGroup] keep lengths, and keep the
    component of a vector along the tilted axis *)
Lemma tilted_turn_isometry (tau alpha : R) (v : Vector3.t) :
  let v' :=
    Quaternion.applyQuaternion v
      (Quaternion.multiply
         (Quaternion.multiply (Quaternion.setFromEuler (Euler.mk 0 0 0))
            (Quaternion.setFromAxisAngle (Vector3.mk 0 0 1) tau))
         (Quaternion.setFromAxisAngle (Vector3.mk 0 1 0) alpha)) in
  Vector3.x v' * Vector3.x v' + Vector3.y v' * Vector3.y v'
  + Vector3.z v' * Vector3.z v'
  = Vector3.x v * Vector3.x v + Vector3.y v * Vector3.y v
    + Vector3.z v * Vector3.z v
  /\ Vector3.dot v' (Vector3.mk (- sin tau) (cos tau) 0) = Vector3.y v.
Proof.
  cbn zeta. rewrite rotateZ_rotateY_action.
  pose proof (sin2_cos2 alpha) as Ha. unfold Rsqr in Ha.
  pose proof (sin2_cos2 tau) as Hb. unfold Rsqr in Hb.
  destruct v as [vx vy vz]. unfold Vector3.dot.
  cbn [Vector3.x Vector3.y Vector3.z].
  set (sa := sin alpha) in *. set (ca := cos alpha) in *.
  set (sb := sin tau) in *. set (cb := cos tau) in *.
  clearbody sa ca sb cb.
  split; nsatz.
Qed.

(** After every frame the Beijing marker is 2.05 from the Earth's centre,
    just above the surface of radius 2, and the line from the centre to the
    marker makes the angle 90 - 39.9 degrees with the Earth's axis: the
    marker stays at latitude 39.9 north of the tilted, spinning Earth. *)
Theorem beijing_keeps_its_latitude (now : R) (app : App)
  (y0 : R) (c0 : Mesh.t) (g0 : Object3D.t) :
  earth app = Some (Mesh.mk Vector3.zero (Euler.mk 0 y0 0)) ->
  clouds app = Some c0 -> earthGroup app = Some g0 ->
  exists earthGroup' earth',
    earthGroup (animate now app) = Some earthGroup'
    /\ earth (animate now app) = Some earth'
    /\ let marker :=
         earthPointWorldPosition earthGroup' earth' beijingMarker_position in
       let fromCentre := Vector3.sub marker (earthWorldPosition earthGroup') in
       let axis := directionToParent earthGroup' (Vector3.mk 0 1 0) in
       let latitude := 39.9 * (PI / 180) in
       Vector3.length fromCentre = 2.05
       /\ earthRadius < Vector3.length fromCentre
       /\ Vector3.length axis = 1
       /\ angleBetween fromCentre axis (PI / 2 - latitude).
Proof.
  intros H1 H2 H3.
  rewrite animate_updateScene.
  set (app1 := set_elapsedTime _ _).
  destruct (updateScene_spin app1 (Mesh.mk Vector3.zero (Euler.mk 0 y0 0)) c0 g0)
    as [E1 _]; try assumption.
  rewrite (updateScene_earthGroup app1 _ c0 g0 H1 H2 H3), E1.
  do 2 eexists. split; [reflexivity | split; [reflexivity |]].
  unfold earthPointWorldPosition, toParent, earthWorldPosition,
    directionToParent, Mesh.quaternion, Mesh.set_rotation_y, Euler.set_y.
  cbn [Object3D.quaternion Object3D.position Mesh.rotation Mesh.position
       Euler.x Euler.z].
  set (spin := elapsedTime app1 * currentEarthRotationSpeed app1).
  set (alpha := elapsedTime app1 * (currentEarthRotationSpeed app1 / 365.25)).
  set (p := calcOrbitPoint _ _ _).
  set (tau := 23.5 * PI / 180).
  rewrite tilted_axis_direction.
  set (m := Vector3.add
              (Quaternion.applyQuaternion beijingMarker_position
                 (Quaternion.setFromEuler (Euler.mk 0 spin 0))) Vector3.zero).
  assert (Em : m = Vector3.mk
                     (Vector3.x beijingMarker_position * cos spin
                      + Vector3.z beijingMarker_position * sin spin)
                     (Vector3.y beijingMarker_position)
                     (- Vector3.x beijingMarker_position * sin spin
                      + Vector3.z beijingMarker_position * cos spin)).
  { unfold m. rewrite rotateY_action. apply Vector3_eq; cbn; ring. }
  destruct (tilted_turn_isometry tau alpha m) as [Hlen Hdot].
  cbn zeta in Hlen, Hdot.
  set (q := Quaternion.multiply _ _) in *.
  set (v' := Quaternion.applyQuaternion m q) in *.
  assert (Ef : Vector3.sub (Vector3.add v' p) p = v')
    by (apply Vector3_eq; cbn; ring).
  rewrite Ef. clearbody v'.
  set (latitude := 39.9 * (PI / 180)) in *.
  assert (My : Vector3.y m = 2.05 * sin latitude) by (rewrite Em; reflexivity).
  assert (Mq : Vector3.x m * Vector3.x m + Vector3.y m * Vector3.y m
               + Vector3.z m * Vector3.z m = 2.05 * 2.05).
  { rewrite Em. unfold beijingMarker_position.
    cbn [Vector3.x Vector3.y Vector3.z]. fold latitude.
    pose proof (sin2_cos2 spin) as Hs. unfold Rsqr in Hs.
    pose proof (sin2_cos2 latitude) as Hl. unfold Rsqr in Hl.
    pose proof (sin2_cos2 (116.3 * (PI / 180))) as Hg. unfold Rsqr in Hg.
    set (ss := sin spin) in *. set (cs := cos spin) in *.
    set (sl := sin latitude) in *. set (cl := cos latitude) in *.
    set (sg := sin (116.3 * (PI / 180))) in *.
    set (cg := cos (116.3 * (PI / 180))) in *.
    clearbody ss cs sl cl sg cg. nsatz. }
  assert (L : Vector3.length v' = 2.05)
    by (apply length_eq; [lra | rewrite Hlen; exact Mq]).
  assert (La : Vector3.length (Vector3.mk (- sin tau) (cos tau) 0) = 1).
  { pose proof (sin2_cos2 tau) as Hq. unfold Rsqr in Hq.
    apply length_eq; cbn; lra. }
  cbn zeta.
  split; [exact L |].
  split; [rewrite L; unfold earthRadius; lra |].
  split; [exact La |].
  unfold angleBetween. rewrite L, La, Hdot, My, cos_shift.
  pose proof PI_RGT_0 as Hpi.
  split; [unfold latitude; lra | ring].
Qed.

Lemma beijing_keeps_its_latitude_witness :
  (earth constructed = Some (Mesh.mk Vector3.zero (Euler.mk 0 0 0))
   /\ clouds constructed = Some Mesh.new
   /\ earthGroup constructed = Some Object3D.new)
  /\ exists earthGroup' earth',
       earthGroup (animate 0 constructed) = Some earthGroup'
       /\ earth (animate 0 constructed) = Some earth'
       /\ Vector3.length
            (Vector3.sub
               (earthPointWorldPosition earthGroup' earth'
                  beijingMarker_position)
               (earthWorldPosition earthGroup')) = 2.05.
Proof.
  split; [split; [reflexivity | split; reflexivity] |].
  destruct (beijing_keeps_its_latitude 0 constructed 0 Mesh.new Object3D.new
              eq_refl eq_refl eq_refl)
    as (g & e & Hg & He & Hl & _).
  exists g, e. split; [exact Hg | split; [exact He | exact Hl]].
Defined.

(** ** The Sun and the clouds *)

(** What the sun block writes, and that the later blocks keep it *)
Lemma updateScene_sun (app : App) (s0 : Mesh.t) (sc : SpeedControls) :
  sun app = Some s0 -> speedControls app = Some sc ->
  sun (updateScene app)
  = Some (Mesh.set_rotation_y s0
            (elapsedTime app * 0.05 * (earthRotationSpeed sc / 73.05))).
Proof.
  intros H1 H2. unfold updateScene.
  rewrite animate_atmosphere_writes; app_simpl.
  rewrite animate_moon_writes; app_simpl.
  destruct (animate_earth_reads (animate_sun app)) as (_ & _ & -> & _).
  unfold animate_sun. rewrite H1, H2. reflexivity.
Qed.

(** After every frame the clouds have turned 0.9 times as far as the Earth,
    and the Sun [0.05 / 73.05] times as far: the one speed slider drives all
    three spins in fixed proportion. *)
Theorem spins_in_fixed_proportion (now : R) (app : App)
  (s0 e0 c0 : Mesh.t) (g0 : Object3D.t) (sc : SpeedControls) :
  sun app = Some s0 -> earth app = Some e0 -> clouds app = Some c0 ->
  earthGroup app = Some g0 -> speedControls app = Some sc ->
  exists sunAngle earthAngle cloudsAngle,
    option_map (fun m => Euler.y (Mesh.rotation m)) (sun (animate now app))
    = Some sunAngle
    /\ option_map (fun m => Euler.y (Mesh.rotation m)) (earth (animate now app))
       = Some earthAngle
    /\ option_map (fun m => Euler.y (Mesh.rotation m)) (clouds (animate now app))
       = Some cloudsAngle
    /\ earthAngle = elapsedTime (animate now app) * earthRotationSpeed sc
    /\ cloudsAngle = 0.9 * earthAngle
    /\ sunAngle * 73.05 = 0.05 * earthAngle.
Proof.
  intros Hs He Hc Hg Hsc.
  rewrite animate_elapsedTime, animate_updateScene.
  set (app1 := set_elapsedTime _ _).
  destruct (updateScene_spin app1 e0 c0 g0) as [E1 E2]; try assumption.
  rewrite (updateScene_sun app1 s0 sc Hs Hsc), E1, E2.
  assert (Hv : currentEarthRotationSpeed app1 = earthRotationSpeed sc).
  { unfold currentEarthRotationSpeed. change (speedControls app1)
      with (speedControls app). rewrite Hsc. reflexivity. }
  rewrite Hv.
  cbn [option_map Mesh.set_rotation_y Mesh.rotation Euler.set_y Euler.y].
  do 3 eexists.
  split; [reflexivity | split; [reflexivity | split; [reflexivity |]]].
  change (elapsedTime app1)
    with (Clock.elapsedTime (Clock.getDelta now (clock app))).
  split; [reflexivity | split; lra].
Qed.

Lemma spins_in_fixed_proportion_witness :
  (sun constructed = Some Mesh.new /\ earth constructed = Some Mesh.new
   /\ clouds constructed = Some Mesh.new
   /\ earthGroup constructed = Some Object3D.new
   /\ speedControls constructed = Some (mkSpeedControls 1 false))
  /\ exists sunAngle earthAngle cloudsAngle,
       option_map (fun m => Euler.y (Mesh.rotation m))
         (sun (animate 0 constructed)) = Some sunAngle
       /\ option_map (fun m => Euler.y (Mesh.rotation m))
            (earth (animate 0 constructed)) = Some earthAngle
       /\ option_map (fun m => Euler.y (Mesh.rotation m))
            (clouds (animate 0 constructed)) = Some cloudsAngle
       /\ earthAngle = elapsedTime (animate 0 constructed) * 1
       /\ cloudsAngle = 0.9 * earthAngle
       /\ sunAngle * 73.05 = 0.05 * earthAngle.
Proof.
  split.
  - repeat split.
  - exact (spins_in_fixed_proportion 0 constructed Mesh.new Mesh.new Mesh.new
             Object3D.new (mkSpeedControls 1 false)
             eq_refl eq_refl eq_refl eq_refl eq_refl).
Defined.

(** ** The Moon's orbit *)

(** Where a frame leaves the Earth and the Moon: 5 apart, the Earth at least
    15 from the Sun *)
Lemma moon_distance_aux (now : R) (app : App)
  (e0 c0 : Mesh.t) (g0 mg0 mn0 : Object3D.t) :
  earth app = Some e0 -> clouds app = Some c0 -> earthGroup app = Some g0 ->
  moonGroup app = Some mg0 -> moon app = Some mn0 ->
  Object3D.position mg0 = Vector3.zero ->
  Object3D.position mn0 = Vector3.mk 5 0 0 ->
  exists earthGroup' moonGroup' moon',
    earthGroup (animate now app) = Some earthGroup'
    /\ moonGroup (animate now app) = Some moonGroup'
    /\ moon (animate now app) = Some moon'
    /\ Vector3.length
         (Vector3.sub (earthWorldPosition earthGroup')
            (moonWorldPosition earthGroup' moonGroup' moon')) = 5
    /\ 15 <= Vector3.length (earthWorldPosition earthGroup').
Proof.
  intros H1 H2 H3 H4 H5 Hmg Hmn.
  rewrite animate_updateScene. set (app1 := set_elapsedTime _ _).
  destruct (updateScene_moon app1 mn0 mg0) as [E1 E2]; try assumption.
  rewrite (updateScene_earthGroup app1 e0 c0 g0), E1, E2 by assumption.
  rewrite Hmg, Hmn, moon_quaternion_value.
  do 3 eexists.
  split; [reflexivity | split; [reflexivity | split; [reflexivity |]]].
  split.
  - match goal with
    | |- context [moonWorldPosition ?eg ?mg _] =>
        destruct (locked_in_parent_frames eg mg) as (_ & _ & L)
    end.
    + apply frame_quaternion_unit; cbn; ring.
    + apply frame_quaternion_unit; cbn; ring.
    + reflexivity.
    + exact L.
  - cbn [earthWorldPosition Object3D.position].
    apply earth_distance_bounds_aux.
Qed.

(** After every frame the Moon is exactly 5 from the Earth, centre to centre:
    its orbit about the Earth is a circle of radius 5. *)
Theorem moon_stays_5_from_earth (now : R) (app : App)
  (e0 c0 : Mesh.t) (g0 mg0 mn0 : Object3D.t) :
  earth app = Some e0 -> clouds app = Some c0 -> earthGroup app = Some g0 ->
  moonGroup app = Some mg0 -> moon app = Some mn0 ->
  Object3D.position mg0 = Vector3.zero ->
  Object3D.position mn0 = Vector3.mk 5 0 0 ->
  exists earthGroup' moonGroup' moon',
    earthGroup (animate now app) = Some earthGroup'
    /\ moonGroup (animate now app) = Some moonGroup'
    /\ moon (animate now app) = Some moon'
    /\ Vector3.length
         (Vector3.sub (earthWorldPosition earthGroup')
            (moonWorldPosition earthGroup' moonGroup' moon')) = 5.
Proof.
  intros H1 H2 H3 H4 H5 Hmg Hmn.
  destruct (moon_distance_aux now app e0 c0 g0 mg0 mn0 H1 H2 H3 H4 H5 Hmg Hmn)
    as (eg & mg & mn & Eeg & Emg & Emn & Hd & _).
  exists eg, mg, mn. repeat split; assumption.
Qed.

Lemma moon_stays_5_from_earth_witness :
  (earth constructed = Some Mesh.new /\ clouds constructed = Some Mesh.new
   /\ earthGroup constructed = Some Object3D.new
   /\ moonGroup constructed
      = Some (Object3D.rotateX Object3D.new (5.1 * PI / 180))
   /\ moon constructed = Some (Object3D.position_set Object3D.new 5 0 0)
   /\ Object3D.position (Object3D.rotateX Object3D.new (5.1 * PI / 180))
      = Vector3.zero
   /\ Object3D.position (Object3D.position_set Object3D.new 5 0 0)
      = Vector3.mk 5 0 0)
  /\ exists earthGroup' moonGroup' moon',
       earthGroup (animate 0 constructed) = Some earthGroup'
       /\ moonGroup (animate 0 constructed) = Some moonGroup'
       /\ moon (animate 0 constructed) = Some moon'
       /\ Vector3.length
            (Vector3.sub (earthWorldPosition earthGroup')
               (moonWorldPosition earthGroup' moonGroup' moon')) = 5.
Proof.
  split.
  - repeat split.
  - exact (moon_stays_5_from_earth 0 constructed Mesh.new Mesh.new Object3D.new
             (Object3D.rotateX Object3D.new (5.1 * PI / 180))
             (Object3D.position_set Object3D.new 5 0 0)
             eq_refl eq_refl eq_refl eq_refl eq_refl eq_refl eq_refl).
Defined.

(** A point of the X axis is turned by the Y rotation only: the tilt about X
    leaves it where it is *)
Lemma rotateY_rotateX_on_X_axis (alpha beta d : R) :
  Quaternion.applyQuaternion (Vector3.mk d 0 0)
    (Quaternion.multiply
       (Quaternion.multiply (Quaternion.setFromEuler (Euler.mk 0 0 0))
          (Quaternion.setFromAxisAngle (Vector3.mk 0 1 0) alpha))
       (Quaternion.setFromAxisAngle (Vector3.mk 1 0 0) beta))
  = Vector3.mk (d * cos alpha) 0 (- d * sin alpha).
Proof.
  rewrite rotateY_rotateX_action. apply Vector3_eq; cbn; ring.
Qed.

(** The orbit inclination never moves the Moon.  Seen from [earthGroup], the
    Moon is at [(5 cos alpha, 0, - 5 sin alpha)] after a frame, with [alpha]
    the Moon's orbital angle, and at the same kind of point after the
    inclination handler has run with any value: the Moon stays in the plane
    [y = 0] of [earthGroup] (the Earth's equatorial plane), and the tilt only
    turns [moonGroup] about the line from the Earth to the Moon.  The Moon's
    orbital angle times 27.32 is the Earth's spin angle. *)
Theorem inclination_never_moves_the_moon (value : R) (app : App)
  (mg0 mn0 : Object3D.t) :
  moonGroup app = Some mg0 -> moon app = Some mn0 ->
  Object3D.position mg0 = Vector3.zero ->
  Object3D.position mn0 = Vector3.mk 5 0 0 ->
  let t := elapsedTime app in
  let alpha := t * (currentEarthRotationSpeed app / 365.25 * (365.25 / 27.32)) in
  let alpha' := t * (0.2 * (365.25 / 27.32)) in
  (exists moonGroup' moon',
      moonGroup (updateScene app) = Some moonGroup'
      /\ moon (updateScene app) = Some moon'
      /\ toParent moonGroup' (Object3D.position moon')
         = Vector3.mk (5 * cos alpha) 0 (- 5 * sin alpha))
  /\ (exists moonGroup',
        moonGroup (moonOrbitInclination_onChange value app) = Some moonGroup'
        /\ moon (moonOrbitInclination_onChange value app) = Some mn0
        /\ toParent moonGroup' (Object3D.position mn0)
           = Vector3.mk (5 * cos alpha') 0 (- 5 * sin alpha'))
  /\ alpha * 27.32 = t * currentEarthRotationSpeed app.
Proof.
  intros Hmg Hmn Pmg Pmn t alpha alpha'. subst t alpha alpha'.
  split; [| split].
  - destruct (updateScene_moon app mn0 mg0 Hmn Hmg) as [E1 E2].
    rewrite E1, E2. do 2 eexists.
    split; [reflexivity | split; [reflexivity |]].
    unfold toParent. cbn [Object3D.position Object3D.quaternion].
    rewrite Pmg, Pmn, rotateY_rotateX_on_X_axis.
    apply Vector3_eq;
      cbn [Vector3.add Vector3.zero Vector3.x Vector3.y Vector3.z]; ring.
  - rewrite (moonOrbitInclination_onChange_moonGroup value app mg0 Hmg).
    eexists. split; [reflexivity | split].
    + unfold moonOrbitInclination_onChange. rewrite Hmg. exact Hmn.
    + unfold toParent. cbn [Object3D.position Object3D.quaternion].
      rewrite Pmg, Pmn, rotateY_rotateX_on_X_axis.
      apply Vector3_eq;
        cbn [Vector3.add Vector3.zero Vector3.x Vector3.y Vector3.z]; ring.
  - field; repeat split; lra.
Qed.

Lemma inclination_never_moves_the_moon_witness :
  (moonGroup constructed = Some (Object3D.rotateX Object3D.new (5.1 * PI / 180))
   /\ moon constructed = Some (Object3D.position_set Object3D.new 5 0 0)
   /\ Object3D.position (Object3D.rotateX Object3D.new (5.1 * PI / 180))
      = Vector3.zero
   /\ Object3D.position (Object3D.position_set Object3D.new 5 0 0)
      = Vector3.mk 5 0 0)
  /\ exists moonGroup',
       moonGroup (moonOrbitInclination_onChange 9 constructed) = Some moonGroup'
       /\ toParent moonGroup' (Vector3.mk 5 0 0)
          = Vector3.mk
              (5 * cos (elapsedTime constructed * (0.2 * (365.25 / 27.32)))) 0
              (- 5 * sin (elapsedTime constructed * (0.2 * (365.25 / 27.32)))).
Proof.
  split.
  - repeat split.
  - destruct (inclination_never_moves_the_moon 9 constructed
                (Object3D.rotateX Object3D.new (5.1 * PI / 180))
                (Object3D.position_set Object3D.new 5 0 0)
                eq_refl eq_refl eq_refl eq_refl)
      as (_ & (mg & Hg & _ & Hp) & _).
    exists mg. split; [exact Hg | exact Hp].
Defined.

(** ** The lights, again *)

(** Where the earth block puts the secondary light, whether or not there is
    a primary light *)
Lemma updateScene_second_light (app : App) (e0 c0 : Mesh.t) (g0 : Object3D.t)
  (l2 : DirectionalLight.t) :
  earth app = Some e0 -> clouds app = Some c0 -> earthGroup app = Some g0 ->
  secondDirectionalLight app = Some l2 ->
  let bodyPosition :=
    calcOrbitPoint earthOrbitRadius earthOrbitEccentricity
      (elapsedTime app * (currentEarthRotationSpeed app / 365.25)) in
  let sunToEarth :=
    Vector3.normalize (Vector3.subVectors bodyPosition (Vector3.mk 0 0 0)) in
  secondDirectionalLight (updateScene app)
  = Some (DirectionalLight.mk
            (Vector3.sub bodyPosition
               (Vector3.add
                  (Vector3.multiplyScalar
                     match sunDirectionalLight app with
                     | Some _ => Vector3.multiplyScalar sunToEarth 10
                     | None => sunToEarth
                     end 8)
                  (Vector3.multiplyScalar
                     (Vector3.normalize
                        (Vector3.mk (sin (PI / 12)) (cos (PI / 12)) 0))
                     2)))
            DirectionalLight.EarthGroupTarget).
Proof.
  intros H1 H2 H3 H5.
  destruct (animate_sun_reads app)
    as (Ht & Hs & He & Hc & Hg & _ & Hl1 & Hl2 & _).
  unfold updateScene.
  rewrite animate_atmosphere_writes; app_simpl.
  rewrite animate_moon_writes; app_simpl.
  unfold animate_earth.
  rewrite He, Hc, Hg, Hl1, Hl2, H1, H2, H3, H5, Ht.
  rewrite (currentEarthRotationSpeed_ext _ _ Hs).
  destruct (sunDirectionalLight app); reflexivity.
Qed.

(** The secondary light stands 8 units behind the body along the line from
    the Sun when there is no primary light, and 80 units behind it when there
    is one: moving the primary light scales the shared vector [sunToEarth] by
    10 in place, and the secondary light is computed from the scaled vector. *)
Theorem second_light_standoff_depends_on_first (now : R) (app : App)
  (e0 c0 : Mesh.t) (g0 : Object3D.t) (l2 : DirectionalLight.t) :
  earth app = Some e0 -> clouds app = Some c0 -> earthGroup app = Some g0 ->
  secondDirectionalLight app = Some l2 ->
  exists body secondary,
    earthGroup (animate now app) = Some body
    /\ secondDirectionalLight (animate now app) = Some secondary
    /\ let bodyPosition := earthWorldPosition body in
       let toBody := Vector3.normalize bodyPosition in
       let offset := Vector3.mk (sin (PI / 12)) (cos (PI / 12)) 0 in
       let standoff :=
         match sunDirectionalLight app with Some _ => 80 | None => 8 end in
       DirectionalLight.position secondary
       = Vector3.sub bodyPosition
           (Vector3.add (Vector3.multiplyScalar toBody standoff)
                        (Vector3.multiplyScalar offset 2)).
Proof.
  intros H1 H2 H3 H5.
  rewrite animate_updateScene. set (app1 := set_elapsedTime _ _).
  rewrite (updateScene_earthGroup app1 e0 c0 g0) by assumption.
  rewrite (updateScene_second_light app1 e0 c0 g0 l2) by assumption.
  change (sunDirectionalLight app1) with (sunDirectionalLight app).
  do 2 eexists. split; [reflexivity | split; [reflexivity |]].
  cbn [earthWorldPosition Object3D.position DirectionalLight.position].
  unfold Vector3.subVectors. rewrite sub_origin, offsetVector_unit.
  cbn zeta. f_equal. f_equal.
  destruct (sunDirectionalLight app); apply Vector3_eq; cbn; ring.
Qed.

Lemma second_light_standoff_depends_on_first_witness :
  (earth constructed = Some Mesh.new /\ clouds constructed = Some Mesh.new
   /\ earthGroup constructed = Some Object3D.new
   /\ secondDirectionalLight constructed = Some DirectionalLight.new)
  /\ exists body secondary,
       earthGroup (animate 0 constructed) = Some body
       /\ secondDirectionalLight (animate 0 constructed) = Some secondary
       /\ DirectionalLight.position secondary
          = Vector3.sub (earthWorldPosition body)
              (Vector3.add
                 (Vector3.multiplyScalar
                    (Vector3.normalize (earthWorldPosition body)) 80)
                 (Vector3.multiplyScalar
                    (Vector3.mk (sin (PI / 12)) (cos (PI / 12)) 0) 2)).
Proof.
  split.
  - repeat split.
  - exact (second_light_standoff_depends_on_first 0 constructed Mesh.new
             Mesh.new Object3D.new DirectionalLight.new
             eq_refl eq_refl eq_refl eq_refl).
Defined.

(** The primary light always sits on the segment from the Sun to the Earth,
    10 units before the Earth: at [k] times the Earth's position with
    [1/3 <= k <= 3/5], never nearer the Sun's centre than the Sun's radius. *)
Theorem primary_light_between_sun_and_earth (now : R) (app : App)
  (e0 c0 : Mesh.t) (g0 : Object3D.t) (l1 : DirectionalLight.t) :
  earth app = Some e0 -> clouds app = Some c0 -> earthGroup app = Some g0 ->
  sunDirectionalLight app = Some l1 ->
  exists body primary k,
    earthGroup (animate now app) = Some body
    /\ sunDirectionalLight (animate now app) = Some primary
    /\ DirectionalLight.position primary
       = Vector3.multiplyScalar (earthWorldPosition body) k
    /\ / 3 <= k <= 3 / 5
    /\ Vector3.length (lightDirection primary (earthWorldPosition body)) = 10
    /\ Vector3.length (DirectionalLight.position primary)
       = Vector3.length (earthWorldPosition body) - 10
    /\ sunRadius <= Vector3.length (DirectionalLight.position primary).
Proof.
  intros H1 H2 H3 H4.
  rewrite animate_updateScene. set (app1 := set_elapsedTime _ _).
  rewrite (updateScene_earthGroup app1 e0 c0 g0) by assumption.
  assert (E : sunDirectionalLight (updateScene app1)
              = Some (DirectionalLight.mk
                        (Vector3.sub
                           (calcOrbitPoint earthOrbitRadius earthOrbitEccentricity
                              (elapsedTime app1
                               * (currentEarthRotationSpeed app1 / 365.25)))
                           (Vector3.multiplyScalar
                              (Vector3.normalize
                                 (Vector3.subVectors
                                    (calcOrbitPoint earthOrbitRadius
                                       earthOrbitEccentricity
                                       (elapsedTime app1
                                        * (currentEarthRotationSpeed app1
                                           / 365.25)))
                                    (Vector3.mk 0 0 0))) 10))
                        DirectionalLight.EarthGroupTarget)).
  { destruct (animate_sun_reads app1)
      as (Ht & Hs & He & Hc & Hg & _ & Hl1 & _).
    unfold updateScene.
    rewrite animate_atmosphere_writes; app_simpl.
    rewrite animate_moon_writes; app_simpl.
    unfold animate_earth.
    rewrite He, Hc, Hg, Hl1, Ht, (currentEarthRotationSpeed_ext _ _ Hs).
    change (earth app1) with (earth app). change (clouds app1) with (clouds app).
    change (earthGroup app1) with (earthGroup app).
    change (sunDirectionalLight app1) with (sunDirectionalLight app).
    rewrite H1, H2, H3, H4.
    destruct (secondDirectionalLight (animate_sun app1)); reflexivity. }
  rewrite E. clear E.
  set (p := calcOrbitPoint _ _ _).
  destruct (earth_distance_bounds_aux
              (elapsedTime app1 * (currentEarthRotationSpeed app1 / 365.25)))
    as [Hlo Hhi].
  fold p in Hlo, Hhi. clearbody p.
  unfold Vector3.subVectors. rewrite sub_origin.
  destruct (normalize_nonzero p) as [En _]; [lra |].
  rewrite En.
  remember (Vector3.length p) as L eqn:HL.
  exists (Object3D.mk p
            (Quaternion.multiply
               (Quaternion.multiply (Quaternion.setFromEuler (Euler.mk 0 0 0))
                  (Quaternion.setFromAxisAngle (Vector3.mk 0 0 1)
                     (23.5 * PI / 180)))
               (Quaternion.setFromAxisAngle (Vector3.mk 0 1 0)
                  (elapsedTime app1 * (currentEarthRotationSpeed app1 / 365.25))))).
  eexists. exists (1 - 10 / L).
  split; [reflexivity | split; [reflexivity |]].
  cbn [earthWorldPosition Object3D.position DirectionalLight.position].
  assert (Hk : / 3 <= 1 - 10 / L <= 3 / 5).
  { assert (Hq : 10 / L * L = 10) by (field; lra).
    assert (0 < 10 / L) by (apply Rdiv_lt_0_compat; lra).
    split; nra. }
  assert (Ep : Vector3.sub p
                 (Vector3.multiplyScalar (Vector3.multiplyScalar p (1 / L)) 10)
               = Vector3.multiplyScalar p (1 - 10 / L))
    by (apply Vector3_eq; cbn; field; lra).
  rewrite Ep.
  assert (Ll : Vector3.length (Vector3.multiplyScalar p (1 - 10 / L)) = L - 10).
  { rewrite length_multiplyScalar by lra. rewrite <- HL. field. lra. }
  rewrite <- HL.
  split; [reflexivity | split; [exact Hk |]].
  split; [| split; [exact Ll | rewrite Ll; unfold sunRadius; lra]].
  unfold lightDirection. cbn [DirectionalLight.position].
  replace (Vector3.sub p (Vector3.multiplyScalar p (1 - 10 / L)))
    with (Vector3.multiplyScalar p (10 / L))
    by (apply Vector3_eq; cbn; ring).
  rewrite length_multiplyScalar.
  - rewrite <- HL. field. lra.
  - apply Rlt_le, Rdiv_lt_0_compat; lra.
Qed.

Lemma primary_light_between_sun_and_earth_witness :
  (earth constructed = Some Mesh.new /\ clouds constructed = Some Mesh.new
   /\ earthGroup constructed = Some Object3D.new
   /\ sunDirectionalLight constructed = Some DirectionalLight.new)
  /\ exists body primary k,
       earthGroup (animate 0 constructed) = Some body
       /\ sunDirectionalLight (animate 0 constructed) = Some primary
       /\ DirectionalLight.position primary
          = Vector3.multiplyScalar (earthWorldPosition body) k
       /\ / 3 <= k <= 3 / 5.
Proof.
  split.
  - repeat split.
  - destruct (primary_light_between_sun_and_earth 0 constructed Mesh.new
                Mesh.new Object3D.new DirectionalLight.new
                eq_refl eq_refl eq_refl eq_refl)
      as (body & primary & k & Hb & Hp & Hk & Hr & _).
    exists body, primary, k. repeat split; try assumption; apply Hr.
Defined.

(** ** The bodies never touch *)

(** The triangle inequality for [Vector3.length] *)
Lemma length_triangle (a b : Vector3.t) :
  Vector3.length (Vector3.add a b) <= Vector3.length a + Vector3.length b.
Proof.
  pose proof (length_nonneg a) as Ha. pose proof (length_nonneg b) as Hb.
  pose proof (length_nonneg (Vector3.add a b)) as Hs.
  pose proof (length_square a) as Sa. pose proof (length_square b) as Sb.
  pose proof (length_square (Vector3.add a b)) as Ss.
  cbn [Vector3.add Vector3.x Vector3.y Vector3.z] in Ss.
  set (A := Vector3.length a) in *. set (B := Vector3.length b) in *.
  set (S := Vector3.length (Vector3.add a b)) in *.
  set (ax := Vector3.x a) in *. set (ay := Vector3.y a) in *.
  set (az := Vector3.z a) in *. set (bx := Vector3.x b) in *.
  set (by0 := Vector3.y b) in *. set (bz := Vector3.z b) in *.
  clearbody A B S ax ay az bx by0 bz.
  assert (Hcs : (ax * bx + ay * by0 + az * bz) * (ax * bx + ay * by0 + az * bz)
                <= (A * B) * (A * B)).
  { replace (A * B * (A * B)) with ((A * A) * (B * B)) by ring.
    rewrite Sa, Sb.
    pose proof (Rle_0_sqr (ay * bz - az * by0)) as C1.
    pose proof (Rle_0_sqr (az * bx - ax * bz)) as C2.
    pose proof (Rle_0_sqr (ax * by0 - ay * bx)) as C3.
    unfold Rsqr in C1, C2, C3. nra. }
  assert (Hd : ax * bx + ay * by0 + az * bz <= A * B).
  { assert (0 <= A * B) by (apply Rmult_le_pos; assumption). nra. }
  assert (Ss' : S * S = A * A + B * B + 2 * (ax * bx + ay * by0 + az * bz))
    by (rewrite Ss, Sa, Sb; ring).
  assert (Hq : S * S <= (A + B) * (A + B)).
  { replace ((A + B) * (A + B)) with (A * A + B * B + 2 * (A * B)) by ring.
    lra. }
  nra.
Qed.

(** After every frame the three spheres are apart: the Earth's centre is at
    least 15 from the Sun's, the Moon's exactly 5 from the Earth's and at
    least 10 from the Sun's, each more than the sum of the two radii
    (Sun 5, Earth 2, Moon 0.5). *)
Theorem bodies_never_touch (now : R) (app : App)
  (e0 c0 : Mesh.t) (g0 mg0 mn0 : Object3D.t) :
  earth app = Some e0 -> clouds app = Some c0 -> earthGroup app = Some g0 ->
  moonGroup app = Some mg0 -> moon app = Some mn0 ->
  Object3D.position mg0 = Vector3.zero ->
  Object3D.position mn0 = Vector3.mk 5 0 0 ->
  exists earthGroup' moonGroup' moon',
    earthGroup (animate now app) = Some earthGroup'
    /\ moonGroup (animate now app) = Some moonGroup'
    /\ moon (animate now app) = Some moon'
    /\ let earthPosition := earthWorldPosition earthGroup' in
       let moonPosition := moonWorldPosition earthGroup' moonGroup' moon' in
       sunRadius + earthRadius < 15 <= Vector3.length earthPosition
       /\ earthRadius + moonRadius
          < Vector3.length (Vector3.sub earthPosition moonPosition)
       /\ sunRadius + moonRadius < 10 <= Vector3.length moonPosition.
Proof.
  intros H1 H2 H3 H4 H5 Hmg Hmn.
  destruct (moon_distance_aux now app e0 c0 g0 mg0 mn0 H1 H2 H3 H4 H5 Hmg Hmn)
    as (eg & mg & mn & Eeg & Emg & Emn & Hd & He).
  exists eg, mg, mn.
  split; [exact Eeg | split; [exact Emg | split; [exact Emn |]]].
  cbn zeta. unfold sunRadius, earthRadius, moonRadius.
  pose proof (length_triangle
                (Vector3.sub (earthWorldPosition eg) (moonWorldPosition eg mg mn))
                (moonWorldPosition eg mg mn)) as Ht.
  replace (Vector3.add
             (Vector3.sub (earthWorldPosition eg) (moonWorldPosition eg mg mn))
             (moonWorldPosition eg mg mn))
    with (earthWorldPosition eg) in Ht
    by (apply Vector3_eq; cbn; ring).
  rewrite Hd in *. repeat split; lra.
Qed.

Lemma bodies_never_touch_witness :
  (earth constructed = Some Mesh.new /\ clouds constructed = Some Mesh.new
   /\ earthGroup constructed = Some Object3D.new
   /\ moonGroup constructed
      = Some (Object3D.rotateX Object3D.new (5.1 * PI / 180))
   /\ moon constructed = Some (Object3D.position_set Object3D.new 5 0 0)
   /\ Object3D.position (Object3D.rotateX Object3D.new (5.1 * PI / 180))
      = Vector3.zero
   /\ Object3D.position (Object3D.position_set Object3D.new 5 0 0)
      = Vector3.mk 5 0 0)
  /\ exists earthGroup' moonGroup' moon',
       earthGroup (animate 0 constructed) = Some earthGroup'
       /\ moonGroup (animate 0 constructed) = Some moonGroup'
       /\ moon (animate 0 constructed) = Some moon'
       /\ sunRadius + moonRadius < 10
          <= Vector3.length (moonWorldPosition earthGroup' moonGroup' moon').
Proof.
  split.
  - repeat split.
  - destruct (bodies_never_touch 0 constructed Mesh.new Mesh.new Object3D.new
                (Object3D.rotateX Object3D.new (5.1 * PI / 180))
                (Object3D.position_set Object3D.new 5 0 0)
                eq_refl eq_refl eq_refl eq_refl eq_refl eq_refl eq_refl)
      as (eg & mg & mn & Heg & Hmg & Hmn & _ & _ & Hs).
    exists eg, mg, mn. repeat split; try assumption; apply Hs.
Defined.

(** ** What a slider can store *)

(** [Math.round] of an integer is that integer *)
Lemma Math_round_integer (k : Z) :
  NumberController.Math_round (IZR k) = IZR k.
Proof.
  unfold NumberController.Math_round. f_equal.
  apply Z.le_antisymm.
  - apply Int_part_upper. lra.
  - apply Int_part_lower. lra.
Qed.

Section Grid.

Variable c : NumberController.t.
Variables kmin kmax : Z.
Hypothesis step_pos : 0 < NumberController._step c.
Hypothesis min_on_grid :
  NumberController._min c = IZR kmin * NumberController._step c.
Hypothesis max_on_grid :
  NumberController._max c = IZR kmax * NumberController._step c.
Hypothesis min_le_max : (kmin <= kmax)%Z.

(** What the controller stores is a step of the grid, inside the range *)
Lemma snapClamp_on_grid (value : R) :
  exists k : Z,
    NumberController._snapClampSetValue c value
    = IZR k * NumberController._step c
    /\ (kmin <= k <= kmax)%Z.
Proof.
  unfold NumberController._snapClampSetValue, NumberController._clamp,
    NumberController._snap, NumberController.Math_round.
  set (k := Int_part (value / NumberController._step c + / 2)).
  rewrite min_on_grid, max_on_grid.
  assert (Hmono : forall i j : Z,
             IZR i * NumberController._step c < IZR j * NumberController._step c
             -> (i < j)%Z).
  { intros i j H. apply lt_IZR. nra. }
  assert (Hmono' : forall i j : Z,
             ~ IZR i * NumberController._step c < IZR j * NumberController._step c
             -> (j <= i)%Z).
  { intros i j H. apply le_IZR. nra. }
  destruct (Rlt_dec (IZR k * NumberController._step c)
              (IZR kmin * NumberController._step c)) as [H1 | H1].
  - destruct (Rlt_dec (IZR kmax * NumberController._step c)
                (IZR kmin * NumberController._step c)) as [H2 | H2].
    + apply Hmono in H2. lia.
    + exists kmin. split; [reflexivity | lia].
  - destruct (Rlt_dec (IZR kmax * NumberController._step c)
                (IZR k * NumberController._step c)) as [H2 | H2].
    + exists kmax. split; [reflexivity | lia].
    + exists k. split; [reflexivity |].
      apply Hmono' in H1, H2. lia.
Qed.

(** A value of the grid inside the range is stored as it is *)
Lemma snapClamp_fixes_grid (k : Z) :
  (kmin <= k <= kmax)%Z ->
  NumberController._snapClampSetValue c (IZR k * NumberController._step c)
  = IZR k * NumberController._step c.
Proof.
  intros Hk.
  unfold NumberController._snapClampSetValue, NumberController._clamp,
    NumberController._snap.
  replace (IZR k * NumberController._step c / NumberController._step c)
    with (IZR k) by (field; lra).
  rewrite Math_round_integer, min_on_grid, max_on_grid.
  assert (H1 : IZR kmin * NumberController._step c
               <= IZR k * NumberController._step c)
    by (apply Rmult_le_compat_r; [lra | apply IZR_le; lia]).
  assert (H2 : IZR k * NumberController._step c
               <= IZR kmax * NumberController._step c)
    by (apply Rmult_le_compat_r; [lra | apply IZR_le; lia]).
  destruct (Rlt_dec (IZR k * NumberController._step c)
              (IZR kmin * NumberController._step c)) as [H | H]; [lra |].
  destruct (Rlt_dec _ _) as [H' | H']; [lra | reflexivity].
Qed.

End Grid.

(** The three sliders with a range: their ranges start and end on the grid
    of their step *)
Lemma sliders_on_grid :
  (0 < NumberController._step speedRotationControl
   /\ NumberController._min speedRotationControl
      = IZR 0 * NumberController._step speedRotationControl
   /\ NumberController._max speedRotationControl
      = IZR 2000 * NumberController._step speedRotationControl)
  /\ (0 < NumberController._step atmosphereIntensityControl
      /\ NumberController._min atmosphereIntensityControl
         = IZR 0 * NumberController._step atmosphereIntensityControl
      /\ NumberController._max atmosphereIntensityControl
         = IZR 15 * NumberController._step atmosphereIntensityControl)
  /\ (0 < NumberController._step moonOrbitInclinationControl
      /\ NumberController._min moonOrbitInclinationControl
         = IZR 0 * NumberController._step moonOrbitInclinationControl
      /\ NumberController._max moonOrbitInclinationControl
         = IZR 100 * NumberController._step moonOrbitInclinationControl).
Proof.
  unfold speedRotationControl, atmosphereIntensityControl,
    moonOrbitInclinationControl;
    cbn [NumberController._min NumberController._max NumberController._step].
  repeat split; lra.
Qed.

(** Whatever the user enters, a slider stores a whole number of steps of 0.1
    inside its range (0 to 200 for the speed, 0 to 1.5 for the atmosphere, 0
    to 10 for the inclination), and entering the stored value again stores
    the same value. *)
Theorem sliders_store_grid_values (value : R) :
  let stored (c : NumberController.t) :=
    NumberController._snapClampSetValue c value in
  (exists k : Z, stored speedRotationControl = IZR k * 0.1
                 /\ (0 <= k <= 2000)%Z)
  /\ (exists k : Z, stored atmosphereIntensityControl = IZR k * 0.1
                    /\ (0 <= k <= 15)%Z)
  /\ (exists k : Z, stored moonOrbitInclinationControl = IZR k * 0.1
                    /\ (0 <= k <= 100)%Z)
  /\ NumberController._snapClampSetValue speedRotationControl
       (stored speedRotationControl) = stored speedRotationControl
  /\ NumberController._snapClampSetValue atmosphereIntensityControl
       (stored atmosphereIntensityControl) = stored atmosphereIntensityControl
  /\ NumberController._snapClampSetValue moonOrbitInclinationControl
       (stored moonOrbitInclinationControl) = stored moonOrbitInclinationControl.
Proof.
  intros stored. subst stored. cbn beta.
  destruct sliders_on_grid as ((S1 & S2 & S3) & (A1 & A2 & A3) & (M1 & M2 & M3)).
  destruct (snapClamp_on_grid speedRotationControl 0 2000 S1 S2 S3
              ltac:(lia) value) as (ks & Eks & Hks).
  destruct (snapClamp_on_grid atmosphereIntensityControl 0 15 A1 A2 A3
              ltac:(lia) value) as (ka & Eka & Hka).
  destruct (snapClamp_on_grid moonOrbitInclinationControl 0 100 M1 M2 M3
              ltac:(lia) value) as (km & Ekm & Hkm).
  split; [exists ks; split; [exact Eks | exact Hks] |].
  split; [exists ka; split; [exact Eka | exact Hka] |].
  split; [exists km; split; [exact Ekm | exact Hkm] |].
  split; [| split].
  - rewrite Eks.
    exact (snapClamp_fixes_grid speedRotationControl 0 2000 S1 S2 S3 ks Hks).
  - rewrite Eka.
    exact (snapClamp_fixes_grid atmosphereIntensityControl 0 15 A1 A2 A3 ka Hka).
  - rewrite Ekm.
    exact (snapClamp_fixes_grid moonOrbitInclinationControl 0 100 M1 M2 M3 km Hkm).
Qed.

(** 73.05 is not a whole number of steps of 0.1 *)
Lemma grid_misses_73_05 (k : Z) : IZR k * 0.1 <> 73.05.
Proof.
  intros H.
  assert (E : IZR (2 * k) = IZR 1461) by (rewrite mult_IZR; lra).
  apply eq_IZR in E. lia.
Qed.

(** In every state the application can reach, the rotation speed is a whole
    number of steps of 0.1 between 0 and 200.  It is therefore never 73.05,
    and the Earth orbital rate the frame derives from it is never the 0.2
    that the inclination handler uses. *)
Theorem reachable_speed_is_on_the_grid (app : App) :
  Reachable app ->
  exists sc (k : Z),
    speedControls app = Some sc
    /\ earthRotationSpeed sc = IZR k * 0.1 /\ (0 <= k <= 2000)%Z
    /\ earthRotationSpeed sc <> 73.05
    /\ currentEarthRotationSpeed app / 365.25 <> 0.2.
Proof.
  intros Hr.
  assert (G : exists sc (k : Z),
             speedControls app = Some sc
             /\ earthRotationSpeed sc = IZR k * 0.1 /\ (0 <= k <= 2000)%Z).
  { induction Hr as [| app e _ (sc & k & Hsc & Hk & Hrange)].
    - exists (mkSpeedControls 1 false), 10%Z.
      split; [reflexivity | split; [cbn; lra | lia]].
    - rewrite step_speedControls, Hsc.
      destruct e as [now | value | | now value | value | value].
      + exists sc, k. repeat split; assumption || lia.
      + destruct sliders_on_grid as ((S1 & S2 & S3) & _).
        destruct (snapClamp_on_grid speedRotationControl 0 2000 S1 S2 S3
                    ltac:(lia) value) as (k' & Ek' & Hk').
        eexists. exists k'. split; [reflexivity |].
        split; [exact Ek' | exact Hk'].
      + eexists. exists 10%Z. split; [reflexivity | split; [cbn; lra | lia]].
      + eexists. exists k. split; [reflexivity | split; [exact Hk | exact Hrange]].
      + exists sc, k. repeat split; assumption || lia.
      + exists sc, k. repeat split; assumption || lia. }
  destruct G as (sc & k & Hsc & Hk & Hrange).
  exists sc, k.
  assert (Hne : earthRotationSpeed sc <> 73.05)
    by (rewrite Hk; apply grid_misses_73_05).
  split; [exact Hsc | split; [exact Hk | split; [exact Hrange |]]].
  split; [exact Hne |].
  unfold currentEarthRotationSpeed. rewrite Hsc. intros H. apply Hne. lra.
Qed.

Lemma reachable_speed_is_on_the_grid_witness :
  Reachable (step constructed (SpeedInput 73.05))
  /\ exists sc (k : Z),
       speedControls (step constructed (SpeedInput 73.05)) = Some sc
       /\ earthRotationSpeed sc = IZR k * 0.1 /\ (0 <= k <= 2000)%Z
       /\ earthRotationSpeed sc <> 73.05.
Proof.
  assert (Hr : Reachable (step constructed (SpeedInput 73.05)))
    by (constructor; constructor).
  split; [exact Hr |].
  destruct (reachable_speed_is_on_the_grid _ Hr)
    as (sc & k & H1 & H2 & H3 & H4 & _).
  exists sc, k. repeat split; try assumption; apply H3.
Defined.

(** ** Frames that change nothing *)

(** Runs the clock methods on a clock whose flags are known *)
Ltac clock_compute :=
  cbv beta iota zeta delta
    [Clock.stop Clock.getElapsedTime Clock.getDelta Clock.start Clock.new
     Clock.autoStart Clock.running Clock.elapsedTime Clock.oldTime
     Clock.startTime andb negb fst snd].

(** With the speed at 0 the scene update does not depend on the elapsed time *)
Lemma updateScene_transforms_speed_zero (a b : App) :
  wellFormed a -> wellFormed b ->
  currentEarthRotationSpeed a = 0 -> currentEarthRotationSpeed b = 0 ->
  transforms (updateScene a) = transforms (updateScene b).
Proof.
  intros Ha Hb.
  wellFormed_fields Ha a. wellFormed_fields Hb b.
  cbn [currentEarthRotationSpeed speedControls].
  destruct sc as [v1 p1], sc0 as [v2 p2]. cbn [earthRotationSpeed].
  intros -> ->.
  scene_compute. cbn [earthRotationSpeed].
  unfold Rdiv. repeat (rewrite !Rmult_0_l || rewrite !Rmult_0_r).
  reflexivity.
Qed.

(** With the speed slider at 0, every frame hands the renderer the same
    transforms whatever the time it reads: nothing spins or moves, and the
    Earth stays at the perihelion [(-15, 0, 0)]. *)
Theorem speed_zero_freezes_the_scene (now1 now2 : R) (app : App) :
  Reachable app -> currentEarthRotationSpeed app = 0 ->
  transforms (animate now1 app) = transforms (animate now2 app)
  /\ option_map Object3D.position (earthGroup (animate now1 app))
     = Some (Vector3.mk (-15) 0 0).
Proof.
  intros Hr Hs. pose proof (Reachable_wellFormed _ Hr) as Hw.
  split.
  - rewrite !animate_updateScene.
    apply updateScene_transforms_speed_zero;
      [exact Hw | exact Hw | exact Hs | exact Hs].
  - destruct Hw as (_ & _ & _ & (ye & He) & (yc & Hc) & (g & Hg) & _).
    rewrite animate_updateScene. set (app1 := set_elapsedTime _ _).
    rewrite (updateScene_earthGroup app1 _ _ g He Hc Hg).
    cbn [option_map Object3D.position]. f_equal.
    change (currentEarthRotationSpeed app1)
      with (currentEarthRotationSpeed app).
    rewrite Hs.
    replace (elapsedTime _ * (0 / 365.25)) with 0 by lra.
    unfold calcOrbitPoint, earthOrbitRadius, earthOrbitEccentricity.
    rewrite cos_0, sin_0. f_equal; lra.
Qed.

Lemma speed_zero_freezes_the_scene_witness :
  (Reachable (step constructed (SpeedInput (-5)))
   /\ currentEarthRotationSpeed (step constructed (SpeedInput (-5))) = 0)
  /\ transforms (animate 1000 (step constructed (SpeedInput (-5))))
     = transforms (animate 9000 (step constructed (SpeedInput (-5)))).
Proof.
  assert (Hr : Reachable (step constructed (SpeedInput (-5))))
    by (constructor; constructor).
  assert (Hs : currentEarthRotationSpeed (step constructed (SpeedInput (-5))) = 0).
  { cbn [step]. unfold currentEarthRotationSpeed.
    rewrite (speedRotationControl_input_stores (-5) constructed
               (mkSpeedControls 1 false) eq_refl).
    cbn [earthRotationSpeed].
    destruct (speedRotationControl_stores (-5)) as (_ & Hbelow & _).
    apply Hbelow. lra. }
  split; [split; [exact Hr | exact Hs] |].
  exact (proj1 (speed_zero_freezes_the_scene 1000 9000 _ Hr Hs)).
Defined.

(** While the scene is paused a second frame changes nothing at all: the
    state after two frames is the state after one, clock included, whatever
    the wall clock shows.  So is the scene update run twice on any reachable
    state: re-rendering at the same elapsed time is idempotent. *)
Theorem paused_frame_changes_nothing (now now1 now2 : R) (app : App) :
  Reachable app ->
  animate now2 (animate now1 (pauseAnimation_input now true app))
  = animate now1 (pauseAnimation_input now true app)
  /\ updateScene (updateScene app) = updateScene app.
Proof.
  intros Hr. pose proof (Reachable_wellFormed _ Hr) as H.
  wellFormed_fields H app.
  split.
  - scene_compute. clock_compute. reflexivity.
  - scene_compute. reflexivity.
Qed.

Lemma paused_frame_changes_nothing_witness :
  Reachable constructed
  /\ animate 7000 (animate 5000 (pauseAnimation_input 4000 true constructed))
     = animate 5000 (pauseAnimation_input 4000 true constructed).
Proof.
  split; [constructor |].
  exact (proj1 (paused_frame_changes_nothing 4000 5000 7000 constructed
                  Reachable_constructed)).
Defined.

(** ** The pointer *)

(** The [mousemove] listener maps a pointer inside a window of positive size
    into the square [-1, 1] x [-1, 1]: the top left corner to [(-1, 1)], the
    bottom right corner to [(1, -1)], the centre to [(0, 0)]; [x] grows to
    the right and [y] upwards. *)
Theorem mouse_is_normalized (sizes : Sizes) (clientX clientY : R) :
  0 < width sizes -> 0 < height sizes ->
  0 <= clientX <= width sizes -> 0 <= clientY <= height sizes ->
  let mouse := mousemove sizes clientX clientY in
  -1 <= Vector2.x mouse <= 1 /\ -1 <= Vector2.y mouse <= 1
  /\ mousemove sizes 0 0 = Vector2.mk (-1) 1
  /\ mousemove sizes (width sizes) (height sizes) = Vector2.mk 1 (-1)
  /\ mousemove sizes (width sizes / 2) (height sizes / 2) = Vector2.mk 0 0
  /\ (forall clientX' clientY',
        clientX <= clientX' -> clientY <= clientY' ->
        Vector2.x mouse <= Vector2.x (mousemove sizes clientX' clientY')
        /\ Vector2.y (mousemove sizes clientX' clientY') <= Vector2.y mouse).
Proof.
  intros Hw Hh Hx Hy mouse. subst mouse. unfold mousemove.
  cbn [Vector2.x Vector2.y].
  assert (Ex : clientX / width sizes * width sizes = clientX) by (field; lra).
  assert (Ey : clientY / height sizes * height sizes = clientY) by (field; lra).
  assert (Bx : 0 <= clientX / width sizes <= 1).
  { split.
    - apply Rmult_le_reg_r with (width sizes); [exact Hw | rewrite Ex; lra].
    - apply Rmult_le_reg_r with (width sizes); [exact Hw | rewrite Ex; lra]. }
  assert (By : 0 <= clientY / height sizes <= 1).
  { split.
    - apply Rmult_le_reg_r with (height sizes); [exact Hh | rewrite Ey; lra].
    - apply Rmult_le_reg_r with (height sizes); [exact Hh | rewrite Ey; lra]. }
  split; [lra | split; [lra |]].
  split; [f_equal; field; lra |].
  split; [f_equal; field; lra |].
  split; [f_equal; field; lra |].
  intros x' y' Hx' Hy'.
  assert (Mx : clientX / width sizes <= x' / width sizes).
  { apply Rmult_le_compat_r; [| exact Hx'].
    apply Rlt_le, Rinv_0_lt_compat; exact Hw. }
  assert (My : clientY / height sizes <= y' / height sizes).
  { apply Rmult_le_compat_r; [| exact Hy'].
    apply Rlt_le, Rinv_0_lt_compat; exact Hh. }
  split; lra.
Qed.

Lemma mouse_is_normalized_witness :
  (0 < 800 /\ 0 < 600 /\ 0 <= 200 <= 800 /\ 0 <= 450 <= 600)
  /\ -1 <= Vector2.x (mousemove (mkSizes 800 600) 200 450) <= 1
  /\ -1 <= Vector2.y (mousemove (mkSizes 800 600) 200 450) <= 1.
Proof.
  split; [lra |].
  pose proof (mouse_is_normalized (mkSizes 800 600) 200 450) as H.
  cbn [width height] in H.
  specialize (H ltac:(lra) ltac:(lra) ltac:(lra) ltac:(lra)).
  exact (conj (proj1 H) (proj1 (proj2 H))).
Defined.

(** Clicking a body sends the camera to a point computed from the body's
    position in its parent, not from where the body is in the world: in every
    reachable state a click on the Earth and a click on the Sun both send the
    camera to [(0, 3, 8)], and a click on the Moon sends it to
    [(7.5, 3, 8)], wherever the Earth and the Moon are on their orbits. *)
Theorem click_target_ignores_the_orbit (app : App) :
  Reachable app ->
  click app ClickedEarth = Some (Vector3.mk 0 3 8)
  /\ click app ClickedSun = Some (Vector3.mk 0 3 8)
  /\ click app ClickedMoon = Some (Vector3.mk 7.5 3 8).
Proof.
  intros Hr. pose proof (Reachable_wellFormed _ Hr) as H.
  destruct H as (_ & _ & (ys & Hs) & (ye & He) & _ & _ & _ & _ & _ & _ & _
                 & (mn & Hmn & Pmn) & _).
  unfold click, clickedPosition. rewrite Hs, He, Hmn.
  cbn [option_map Mesh.position]. rewrite Pmn.
  unfold cameraTarget, Vector3.zero. cbn [Vector3.x Vector3.y Vector3.z].
  repeat split; f_equal; f_equal; lra.
Qed.

Lemma click_target_ignores_the_orbit_witness :
  Reachable (step constructed (Frame 5000))
  /\ click (step constructed (Frame 5000)) ClickedEarth
     = Some (Vector3.mk 0 3 8).
Proof.
  assert (Hr : Reachable (step constructed (Frame 5000)))
    by (constructor; constructor).
  split; [exact Hr |].
  exact (proj1 (click_target_ignores_the_orbit _ Hr)).
Defined.

(** ** The info panel *)

(** [updateInfoPanel] leaves the panel as it is for any name other than
    ["sun"], ["earth"] and ["moon"].  For the name of each body a click can
    hit it overwrites both fields, whatever they held, and the three bodies
    get three different titles. *)
Theorem info_panel_updates :
  (forall name panel,
      name <> "sun"%string -> name <> "earth"%string -> name <> "moon"%string ->
      updateInfoPanel name panel = panel)
  /\ (forall object panel panel',
        updateInfoPanel (clickedName object) panel
        = updateInfoPanel (clickedName object) panel')
  /\ (forall object object' panel,
        planetName (updateInfoPanel (clickedName object) panel)
        = planetName (updateInfoPanel (clickedName object') panel) ->
        object = object').
Proof.
  split; [| split].
  - intros name panel H1 H2 H3. unfold updateInfoPanel.
    apply String.eqb_neq in H1, H2, H3. rewrite H1, H2, H3. reflexivity.
  - intros object panel panel'. destruct object; reflexivity.
  - intros object object' panel.
    destruct object, object'; cbn; intros H;
      first [reflexivity | discriminate H].
Qed.

(** ** The line to the Moon's face mark *)

(** Where the moon block leaves the face mark *)
Lemma animate_moon_moonFaceMark (app : App) (mn0 mg0 : Object3D.t) :
  moon app = Some mn0 -> moonGroup app = Some mg0 ->
  moonFaceMark (animate_moon app)
  = match moonFaceMark app with
    | Some _ => Some (Mesh.mk (Vector3.mk 0 0 0.6) (Euler.mk 0 PI 0))
    | None => None
    end.
Proof.
  intros H1 H2. unfold animate_moon. rewrite H1, H2.
  destruct (moonFaceMark app); reflexivity.
Qed.

(** Every frame of a scene with its Moon replaces the face line by a new one
    from the Moon's centre to [(0, 0, 0.6)], magenta and visible: hiding the
    line with the [showMoonFaceLine] checkbox lasts until the next frame.  A
    missing line stays missing, and a line without a face mark makes the
    frame throw. *)
Theorem face_line_is_rebuilt_every_frame (app : App) (mn0 mg0 : Object3D.t)
  (line : Line) (value : bool) :
  moon app = Some mn0 -> moonGroup app = Some mg0 ->
  (forall mark, moonFaceMark app = Some mark ->
     animate_moonFaceLine app (showMoonFaceLine_onChange value (Some line))
     = Returned
         (Some (mkLine (cons (Vector3.mk 0 0 0)
                          (cons (Vector3.mk 0 0 0.6) nil))
                  0xff00ff true)))
  /\ animate_moonFaceLine app (showMoonFaceLine_onChange value None)
     = Returned None
  /\ (moonFaceMark app = None ->
      animate_moonFaceLine app (Some line) = Thrown).
Proof.
  intros H1 H2. unfold animate_moonFaceLine, showMoonFaceLine_onChange.
  rewrite H1, H2, (animate_moon_moonFaceMark app mn0 mg0 H1 H2).
  split; [| split].
  - intros mark Hm. rewrite Hm. reflexivity.
  - reflexivity.
  - intros Hm. rewrite Hm. reflexivity.
Qed.

Lemma face_line_is_rebuilt_every_frame_witness :
  (moon constructed = Some (Object3D.position_set Object3D.new 5 0 0)
   /\ moonGroup constructed
      = Some (Object3D.rotateX Object3D.new (5.1 * PI / 180)))
  /\ animate_moonFaceLine constructed
       (showMoonFaceLine_onChange false
          (Some (mkLine (cons (Vector3.mk 0 0 0)
                           (cons (Vector3.mk 0 0 0.6) nil))
                   0xff00ff true)))
     = Returned
         (Some (mkLine (cons (Vector3.mk 0 0 0)
                          (cons (Vector3.mk 0 0 0.6) nil))
                  0xff00ff true)).
Proof.
  split; [split; reflexivity |].
  exact (proj1 (face_line_is_rebuilt_every_frame constructed
                  (Object3D.position_set Object3D.new 5 0 0)
                  (Object3D.rotateX Object3D.new (5.1 * PI / 180))
                  (mkLine (cons (Vector3.mk 0 0 0)
                             (cons (Vector3.mk 0 0 0.6) nil))
                     0xff00ff true)
                  false eq_refl eq_refl)
           (Mesh.position_set Mesh.new 0 0 0.6) eq_refl).
Defined.

(** ** The atmosphere shaders *)

Lemma clamp_0_1 (x : R) :
  0 <= GLSL.clamp x 0 1 <= 1
  /\ (1 <= x -> GLSL.clamp x 0 1 = 1)
  /\ (x <= 0 -> GLSL.clamp x 0 1 = 0).
Proof.
  unfold GLSL.clamp, GLSL.min, GLSL.max.
  destruct (Rlt_dec x 0); destruct (Rlt_dec 1 _); repeat split; intros; lra.
Qed.

Lemma smoothstep_0_03 (v : R) :
  0 <= GLSL.smoothstep 0 0.3 v <= 1
  /\ (0.3 <= v -> GLSL.smoothstep 0 0.3 v = 1)
  /\ (v <= 0 -> GLSL.smoothstep 0 0.3 v = 0).
Proof.
  unfold GLSL.smoothstep.
  destruct (clamp_0_1 ((v - 0) / (0.3 - 0))) as ([Hlo Hhi] & H1 & H0).
  set (t := GLSL.clamp _ 0 1) in *. clearbody t.
  assert (Ht : 0 <= t * t) by (apply Rmult_le_pos; assumption).
  assert (Hu : 0 <= (1 - t) * (1 - t)) by (apply Rmult_le_pos; lra).
  assert (Hw : 0 <= (1 - t) * (1 - t) * (1 + 2 * t))
    by (apply Rmult_le_pos; lra).
  split; [split; [apply Rmult_le_pos; lra | nra] | split].
  - intros Hv. rewrite H1 by lra. lra.
  - intros Hv. rewrite H0 by lra. lra.
Qed.

(** For a sun intensity between 0 and 1 the atmosphere colour is the night
    colour [(0.05, 0.05, 0.1)] where the Sun does not reach, the day colour
    wherever the intensity is 0.3 or more, and in between a blend in which
    blue is never below green, green never below red, and every channel lies
    between 0.05 and 1. *)
Theorem atmosphere_colour_is_a_blue_blend (v : R) :
  0 <= v <= 1 ->
  let c := atmosphereColor v in
  (v = 0 -> c = Vector3.mk 0.05 0.05 0.1)
  /\ (0.3 <= v -> c = dayColor v)
  /\ (v = 1 -> c = Vector3.mk 0.3 0.6 1)
  /\ 0.05 <= Vector3.x c <= Vector3.y c
  /\ Vector3.y c <= Vector3.z c <= 1.
Proof.
  intros Hv c. subst c.
  destruct (smoothstep_0_03 v) as ([Hlo Hhi] & H1 & H0).
  unfold atmosphereColor, dayColor, nightColor, GLSL.mix.
  set (s := GLSL.smoothstep 0 0.3 v) in *. clearbody s.
  split; [| split; [| split]].
  - intros ->. rewrite H0 by lra. apply Vector3_eq; cbn; lra.
  - intros Hd. rewrite H1 by exact Hd. apply Vector3_eq; cbn; lra.
  - intros ->. rewrite H1 by lra. apply Vector3_eq; cbn; lra.
  - cbn [Vector3.add Vector3.multiplyScalar Vector3.x Vector3.y Vector3.z].
    repeat split; nra.
Qed.

Lemma atmosphere_colour_is_a_blue_blend_witness :
  0 <= 0.1 <= 1
  /\ 0.05 <= Vector3.x (atmosphereColor 0.1) <= Vector3.y (atmosphereColor 0.1)
  /\ Vector3.y (atmosphereColor 0.1) <= Vector3.z (atmosphereColor 0.1) <= 1.
Proof.
  split; [lra |].
  exact (proj2 (proj2 (proj2
           (atmosphere_colour_is_a_blue_blend 0.1 ltac:(lra))))).
Defined.

(** The dot product is at most the product of the lengths *)
Lemma dot_le_lengths (a b : Vector3.t) :
  Vector3.dot a b <= Vector3.length a * Vector3.length b.
Proof.
  pose proof (length_nonneg a) as Ha. pose proof (length_nonneg b) as Hb.
  pose proof (length_square a) as Sa. pose proof (length_square b) as Sb.
  unfold Vector3.dot.
  set (A := Vector3.length a) in *. set (B := Vector3.length b) in *.
  set (ax := Vector3.x a) in *. set (ay := Vector3.y a) in *.
  set (az := Vector3.z a) in *. set (bx := Vector3.x b) in *.
  set (by0 := Vector3.y b) in *. set (bz := Vector3.z b) in *.
  clearbody A B ax ay az bx by0 bz.
  assert (Hcs : (ax * bx + ay * by0 + az * bz) * (ax * bx + ay * by0 + az * bz)
                <= (A * B) * (A * B)).
  { replace (A * B * (A * B)) with ((A * A) * (B * B)) by ring.
    rewrite Sa, Sb.
    pose proof (Rle_0_sqr (ay * bz - az * by0)) as C1.
    pose proof (Rle_0_sqr (az * bx - ax * bz)) as C2.
    pose proof (Rle_0_sqr (ax * by0 - ay * bx)) as C3.
    unfold Rsqr in C1, C2, C3. nra. }
  assert (0 <= A * B) by (apply Rmult_le_pos; assumption). nra.
Qed.

(** The sun intensity the vertex shader passes on is never negative, and for
    a unit normal and a unit direction to the Sun it is at most 1.  The
    scattering term only adds light: no channel of the final colour is below
    the atmosphere colour, and for a cosine between -1 and 1 the Rayleigh
    term lies between 0.75 and 1.5 times the scattering coefficients, blue
    above green above red. *)
Theorem scattering_only_adds_light (worldNormal sunDir : Vector3.t)
  (cosTheta : R) :
  Vector3.length worldNormal = 1 -> Vector3.length sunDir = 1 ->
  -1 <= cosTheta <= 1 ->
  let v := vSunIntensity worldNormal sunDir in
  let ray := rayleighScattering cosTheta in
  let final := finalColor cosTheta v in
  0 <= v <= 1
  /\ (0.75 * 5.8e-6 <= Vector3.x ray <= 1.5 * 5.8e-6
      /\ 0.75 * 13.5e-6 <= Vector3.y ray <= 1.5 * 13.5e-6
      /\ 0.75 * 33.1e-6 <= Vector3.z ray <= 1.5 * 33.1e-6)
  /\ Vector3.x ray < Vector3.y ray < Vector3.z ray
  /\ Vector3.x (atmosphereColor v) <= Vector3.x final
  /\ Vector3.y (atmosphereColor v) <= Vector3.y final
  /\ Vector3.z (atmosphereColor v) <= Vector3.z final.
Proof.
  intros Hn Hs Hc v ray final. subst ray final.
  assert (Hv : 0 <= v <= 1).
  { subst v. unfold vSunIntensity, GLSL.max.
    pose proof (dot_le_lengths worldNormal sunDir) as Hd.
    rewrite Hn, Hs in Hd.
    destruct (Rlt_dec 0 _); lra. }
  clearbody v.
  assert (Hq : 0 <= cosTheta * cosTheta <= 1) by nra.
  unfold finalColor, rayleighScattering.
  cbn [Vector3.add Vector3.multiplyScalar Vector3.x Vector3.y Vector3.z].
  set (q := cosTheta * cosTheta) in *. clearbody q.
  split; [exact Hv |].
  split; [repeat split; lra |].
  split; [split; lra |].
  repeat split; nra.
Qed.

Lemma scattering_only_adds_light_witness :
  (Vector3.length (Vector3.mk 0 1 0) = 1 /\ Vector3.length (Vector3.mk 1 0 0) = 1
   /\ -1 <= 0.5 <= 1)
  /\ 0 <= vSunIntensity (Vector3.mk 0 1 0) (Vector3.mk 1 0 0) <= 1.
Proof.
  assert (L1 : Vector3.length (Vector3.mk 0 1 0) = 1)
    by (apply length_eq; cbn; lra).
  assert (L2 : Vector3.length (Vector3.mk 1 0 0) = 1)
    by (apply length_eq; cbn; lra).
  split; [split; [exact L1 | split; [exact L2 | lra]] |].
  exact (proj1 (scattering_only_adds_light (Vector3.mk 0 1 0)
                  (Vector3.mk 1 0 0) 0.5 L1 L2 ltac:(lra))).
Defined.
